(** * cvDisplacementMapFilter: the pixel transforms of [main.cpp]

    A shallow embedding of [getComponent], [displacementMapFilter] and
    [overlayImage], and the properties of them that the specification
    states.

    Conventions of the embedding.
    - A C++ [int] is a [Z]; every [int] operation of the source is followed
      by the 32-bit two's-complement wrap-around, written [wrap32].
    - A [cv::Mat] is its header ([rows], [cols], [type], [step]) together
      with the bytes that start at its [data] pointer.  A view into a larger
      image (the cropped map of [main]) has the [step] of its parent.
    - An index into [data] is computed in [size_t] by the source; here it
      is an exact [Z], with the [int] products inside it wrapped like every
      other [int] operation.
    - A read or a write outside the bytes of a [Mat] has no defined result
      in C++; here it yields [None] and the computation stops.
    - [std::cout] is a list of lines; a computation carries the lines it
      has printed next to its optional result.
    - The [output] argument shares no bytes with the input matrices, as in
      [main], where it is a new header in every frame. *)

From Stdlib Require Import ZArith Lia List Strings.Byte.
From Stdlib Require Import Floats.SpecFloat.
From stdpp Require Import base option list strings pretty.

Local Open Scope Z_scope.

(** ** Machine integers *)

Module Int32.

Definition min_int : Z := - 2 ^ 31.
Definition max_int : Z := 2 ^ 31 - 1.

Definition wrap32 (z : Z) : Z := (z + 2 ^ 31) `mod` 2 ^ 32 - 2 ^ 31.

Definition add (a b : Z) : Z := wrap32 (a + b).
Definition sub (a b : Z) : Z := wrap32 (a - b).
Definition mul (a b : Z) : Z := wrap32 (a * b).

(** [a / b] on [int] truncates toward zero. *)
Definition div (a b : Z) : Z := wrap32 (a ÷ b).

Definition in_range (z : Z) : Prop := min_int <= z <= max_int.

End Int32.

(** ** Output and undefined behaviour *)

(** A computation prints lines and then either has a result or has run
    into a read or write outside a buffer. *)
Definition M (A : Type) : Type := (list string * option A)%type.

Definition ret {A} (a : A) : M A := ([], Some a).

Definition bind {A B} (m : M A) (f : A -> M B) : M B :=
  match m with
  | (l, None) => (l, None)
  | (l, Some a) => let '(l', r) := f a in (l ++ l', r)
  end.

Definition print (line : string) : M unit := ([line], Some tt).

Definition lift {A} (o : option A) : M A := ([], o).

Declare Scope cv_scope.
Delimit Scope cv_scope with cv.
Notation "'let*' x ':=' m 'in' k" := (bind m (fun x => k))
  (at level 10, x name, m at level 100, k at level 200) : cv_scope.
Notation "'exec' m 'in' k" := (bind m (fun _ => k))
  (at level 10, m at level 100, k at level 200) : cv_scope.

(** ** Bytes *)

Definition uchar := byte.

Definition uchar_to_Z (b : uchar) : Z := Z.of_N (Byte.to_N b).

(** Conversion of an integer value to [unsigned char]. *)
Definition uchar_of_Z (z : Z) : uchar :=
  match Byte.of_N (Z.to_N (z `mod` 256)) with
  | Some b => b
  | None => x00
  end.

(** ** Loops

    [for (int i = lo; i < hi; ++i) body], where the body may [break].  The
    bound [hi] does not change while the loop runs, so the number of
    iterations left is known on entry. *)

Inductive ctl (S : Type) : Type :=
  | Continue (s : S)
  | Break (s : S).
Arguments Continue {S} s.
Arguments Break {S} s.

Fixpoint for_n {S} (n : nat) (i : Z) (body : Z -> S -> M (ctl S)) (s : S) : M S :=
  match n with
  | O => ret s
  | Datatypes.S n' =>
      bind (body i s) (fun r =>
        match r with
        | Continue s' => for_n n' (i + 1) body s'
        | Break s' => ret s'
        end)
  end.

Definition for_loop {S} (lo hi : Z) (body : Z -> S -> M (ctl S)) (s : S) : M S :=
  for_n (Z.to_nat (hi - lo)) lo body s.

(** ** cv::Mat *)

Module Cv.

(** Element types, as OpenCV encodes them: depth in the low three bits,
    channels minus one above them. *)
Definition CV_8U : Z := 0.
Definition CV_MAKETYPE (depth cn : Z) : Z := Z.land depth 7 + Z.shiftl (cn - 1) 3.
Definition CV_8UC3 : Z := Eval cbv in CV_MAKETYPE CV_8U 3.
Definition CV_8UC4 : Z := Eval cbv in CV_MAKETYPE CV_8U 4.

Definition CV_MAT_CN (t : Z) : Z := Z.shiftr (Z.land t 4088) 3 + 1.
Definition CV_MAT_DEPTH (t : Z) : Z := Z.land t 7.

(** Bytes of one channel value: 8U 8S 16U 16S 32S 32F 64F 16F. *)
Definition CV_ELEM_SIZE1 (t : Z) : Z :=
  match CV_MAT_DEPTH t with
  | 0 | 1 => 1
  | 2 | 3 | 7 => 2
  | 4 | 5 => 4
  | _ => 8
  end.
Definition CV_ELEM_SIZE (t : Z) : Z := CV_MAT_CN t * CV_ELEM_SIZE1 t.

Record Mat : Type := mkMat {
  rows : Z;
  cols : Z;
  type : Z;
  step : Z;               (* bytes from one row to the next *)
  data : list uchar       (* the bytes from the data pointer onwards *)
}.

Definition channels (m : Mat) : Z := CV_MAT_CN (type m).
Definition elemSize (m : Mat) : Z := CV_ELEM_SIZE (type m).

(** [m.data[i]] read and written. *)
Definition load (d : list uchar) (i : Z) : option uchar :=
  if decide (0 <= i) then d !! Z.to_nat i else None.

Definition store (d : list uchar) (i : Z) (b : uchar) : option (list uchar) :=
  if decide (0 <= i < Z.of_nat (length d))
  then Some (<[Z.to_nat i := b]> d) else None.

Definition get (m : Mat) (i : Z) : option uchar := load (data m) i.

Definition set (m : Mat) (i : Z) (b : uchar) : option Mat :=
  d ← store (data m) i b;
  Some (mkMat (rows m) (cols m) (type m) (step m) d).

Definition Vec3b : Type := (uchar * uchar * uchar)%type.
Definition Vec4b : Type := (uchar * uchar * uchar * uchar)%type.

(** [m.at<cv::Vec3b>(i, j)]: three bytes at [data + i * step + j * 3],
    whatever the type of [m]. *)
Definition at3 (m : Mat) (i j : Z) : option Vec3b :=
  let a := i * step m + j * 3 in
  b0 ← get m a; b1 ← get m (a + 1); b2 ← get m (a + 2);
  Some (b0, b1, b2).

(** [m.at<cv::Vec4b>(i, j)] read. *)
Definition at4 (m : Mat) (i j : Z) : option Vec4b :=
  let a := i * step m + j * 4 in
  b0 ← get m a; b1 ← get m (a + 1); b2 ← get m (a + 2); b3 ← get m (a + 3);
  Some (b0, b1, b2, b3).

(** [m.at<cv::Vec4b>(i, j) = v]. *)
Definition set4 (m : Mat) (i j : Z) (v : Vec4b) : option Mat :=
  let a := i * step m + j * 4 in
  let '(b0, b1, b2, b3) := v in
  m ← set m a b0; m ← set m (a + 1) b1; m ← set m (a + 2) b2;
  set m (a + 3) b3.

(** [m.create(r, c, t)]: nothing happens when [m] already has that shape
    and type; otherwise [m] becomes a new continuous matrix.  The bytes
    of a new matrix are unspecified; they are zero here. *)
Definition create (r c t : Z) (m : Mat) : Mat :=
  if (rows m =? r) && (cols m =? c) && (type m =? t)
     && negb (Nat.eqb (length (data m)) 0)
  then m
  else mkMat r c t (c * CV_ELEM_SIZE t)
             (replicate (Z.to_nat (r * c * CV_ELEM_SIZE t)) x00).

(** [memcpy] of [n] bytes from [src + s] to [dst + d]. *)
Fixpoint memcpy (n : nat) (src : list uchar) (s : Z)
                (dst : list uchar) (d : Z) : option (list uchar) :=
  match n with
  | O => Some dst
  | S n' =>
      b ← load src s;
      dst' ← store dst d b;
      memcpy n' src (s + 1) dst' (d + 1)
  end.

Fixpoint copy_rows (n : nat) (y : Z) (src : Mat) (dst : list uchar)
                   (dstep : Z) : option (list uchar) :=
  match n with
  | O => Some dst
  | S n' =>
      dst' ← memcpy (Z.to_nat (cols src * elemSize src))
                    (data src) (y * step src) dst (y * dstep);
      copy_rows n' (y + 1) src dst' dstep
  end.

(** [src.copyTo(dst)]: [dst] is created with the shape and type of [src]
    and receives its rows one by one. *)
Definition copyTo (src dst : Mat) : option Mat :=
  let dst := create (rows src) (cols src) (type src) dst in
  d ← copy_rows (Z.to_nat (rows src)) 0 src (data dst) (step dst);
  Some (mkMat (rows dst) (cols dst) (type dst) (step dst) d).

(** A matrix as OpenCV hands it out: the dimensions are [int]s, a row fits
    in [step], and the bytes of every row exist.  The bytes of one row are
    counted by an [int] as well: the source indexes a row with the [int]
    product [x * channels()]. *)
Record wf (m : Mat) : Prop := mkWf {
  wf_rows : 0 <= rows m <= Int32.max_int;
  wf_cols : 0 <= cols m <= Int32.max_int;
  wf_row_bytes : cols m * elemSize m <= Int32.max_int;
  wf_step : cols m * elemSize m <= step m;
  wf_data : 0 < rows m ->
    (rows m - 1) * step m + cols m * elemSize m <= Z.of_nat (length (data m))
}.

End Cv.
Import Cv.

(** Two matrices with the same header and as many bytes. *)
Definition same_header (m m' : Mat) : Prop :=
  rows m' = rows m /\ cols m' = cols m /\ type m' = type m
  /\ step m' = step m /\ length (data m') = length (data m).

(** The bytes of the pixels of a matrix of element size [es] lie inside
    its data, and different pixels have different bytes. *)
Definition fits (es : Z) (m : Mat) : Prop :=
  0 < es /\ cols m * es <= step m
  /\ (0 < rows m ->
      (rows m - 1) * step m + cols m * es <= Z.of_nat (length (data m))).

(** [cv::Point2i] *)
Record Point2i : Type := mkPoint { pt_x : Z; pt_y : Z }.

Local Open Scope cv_scope.

(** ** Doubles

    [double] is IEEE 754 binary64 with round to nearest even, as the
    reference operations of [SpecFloat] compute it. *)

Module Double.

Definition prec : Z := 53.
Definition emax : Z := 1024.

Definition of_Z (z : Z) : spec_float := binary_normalize prec emax z 0 false.
Definition zero : spec_float := S754_zero false.
Definition one : spec_float := of_Z 1.

Definition add := SFadd prec emax.
Definition sub := SFsub prec emax.
Definition mul := SFmul prec emax.
Definition div := SFdiv prec emax.
Definition ltb := SFltb.

(** Conversion to an integer type discards the fraction. *)
Definition trunc (f : spec_float) : Z :=
  match f with
  | S754_finite s m e =>
      let a := if 0 <=? e then Z.pos m * 2 ^ e else Z.pos m / 2 ^ (- e) in
      if s then - a else a
  | _ => 0
  end.

End Double.

(** ** The lines printed to [std::cout] *)

Definition msg_invalid_component (bgr_component : Z) : string :=
  "!!! getComponent: " +:+ pretty bgr_component +:+ " is not a valid component".

Definition msg_component_range : string :=
  "!!! displacementMapFilter: componentX and componentY values must be in range [0,2]".

Definition msg_format : string :=
  "!!! displacementMapFilter: map and target need to have the same dimensions, and target type must be CV_8UC4".

(** ** getComponent *)

Definition getComponent (bgr_pixel : Vec3b) (bgr_component : Z) : M uchar :=
  let '(b, g, r) := bgr_pixel in
  match bgr_component with
  | 0 => ret b
  | 1 => ret g
  | 2 => ret r
  | _ =>
      exec print (msg_invalid_component bgr_component) in
      ret x00
  end.

(** ** displacementMapFilter *)

(** [(component - 128) * scale / 256], in [int] arithmetic. *)
Definition displacement (component : uchar) (scale : Z) : Z :=
  Int32.div (Int32.mul (Int32.sub (uchar_to_Z component) 128) scale) 256.

(** [if (d < 0) d = 0; if (d >= dim) d = dim;] *)
Definition clamp (d dim : Z) : Z :=
  let d := if d <? 0 then 0 else d in
  if d >=? dim then dim else d.

Definition displacementMapFilter (map target : Mat)
    (componentX componentY scaleX scaleY : Z) (output : Mat) : M Mat :=
  if (componentX <? 0) || (componentX >? 2)
     || (componentY <? 0) || (componentY >? 2)
  then
    exec print msg_component_range in
    ret output
  else if negb (cols target =? cols map) || negb (rows target =? rows map)
          || negb (type target =? CV_8UC4)
  then
    exec print msg_format in
    ret output
  else
    let output := create (rows target) (cols target) (type target) output in
    for_loop 0 (rows output) (fun x output =>
      let* output :=
        for_loop 0 (cols output) (fun y output =>
          let* px := lift (at3 map x y) in
          let* cx := getComponent px componentX in
          let dx := clamp (Int32.add x (displacement cx scaleX)) (rows output) in
          let* py := lift (at3 map x y) in
          let* cy := getComponent py componentY in
          let dy := clamp (Int32.add y (displacement cy scaleY)) (cols output) in
          let* v := lift (at4 target dx dy) in
          let* output := lift (set4 output x y v) in
          ret (Continue output)) output in
      ret (Continue output)) output.

(** ** overlayImage *)

(** The body of the two scans: the opacity of the foreground pixel
    [(fX, fY)] and the blend of it into the output pixel [(x, y)]. *)
Definition blend_pixel (background foreground : Mat) (x y fX fY : Z)
    (output : Mat) : M Mat :=
  let* alpha :=
    lift (get foreground
            (fY * step foreground + Int32.mul fX (channels foreground) + 3)) in
  let opacity := Double.div (Double.of_Z (uchar_to_Z alpha)) (Double.of_Z 255) in
  for_loop 0 (channels output) (fun c output =>
    if negb (Double.ltb Double.zero opacity) then ret (Break output) else
    let* foregroundPx :=
      lift (get foreground
              (fY * step foreground + Int32.mul fX (channels foreground) + c)) in
    let* backgroundPx :=
      lift (get background
              (y * step background + Int32.mul x (channels background) + c)) in
    let v :=
      Double.add
        (Double.mul (Double.of_Z (uchar_to_Z backgroundPx))
                    (Double.sub (Double.of_Z 1) opacity))
        (Double.mul (Double.of_Z (uchar_to_Z foregroundPx)) opacity) in
    let* output :=
      lift (set output
              (y * step output + Int32.mul (channels output) x + c)
              (uchar_of_Z (Double.trunc v))) in
    ret (Continue output)) output.

Definition overlayImage (background foreground output : Mat)
    (location : Point2i) : M Mat :=
  let* output := lift (copyTo background output) in
  for_loop (Z.max (pt_y location) 0) (rows background) (fun y output =>
    let fY := Int32.sub y (pt_y location) in
    if fY >=? rows foreground then ret (Break output) else
    let* output :=
      for_loop (Z.max (pt_x location) 0) (cols background) (fun x output =>
        let fX := Int32.sub x (pt_x location) in
        if fX >=? cols foreground then ret (Break output) else
        let* output := blend_pixel background foreground x y fX fY output in
        ret (Continue output)) output in
    ret (Continue output)) output.

(** The scan the specification compares with: every background coordinate
    is visited, and a pixel is blended when its foreground coordinate
    [(x - location.x, y - location.y)] lies inside the foreground. *)
Definition overlayImage_full_scan (background foreground output : Mat)
    (location : Point2i) : M Mat :=
  let* output := lift (copyTo background output) in
  for_loop 0 (rows background) (fun y output =>
    let fY := y - pt_y location in
    let* output :=
      for_loop 0 (cols background) (fun x output =>
        let fX := x - pt_x location in
        if (0 <=? fX) && (fX <? cols foreground)
           && (0 <=? fY) && (fY <? rows foreground)
        then
          let* output := blend_pixel background foreground x y fX fY output in
          ret (Continue output)
        else ret (Continue output)) output in
    ret (Continue output)) output.

(** ** Sample images *)

Module Sample.

(** A matrix header with no data, as [cv::Mat output;] declares. *)
Definition empty : Mat := mkMat 0 0 0 0 [].

(** A 1x1 map whose only pixel is pure red, and a 1x1 target. *)
Definition map_1x1 : Mat := mkMat 1 1 CV_8UC3 3 [x00; x00; xff].
Definition target_1x1 : Mat := mkMat 1 1 CV_8UC4 4 [x01; x02; x03; x04].

(** A 2x2 map with rows of [step] 8 (two bytes of padding a row) and a
    2x2 target with sixteen different bytes. *)
Definition map_2x2 : Mat :=
  mkMat 2 2 CV_8UC3 8
    [x10; x20; x30;  x40; x50; x60;  x00; x00;
     x70; x80; x90;  xa0; xb0; xc0;  x00; x00].
Definition target_2x2 : Mat :=
  mkMat 2 2 CV_8UC4 8
    [x01; x02; x03; x04;  x05; x06; x07; x08;
     x09; x0a; x0b; x0c;  x0d; x0e; x0f; x10].

(** A 2x3 background whose rows are padded to 12 bytes, and 2x2
    foregrounds that are opaque, clear and half transparent. *)
Definition background_2x3 : Mat :=
  mkMat 2 3 CV_8UC3 12
    [x11; x12; x13;  x14; x15; x16;  x17; x18; x19;  x00; x00; x00;
     x21; x22; x23;  x24; x25; x26;  x27; x28; x29;  x00; x00; x00].
Definition foreground_2x2 (alpha : uchar) : Mat :=
  mkMat 2 2 CV_8UC4 8
    [xa1; xa2; xa3; alpha;  xa4; xa5; xa6; alpha;
     xb1; xb2; xb3; alpha;  xb4; xb5; xb6; alpha].

(** A 4x4 map whose red component is 128 everywhere, and a 4x4 target
    with a different colour in every cell. *)
Definition map_4x4 : Mat :=
  mkMat 4 4 CV_8UC3 12
    (mjoin (replicate 16 [x33; x44; x80])).
Definition target_4x4 : Mat :=
  mkMat 4 4 CV_8UC4 16
    (mjoin ((fun i => [uchar_of_Z i; uchar_of_Z (i + 16);
                       uchar_of_Z (i + 32); xff]) <$> seqZ 0 16)).

End Sample.

(** ** What the filter and the compositor are expected to compute *)

(** The component [getComponent] selects, without its output. *)
Definition component_of (p : Vec3b) (component : Z) : uchar :=
  match snd (getComponent p component) with
  | Some c => c
  | None => x00
  end.

(** The source index [displacementMapFilter] computes on one axis, for the
    output index [i], from the map pixel [p]. *)
Definition source_index (p : Vec3b) (component scale i dim : Z) : Z :=
  clamp (Int32.add i (displacement (component_of p component) scale)) dim.

(** The target pixel that belongs at the output pixel [(x, y)]. *)
Definition remapped (map target : Mat) (componentX componentY scaleX scaleY : Z)
    (x y : Z) : option Vec4b :=
  p ← at3 map x y;
  at4 target (source_index p componentX scaleX x (rows target))
             (source_index p componentY scaleY y (cols target)).

(** The opacity [overlayImage] derives from an alpha byte, and the byte it
    stores for a background byte and a foreground byte under that alpha:
    the background byte itself when the opacity is not positive. *)
Definition opacity (alpha : uchar) : spec_float :=
  Double.div (Double.of_Z (uchar_to_Z alpha)) (Double.of_Z 255).

Definition blend (alpha backgroundPx foregroundPx : uchar) : uchar :=
  if Double.ltb Double.zero (opacity alpha) then
    uchar_of_Z (Double.trunc
      (Double.add
         (Double.mul (Double.of_Z (uchar_to_Z backgroundPx))
                     (Double.sub (Double.of_Z 1) (opacity alpha)))
         (Double.mul (Double.of_Z (uchar_to_Z foregroundPx)) (opacity alpha))))
  else backgroundPx.

(** The foreground pixel under the background pixel [(x, y)], if any. *)
Definition covered (foreground : Mat) (location : Point2i) (x y : Z) : Prop :=
  0 <= x - pt_x location < cols foreground
  /\ 0 <= y - pt_y location < rows foreground.

(** ** main

    The collaborators of [main] are parameters: what [cv::imread] returns
    for the two paths (a matrix without data when the file cannot be read),
    and the key [cv::waitKey] returns at its n-th call.  [cv::imshow]
    appends its frame to the list of frames shown. *)

(** [cv::Mat m;] *)
Definition Mat_new : Mat := mkMat 0 0 0 0 [].

(** [m.empty()] *)
Definition is_empty (m : Mat) : bool :=
  Nat.eqb (length (data m)) 0 || (rows m * cols m =? 0).

Record Rect : Type := mkRect { r_x : Z; r_y : Z; r_width : Z; r_height : Z }.

(** [m(roi)]: a view of the same bytes that starts at the first pixel of
    the rectangle and keeps the [step] of [m].  OpenCV asserts that the
    rectangle lies inside [m]; a failed assertion ends the program, and is
    [None] like an undefined read. *)
Definition crop (m : Mat) (roi : Rect) : option Mat :=
  if (0 <=? r_x roi) && (0 <=? r_width roi)
     && (r_x roi + r_width roi <=? cols m)
     && (0 <=? r_y roi) && (0 <=? r_height roi)
     && (r_y roi + r_height roi <=? rows m)
  then
    if (r_height roi <=? 0) || (r_width roi <=? 0)
    then Some (mkMat 0 0 (type m) (step m) [])
    else Some (mkMat (r_height roi) (r_width roi) (type m) (step m)
                 (drop (Z.to_nat (r_y roi * step m + r_x roi * elemSize m))
                       (data m)))
  else None.

(** Conversion of the [int] that [cv::waitKey] returns to [char]. *)
Definition to_char (z : Z) : Z := (z + 128) `mod` 256 - 128.

Record World : Type := mkWorld {
  imread_map : Mat;
  imread_target : Mat;
  waitKey : nat -> Z
}.

Definition msg_imread_1 : string := "!!! Failed imread() #1".
Definition msg_imread_2 : string := "!!! Failed imread() #2".
Definition msg_no_alpha : string :=
  "!!! A PNG image with transparent layer is required".
Definition msg_too_large : string :=
  "!!! Target needs to have smaller dimensions than map".

Definition msg_map_size (map : Mat) : string :=
  "map size: " +:+ pretty (cols map) +:+ "x" +:+ pretty (rows map)
  +:+ " channels:" +:+ pretty (channels map)
  +:+ " type:" +:+ pretty (type map).

Definition msg_target_size (target : Mat) : string :=
  "target size: " +:+ pretty (cols target) +:+ "x" +:+ pretty (rows target)
  +:+ "channels: " +:+ pretty (channels target)
  +:+ " type: " +:+ pretty (type target).

(** How [main] ends: with an exit code after showing some frames, or, in
    the model only, because the loop was cut off. *)
Inductive outcome : Type :=
  | Exit (code : Z) (shown : list Mat)
  | OutOfFuel.

(** One frame: the map cropped at [offset_x], the target displaced by it,
    and the result laid over the crop. *)
Definition render_frame (map target : Mat) (offset_x : Z) : M Mat :=
  let roi := mkRect offset_x 0 (cols target) (rows target) in
  let* cropped_map := lift (crop map roi) in
  let* output := displacementMapFilter cropped_map target 2 2 20 20 Mat_new in
  overlayImage cropped_map output Mat_new (mkPoint 0 0).

(** The [while (1)] loop of [main], at most [fuel] times round. *)
Fixpoint movie (w : World) (map target : Mat) (fuel n : nat) (offset_x : Z)
    (shown : list Mat) : M outcome :=
  match fuel with
  | O => ret OutOfFuel
  | S fuel' =>
      let* frame := render_frame map target offset_x in
      let shown := shown ++ [frame] in
      let key := to_char (waitKey w n) in
      if key =? 27 then ret (Exit 0 shown) else
      let offset_x := Int32.add offset_x 3 in
      if Int32.sub (cols map) (cols target) <=? offset_x
      then ret (Exit 0 shown)
      else movie w map target fuel' (S n) offset_x shown
  end.

Definition main (w : World) : M outcome :=
  let map := imread_map w in
  if is_empty map then
    exec print msg_imread_1 in ret (Exit (-1) [])
  else
  exec print (msg_map_size map) in
  let target := imread_target w in
  if is_empty target then
    exec print msg_imread_2 in ret (Exit (-1) [])
  else
  exec print (msg_target_size target) in
  if negb (channels target =? 4) then
    exec print msg_no_alpha in ret (Exit (-1) [])
  else
  if (cols target >? cols map) || (rows target >? rows map) then
    exec print msg_too_large in ret (Exit (-1) [])
  else
    movie w map target (Z.to_nat (cols map) + 2) 0 0 [].

(** Channel [k] of a four-byte pixel. *)
Definition channel4 (v : Vec4b) (k : Z) : uchar :=
  let '(b0, b1, b2, b3) := v in
  match k with 0 => b0 | 1 => b1 | 2 => b2 | _ => b3 end.

(** The number of frames [main] shows when no key stops it: one for
    every three columns the map is wider than the target, and at least
    one. *)
Definition frames_due (map target : Mat) : Z :=
  Z.max 1 ((cols map - cols target + 2) / 3).

(** ** More sample images *)

Module Sample2.

(** A 2x2 map that displaces by one pixel toward the other row (red) and
    toward the other column (green) under scale 20: 141 displaces by 1 and
    115 by -1. *)
Definition swap_map_2x2 : Mat :=
  mkMat 2 2 CV_8UC3 6
    [x00; x8d; x8d;  x00; x73; x8d;
     x00; x8d; x73;  x00; x73; x73].

(** A 2x2 map that leaves every pixel in place except the first, whose
    green component 154 displaces its column by 2 under scale 20. *)
Definition push_right_map_2x2 : Mat :=
  mkMat 2 2 CV_8UC3 6
    [x00; x9a; x80;  x00; x80; x80;
     x00; x80; x80;  x00; x80; x80].

(** A 2x6 map whose red component is 128 everywhere. *)
Definition map_2x6 : Mat :=
  mkMat 2 6 CV_8UC3 18 (mjoin (replicate 12 [x33; x44; x80])).

(** A 2x2 target with four channels of sixteen bits. *)
Definition target16_2x2 : Mat :=
  mkMat 2 2 (CV_MAKETYPE 2 4) 16 (replicate 32 x7f).

(** ESC at the second call of [cv::waitKey], no key before or after. *)
Definition esc_at_second (n : nat) : Z :=
  match n with 1%nat => 27 | _ => -1 end.

End Sample2.

(** * Properties *)

(** ** Machine integers *)

Lemma wrap32_id z : Int32.in_range z -> Int32.wrap32 z = z.
Proof.
  unfold Int32.in_range, Int32.min_int, Int32.max_int, Int32.wrap32.
  intros Hz. rewrite Z.mod_small; lia.
Qed.

Lemma uchar_to_Z_range (b : uchar) : 0 <= uchar_to_Z b <= 255.
Proof.
  unfold uchar_to_Z. pose proof (Byte.to_N_bounded b) as Hb. lia.
Qed.

Lemma uchar_of_to_Z (b : uchar) : uchar_of_Z (uchar_to_Z b) = b.
Proof.
  unfold uchar_of_Z. pose proof (uchar_to_Z_range b) as Hb.
  rewrite Z.mod_small by lia. unfold uchar_to_Z.
  rewrite N2Z.id, Byte.of_to_N. reflexivity.
Qed.

Lemma quot_small a : Z.abs a < 256 -> a ÷ 256 = 0.
Proof.
  intros Ha. apply Z.quot_small_iff; [lia|].
  rewrite (Z.abs_eq 256) by lia. exact Ha.
Qed.

Lemma displacement_small (c : uchar) (s : Z) :
  Z.abs (uchar_to_Z c - 128) * Z.abs s < 256 -> displacement c s = 0.
Proof.
  intros Hs. pose proof (uchar_to_Z_range c) as Hc.
  unfold displacement, Int32.div, Int32.mul, Int32.sub.
  rewrite (wrap32_id (uchar_to_Z c - 128))
    by (unfold Int32.in_range, Int32.min_int, Int32.max_int; lia).
  rewrite <- Z.abs_mul in Hs.
  rewrite (wrap32_id (_ * s))
    by (unfold Int32.in_range, Int32.min_int, Int32.max_int; lia).
  rewrite quot_small by exact Hs. reflexivity.
Qed.

Lemma displacement_zero_scale (c : uchar) : displacement c 0 = 0.
Proof. apply displacement_small. lia. Qed.

Lemma clamp_inside x dim : 0 <= x < dim -> clamp x dim = x.
Proof.
  intros Hx. unfold clamp.
  destruct (Z.ltb_spec x 0); [lia|].
  destruct (Z.geb_spec x dim); [lia|reflexivity].
Qed.

Lemma source_coordinate_fixed x dim (c : uchar) (s : Z) :
  displacement c s = 0 -> 0 <= x < dim -> dim <= Int32.max_int ->
  clamp (Int32.add x (displacement c s)) dim = x.
Proof.
  intros Hd Hx Hdim. rewrite Hd. unfold Int32.add.
  rewrite Z.add_0_r, wrap32_id
    by (unfold Int32.in_range, Int32.min_int, Int32.max_int in *; lia).
  apply clamp_inside. exact Hx.
Qed.

(** ** Loops *)

Lemma bind_ret_l {A B} (a : A) (f : A -> M B) : bind (ret a) f = f a.
Proof. unfold bind, ret. destruct (f a) as [l r]. reflexivity. Qed.

Lemma bind_lift_Some {A B} (a : A) (f : A -> M B) : bind (lift (Some a)) f = f a.
Proof. apply bind_ret_l. Qed.

Lemma fst_bind_nil {A B} (m : M A) (f : A -> M B) :
  fst m = [] -> (forall a, fst (f a) = []) -> fst (bind m f) = [].
Proof.
  destruct m as [l [a|]]; simpl; intros -> Hf; [|reflexivity].
  specialize (Hf a). destruct (f a) as [l' r]. exact Hf.
Qed.

Section Loops.
Context {S : Type}.
Implicit Types (body : Z -> S -> M (ctl S)) (s t : S) (n m : nat).

(** A loop whose body neither prints, fails nor breaks while it keeps an
    invariant ends with the invariant. *)
Lemma for_n_inv (I : Z -> S -> Prop) n i body s :
  I i s ->
  (forall j t, i <= j < i + Z.of_nat n -> I j t ->
     exists t', body j t = ret (Continue t') /\ I (j + 1) t') ->
  exists s', for_n n i body s = ret s' /\ I (i + Z.of_nat n) s'.
Proof.
  revert i s. induction n as [|n IH]; intros i s Hi Hbody.
  - exists s. rewrite Z.add_0_r. split; [reflexivity|exact Hi].
  - destruct (Hbody i s ltac:(lia) Hi) as (t & Ht & Hit).
    destruct (IH (i + 1) t Hit) as (s' & Hs' & His').
    { intros j u Hj. apply Hbody. lia. }
    exists s'. cbn [for_n]. rewrite Ht, bind_ret_l. split; [exact Hs'|].
    replace (i + Z.of_nat (Datatypes.S n)) with (i + 1 + Z.of_nat n) by lia.
    exact His'.
Qed.

Lemma for_loop_inv (I : Z -> S -> Prop) lo hi body s :
  lo <= hi -> I lo s ->
  (forall j t, lo <= j < hi -> I j t ->
     exists t', body j t = ret (Continue t') /\ I (j + 1) t') ->
  exists s', for_loop lo hi body s = ret s' /\ I hi s'.
Proof.
  intros Hle Hi Hbody. unfold for_loop.
  destruct (for_n_inv I (Z.to_nat (hi - lo)) lo body s Hi) as (s' & Hs' & His').
  { intros j t Hj. apply Hbody. lia. }
  exists s'. split; [exact Hs'|].
  replace (lo + Z.of_nat (Z.to_nat (hi - lo))) with hi in His' by lia.
  exact His'.
Qed.

(** A loop prints nothing when its body prints nothing. *)
Lemma for_n_silent n i body s :
  (forall j t, fst (body j t) = []) -> fst (for_n n i body s) = [].
Proof.
  intros Hbody. revert i s. induction n as [|n IH]; intros i s; [reflexivity|].
  cbn [for_n]. apply fst_bind_nil; [apply Hbody|].
  intros [t|t]; [apply IH|reflexivity].
Qed.

Lemma for_n_noop n i body s :
  (forall j t, i <= j < i + Z.of_nat n -> body j t = ret (Continue t)) ->
  for_n n i body s = ret s.
Proof.
  revert i. induction n as [|n IH]; intros i Hbody; [reflexivity|].
  cbn [for_n]. rewrite Hbody, bind_ret_l by lia. apply IH.
  intros j t Hj. apply Hbody. lia.
Qed.

Lemma for_n_skip n m i body s :
  (forall j t, i <= j < i + Z.of_nat n -> body j t = ret (Continue t)) ->
  for_n (n + m) i body s = for_n m (i + Z.of_nat n) body s.
Proof.
  revert i. induction n as [|n IH]; intros i Hbody.
  - rewrite Z.add_0_r. reflexivity.
  - cbn [Nat.add for_n]. rewrite Hbody, bind_ret_l by lia.
    rewrite IH by (intros j t Hj; apply Hbody; lia).
    f_equal. lia.
Qed.

(** Two bodies that agree on the first [n] indices, after which one
    breaks and the other does nothing, give the same loop. *)
Lemma for_n_break_noop n m i body body' s :
  (forall j t, i <= j < i + Z.of_nat n -> body j t = body' j t) ->
  (forall t, (0 < m)%nat -> body (i + Z.of_nat n) t = ret (Break t)) ->
  (forall j t, i + Z.of_nat n <= j < i + Z.of_nat n + Z.of_nat m ->
     body' j t = ret (Continue t)) ->
  for_n (n + m) i body s = for_n (n + m) i body' s.
Proof.
  revert i s. induction n as [|n IH]; intros i s Hsame Hbreak Hnoop.
  - cbn [Nat.add]. rewrite Z.add_0_r in *.
    rewrite (for_n_noop m i body') by exact Hnoop.
    destruct m as [|m]; [reflexivity|].
    cbn [for_n]. rewrite Hbreak, bind_ret_l by lia. reflexivity.
  - cbn [Nat.add for_n]. rewrite <- Hsame by lia.
    destruct (body i s) as [l [[t|t]|]]; cbn [bind]; try reflexivity.
    rewrite (IH (i + 1) t); [reflexivity| | |].
    + intros j u Hj. apply Hsame. lia.
    + intros u Hm. replace (i + 1 + Z.of_nat n) with (i + Z.of_nat (Datatypes.S n)) by lia.
      apply Hbreak. exact Hm.
    + intros j u Hj. apply Hnoop. lia.
Qed.
End Loops.

(** ** getComponent *)

Lemma getComponent_valid (p : Vec3b) (c : Z) :
  0 <= c <= 2 -> exists v, getComponent p c = ret v.
Proof.
  intros Hc. destruct p as [[b g] r].
  assert (c = 0 \/ c = 1 \/ c = 2) as [ -> | [ -> | -> ] ] by lia; eexists; reflexivity.
Qed.

Lemma getComponent_silent (p : Vec3b) (c : Z) :
  0 <= c <= 2 -> fst (getComponent p c) = [].
Proof. intros Hc. destruct (getComponent_valid p c Hc) as [v ->]. reflexivity. Qed.

(** C6: a selector outside {0, 1, 2} makes [getComponent] print its error
    line and return 0, the call still returning to its caller; the
    selectors 0, 1 and 2 return the blue, green and red component and print
    nothing. *)
Theorem getComponent_contract (b g r : uchar) (c : Z) :
  (c < 0 \/ 2 < c ->
     getComponent (b, g, r) c = ([msg_invalid_component c], Some x00))
  /\ getComponent (b, g, r) 0 = ([], Some b)
  /\ getComponent (b, g, r) 1 = ([], Some g)
  /\ getComponent (b, g, r) 2 = ([], Some r).
Proof.
  repeat split. intros Hc.
  destruct c as [|[q|q|]|q]; try lia; try reflexivity.
  destruct q; try lia; reflexivity.
Qed.

Lemma getComponent_contract_witness :
  getComponent (x0a, x14, x1e) 7
    = (["!!! getComponent: 7 is not a valid component"], Some x00)
  /\ getComponent (x0a, x14, x1e) (-1)
    = (["!!! getComponent: -1 is not a valid component"], Some x00).
Proof.
  split.
  - apply (proj1 (getComponent_contract x0a x14 x1e 7)). lia.
  - apply (proj1 (getComponent_contract x0a x14 x1e (-1))). lia.
Defined.

(** ** The displacement formula *)

(** C9: the division by 256 leaves a dead zone.  A component [c] and a
    scale [s] with |c - 128| * |s| < 256 displace by exactly 0, so the
    source coordinate on that axis is the output coordinate itself; with
    scale 20 this holds of every component from 116 to 140. *)
Theorem displacement_dead_zone :
  (forall (c : uchar) (s : Z),
     Z.abs (uchar_to_Z c - 128) * Z.abs s < 256 ->
     displacement c s = 0
     /\ forall x dim, 0 <= x < dim -> dim <= Int32.max_int ->
          clamp (Int32.add x (displacement c s)) dim = x)
  /\ (forall c : uchar, 116 <= uchar_to_Z c <= 140 -> displacement c 20 = 0).
Proof.
  split.
  - intros c s Hs. pose proof (displacement_small c s Hs) as Hd.
    split; [exact Hd|]. intros x dim Hx Hdim.
    apply source_coordinate_fixed; assumption.
  - intros c Hc. apply displacement_small. lia.
Qed.

Lemma displacement_dead_zone_witness :
  (displacement x8a 25 = 0
   /\ clamp (Int32.add 3 (displacement x8a 25)) 4 = 3)
  /\ displacement x74 20 = 0 /\ displacement x8c 20 = 0.
Proof.
  destruct displacement_dead_zone as [Hgen H20].
  split; [|split].
  - destruct (Hgen x8a 25 ltac:(vm_compute; reflexivity)) as [H0 Hx].
    split; [exact H0|]. apply Hx; [lia|vm_compute; discriminate].
  - apply H20. vm_compute. split; discriminate.
  - apply H20. vm_compute. split; discriminate.
Defined.

(** C1: the ceiling of the clamp is the dimension, not the last index.
    On a 1x1 map whose red component is 255, with scale 20, the source row
    and the source column are both 1; no target pixel is there, and the
    read of it is outside the target. *)
Theorem clamp_ceiling_is_dimension :
  clamp (Int32.add 0 (displacement xff 20)) (rows Sample.target_1x1) = 1
  /\ clamp (Int32.add 0 (displacement xff 20)) (cols Sample.target_1x1) = 1
  /\ at4 Sample.target_1x1 1 1 = None
  /\ displacementMapFilter Sample.map_1x1 Sample.target_1x1 2 2 20 20 Sample.empty
     = ([], None).
Proof. repeat split; vm_compute; reflexivity. Qed.

(** ** displacementMapFilter: the guards *)

(** C5: a component outside {0, 1, 2}, a map and a target of different
    dimensions, or a target whose type is not CV_8UC4 make
    [displacementMapFilter] print one error line and return with [output]
    as it was. *)
Theorem displacementMapFilter_rejects (map target : Mat)
    (componentX componentY scaleX scaleY : Z) (output : Mat) :
  (componentX < 0 \/ 2 < componentX \/ componentY < 0 \/ 2 < componentY)
  \/ cols target <> cols map \/ rows target <> rows map
  \/ type target <> CV_8UC4 ->
  exists line,
    (line = msg_component_range \/ line = msg_format)
    /\ displacementMapFilter map target componentX componentY scaleX scaleY output
       = ([line], Some output).
Proof.
  intros Hbad. unfold displacementMapFilter.
  destruct ((componentX <? 0) || (componentX >? 2)
            || (componentY <? 0) || (componentY >? 2)) eqn:Hc.
  { exists msg_component_range. split; [left|]; reflexivity. }
  destruct (negb (cols target =? cols map) || negb (rows target =? rows map)
            || negb (type target =? CV_8UC4)) eqn:Hf.
  { exists msg_format. split; [right|]; reflexivity. }
  exfalso.
  apply orb_false_iff in Hc as [Hc Hc4]. apply orb_false_iff in Hc as [Hc Hc3].
  apply orb_false_iff in Hc as [Hc1 Hc2].
  apply orb_false_iff in Hf as [Hf Hf3]. apply orb_false_iff in Hf as [Hf1 Hf2].
  apply negb_false_iff in Hf1, Hf2, Hf3. lia.
Qed.

Lemma displacementMapFilter_rejects_witness :
  exists line,
    (line = msg_component_range \/ line = msg_format)
    /\ displacementMapFilter Sample.map_1x1 Sample.target_2x2 0 1 20 20
         Sample.target_1x1
       = ([line], Some Sample.target_1x1).
Proof.
  apply displacementMapFilter_rejects.
  right. left. vm_compute. discriminate.
Defined.

Lemma fst_lift {A} (o : option A) : fst (lift o) = [].
Proof. reflexivity. Qed.

(** With both components valid the only line [displacementMapFilter] can
    print is its own format error. *)
Lemma displacementMapFilter_log (map target : Mat)
    (componentX componentY scaleX scaleY : Z) (output : Mat) :
  0 <= componentX <= 2 -> 0 <= componentY <= 2 ->
  fst (displacementMapFilter map target componentX componentY scaleX scaleY output) = []
  \/ fst (displacementMapFilter map target componentX componentY scaleX scaleY output)
     = [msg_format].
Proof.
  intros HcX HcY. unfold displacementMapFilter.
  destruct ((componentX <? 0) || (componentX >? 2)
            || (componentY <? 0) || (componentY >? 2)) eqn:Hc.
  { exfalso. repeat (apply orb_true_iff in Hc as [Hc|Hc]); lia. }
  destruct (negb (cols target =? cols map) || negb (rows target =? rows map)
            || negb (type target =? CV_8UC4)).
  { right. reflexivity. }
  left. unfold for_loop. apply for_n_silent. intros x o.
  apply fst_bind_nil; [|reflexivity].
  apply for_n_silent. intros y o'.
  apply fst_bind_nil; [apply fst_lift|]. intros px.
  apply fst_bind_nil; [apply getComponent_silent; exact HcX|]. intros cx.
  apply fst_bind_nil; [apply fst_lift|]. intros py.
  apply fst_bind_nil; [apply getComponent_silent; exact HcY|]. intros cy.
  apply fst_bind_nil; [apply fst_lift|]. intros v.
  apply fst_bind_nil; [apply fst_lift|]. reflexivity.
Qed.

Lemma msg_format_not_component (c : Z) : msg_format <> msg_invalid_component c.
Proof.
  unfold msg_format, msg_invalid_component. cbn [String.append]. discriminate.
Qed.

(** C10: in a call of [displacementMapFilter] whose components are both in
    [0, 2], every call of [getComponent] it makes, on any pixel, takes one
    of the three cases and prints nothing, and the error line of the
    default branch of [getComponent] is never printed, for any selector
    value. *)
Theorem getComponent_fallback_unreachable (map target : Mat)
    (componentX componentY scaleX scaleY : Z) (output : Mat) :
  0 <= componentX <= 2 -> 0 <= componentY <= 2 ->
  (forall p : Vec3b,
     fst (getComponent p componentX) = [] /\ fst (getComponent p componentY) = [])
  /\ forall c,
       ~ In (msg_invalid_component c)
            (fst (displacementMapFilter map target componentX componentY
                    scaleX scaleY output)).
Proof.
  intros HcX HcY. split.
  { intros p. split; apply getComponent_silent; assumption. }
  intros c.
  destruct (displacementMapFilter_log map target componentX componentY
              scaleX scaleY output HcX HcY) as [ -> | -> ].
  - intros [].
  - intros [H|[]]. exact (msg_format_not_component c H).
Qed.

Lemma getComponent_fallback_unreachable_witness :
  (forall p : Vec3b, fst (getComponent p 2) = [] /\ fst (getComponent p 1) = [])
  /\ forall c,
       ~ In (msg_invalid_component c)
            (fst (displacementMapFilter Sample.map_2x2 Sample.target_2x2 2 1
                    20 20 Sample.empty)).
Proof. apply getComponent_fallback_unreachable; lia. Defined.

(** ** Memory *)

Lemma load_Some (d : list uchar) (i : Z) :
  0 <= i < Z.of_nat (length d) -> exists b, load d i = Some b.
Proof.
  intros Hi. unfold load. rewrite decide_True by lia.
  destruct (lookup_lt_is_Some_2 d (Z.to_nat i)) as [b Hb]; [lia|].
  exists b. exact Hb.
Qed.

Lemma store_Some (d : list uchar) (i : Z) (b : uchar) :
  0 <= i < Z.of_nat (length d) -> store d i b = Some (<[Z.to_nat i := b]> d).
Proof. intros Hi. unfold store. rewrite decide_True by lia. reflexivity. Qed.

Lemma load_insert (d : list uchar) (i k : Z) (b : uchar) :
  0 <= i < Z.of_nat (length d) ->
  load (<[Z.to_nat i := b]> d) k = if decide (k = i) then Some b else load d k.
Proof.
  intros Hi. unfold load. destruct (decide (k = i)) as [ -> | Hne ].
  - rewrite decide_True by lia. apply list_lookup_insert_eq. lia.
  - destruct (decide (0 <= k)); [|reflexivity].
    apply list_lookup_insert_ne. lia.
Qed.

Lemma same_header_refl m : same_header m m.
Proof. repeat split. Qed.

Lemma same_header_trans m1 m2 m3 :
  same_header m1 m2 -> same_header m2 m3 -> same_header m1 m3.
Proof.
  unfold same_header. intros (?&?&?&?&?) (?&?&?&?&?).
  repeat split; congruence.
Qed.

Lemma set_spec (m : Mat) (i : Z) (b : uchar) :
  0 <= i < Z.of_nat (length (data m)) ->
  exists m', set m i b = Some m' /\ same_header m m'
    /\ forall k, get m' k = if decide (k = i) then Some b else get m k.
Proof.
  intros Hi. unfold set. rewrite store_Some by exact Hi.
  eexists. split; [reflexivity|]. split.
  - repeat split. cbn. apply length_insert.
  - intros k. unfold get. cbn. apply load_insert. exact Hi.
Qed.

Lemma set4_spec (m : Mat) (i j : Z) (b0 b1 b2 b3 : uchar) :
  let a := i * step m + j * 4 in
  0 <= a -> a + 3 < Z.of_nat (length (data m)) ->
  exists m', set4 m i j (b0, b1, b2, b3) = Some m' /\ same_header m m'
    /\ forall k, get m' k =
         if decide (k = a + 3) then Some b3
         else if decide (k = a + 2) then Some b2
         else if decide (k = a + 1) then Some b1
         else if decide (k = a) then Some b0
         else get m k.
Proof.
  intros a Ha0 Ha3. unfold set4. fold a.
  destruct (set_spec m a b0) as (m0 & E0 & H0 & G0); [lia|].
  pose proof H0 as (_ & _ & _ & S0 & L0).
  destruct (set_spec m0 (a + 1) b1) as (m1 & E1 & H1 & G1); [lia|].
  pose proof H1 as (_ & _ & _ & S1 & L1).
  destruct (set_spec m1 (a + 2) b2) as (m2 & E2 & H2 & G2); [lia|].
  pose proof H2 as (_ & _ & _ & S2 & L2).
  destruct (set_spec m2 (a + 3) b3) as (m3 & E3 & H3 & G3); [lia|].
  exists m3. rewrite E0. cbn [mbind option_bind]. rewrite E1. cbn [mbind option_bind].
  rewrite E2. cbn [mbind option_bind]. split; [exact E3|]. split.
  - eauto using same_header_trans.
  - intros k. rewrite G3, G2, G1, G0. reflexivity.
Qed.

Lemma addr_in_bounds es m i j k :
  fits es m -> 0 <= i < rows m -> 0 <= j < cols m -> 0 <= k < es ->
  0 <= i * step m + j * es + k < Z.of_nat (length (data m)).
Proof.
  intros (Hes & Hstep & Hlen) Hi Hj Hk. specialize (Hlen ltac:(lia)).
  assert (0 <= step m) by nia.
  assert (i * step m <= (rows m - 1) * step m) by nia.
  assert (j * es + es <= cols m * es) by nia.
  assert (0 <= j * es) by nia. assert (0 <= i * step m) by nia. lia.
Qed.

Lemma addr_inj es m i j k i' j' k' :
  fits es m -> 0 <= i -> 0 <= i' -> 0 <= j < cols m -> 0 <= j' < cols m ->
  0 <= k < es -> 0 <= k' < es ->
  i * step m + j * es + k = i' * step m + j' * es + k' ->
  i = i' /\ j = j' /\ k = k'.
Proof.
  intros (Hes & Hstep & _) Hi Hi' Hj Hj' Hk Hk' Heq.
  assert (j * es + es <= cols m * es) by nia.
  assert (j' * es + es <= cols m * es) by nia.
  assert (0 <= j * es) by nia. assert (0 <= j' * es) by nia.
  assert (i = i') as <-.
  { destruct (Z.lt_trichotomy i i') as [Hlt|[Heq'|Hgt]]; [|exact Heq'|].
    - assert (i * step m + step m <= i' * step m) by nia. lia.
    - assert (i' * step m + step m <= i * step m) by nia. lia. }
  assert (j = j') as <-.
  { destruct (Z.lt_trichotomy j j') as [Hlt|[Heq'|Hgt]]; [|exact Heq'|].
    - assert (j * es + es <= j' * es) by nia. lia.
    - assert (j' * es + es <= j * es) by nia. lia. }
  repeat split. lia.
Qed.

Lemma fits_same_header es m m' : same_header m m' -> fits es m -> fits es m'.
Proof.
  intros (Hr & Hc & _ & Hs & Hl) (Hes & Hstep & Hlen).
  unfold fits. rewrite Hr, Hc, Hs, Hl. auto.
Qed.

Lemma wf_fits m : wf m -> 0 < elemSize m -> fits (elemSize m) m.
Proof. intros [] Hes. repeat split; assumption. Qed.

Lemma wf_fits_8UC3 m : wf m -> type m = CV_8UC3 -> fits 3 m.
Proof.
  intros Hwf Ht. pose proof (wf_fits m Hwf) as Hfits.
  unfold elemSize in Hfits. rewrite Ht in Hfits. apply Hfits. reflexivity.
Qed.

Lemma wf_fits_8UC4 m : wf m -> type m = CV_8UC4 -> fits 4 m.
Proof.
  intros Hwf Ht. pose proof (wf_fits m Hwf) as Hfits.
  unfold elemSize in Hfits. rewrite Ht in Hfits. apply Hfits. reflexivity.
Qed.

Lemma get_Some es m i j k :
  fits es m -> 0 <= i < rows m -> 0 <= j < cols m -> 0 <= k < es ->
  exists b, get m (i * step m + j * es + k) = Some b.
Proof.
  intros Hf Hi Hj Hk. apply load_Some. eapply addr_in_bounds; eassumption.
Qed.

Lemma at4_ext m m' i j i' j' :
  (forall k, 0 <= k < 4 ->
     get m' (i' * step m' + j' * 4 + k) = get m (i * step m + j * 4 + k)) ->
  at4 m' i' j' = at4 m i j.
Proof.
  intros H. unfold at4.
  pose proof (H 0 ltac:(lia)) as H0. rewrite !Z.add_0_r in H0.
  rewrite H0, (H 1), (H 2), (H 3) by lia. reflexivity.
Qed.

Lemma at4_Some m i j :
  fits 4 m -> 0 <= i < rows m -> 0 <= j < cols m -> exists v, at4 m i j = Some v.
Proof.
  intros Hf Hi Hj. unfold at4.
  destruct (get_Some 4 m i j 0 Hf Hi Hj ltac:(lia)) as [b0 H0].
  destruct (get_Some 4 m i j 1 Hf Hi Hj ltac:(lia)) as [b1 H1].
  destruct (get_Some 4 m i j 2 Hf Hi Hj ltac:(lia)) as [b2 H2].
  destruct (get_Some 4 m i j 3 Hf Hi Hj ltac:(lia)) as [b3 H3].
  rewrite Z.add_0_r in H0. rewrite H0, H1, H2, H3. eexists. reflexivity.
Qed.

Lemma at3_Some m i j :
  fits 3 m -> 0 <= i < rows m -> 0 <= j < cols m -> exists p, at3 m i j = Some p.
Proof.
  intros Hf Hi Hj. unfold at3.
  destruct (get_Some 3 m i j 0 Hf Hi Hj ltac:(lia)) as [b0 H0].
  destruct (get_Some 3 m i j 1 Hf Hi Hj ltac:(lia)) as [b1 H1].
  destruct (get_Some 3 m i j 2 Hf Hi Hj ltac:(lia)) as [b2 H2].
  rewrite Z.add_0_r in H0. rewrite H0, H1, H2. eexists. reflexivity.
Qed.

(** Writing one pixel of a four-byte matrix changes that pixel only. *)
Lemma set4_pixels m i j v :
  fits 4 m -> 0 <= i < rows m -> 0 <= j < cols m ->
  exists m', set4 m i j v = Some m' /\ same_header m m'
    /\ at4 m' i j = Some v
    /\ forall i' j', 0 <= i' < rows m -> 0 <= j' < cols m ->
         (i', j') <> (i, j) -> at4 m' i' j' = at4 m i' j'.
Proof.
  intros Hf Hi Hj. destruct v as [[[b0 b1] b2] b3].
  pose proof (addr_in_bounds 4 m i j 0 Hf Hi Hj ltac:(lia)) as A0.
  pose proof (addr_in_bounds 4 m i j 3 Hf Hi Hj ltac:(lia)) as A3.
  destruct (set4_spec m i j b0 b1 b2 b3) as (m' & E & H & G); [lia|lia|].
  pose proof H as (_ & _ & _ & Hs & _).
  exists m'. split; [exact E|]. split; [exact H|]. split.
  - unfold at4. rewrite Hs, !G.
    repeat (case_decide; try lia). reflexivity.
  - intros i' j' Hi' Hj' Hne. apply at4_ext. intros k Hk.
    assert (forall k2, 0 <= k2 < 4 ->
              i' * step m + j' * 4 + k <> i * step m + j * 4 + k2) as Hneq.
    { intros k2 Hk2 Heq. apply Hne.
      destruct (addr_inj 4 m i' j' k i j k2 Hf) as (-> & -> & _);
        try lia; reflexivity. }
    rewrite Hs, G.
    pose proof (Hneq 0). pose proof (Hneq 1). pose proof (Hneq 2).
    pose proof (Hneq 3).
    repeat case_decide; try reflexivity; lia.
Qed.

Lemma create_spec r c t out :
  0 <= r -> 0 <= c -> 0 < CV_ELEM_SIZE t -> wf out ->
  rows (create r c t out) = r /\ cols (create r c t out) = c
  /\ type (create r c t out) = t /\ fits (CV_ELEM_SIZE t) (create r c t out).
Proof.
  intros Hr Hc Hes Hwf. unfold create.
  destruct ((rows out =? r) && (cols out =? c) && (type out =? t)
            && negb (Nat.eqb (length (data out)) 0)) eqn:Hsame.
  - apply andb_true_iff in Hsame as [Hsame _].
    apply andb_true_iff in Hsame as [Hsame Ht].
    apply andb_true_iff in Hsame as [Hr' Hc'].
    apply Z.eqb_eq in Hr', Hc', Ht.
    destruct Hwf as [_ _ _ Hstep Hdata]. unfold elemSize in *.
    rewrite Ht in *. unfold fits. rewrite <- Hr', <- Hc'.
    repeat (split; [first [reflexivity|assumption]|]). exact Hdata.
  - split; [reflexivity|]. split; [reflexivity|]. split; [reflexivity|].
    unfold fits. cbn [rows cols step data].
    split; [exact Hes|]. split; [lia|].
    intros Hr0. rewrite length_replicate, Z2Nat.id by nia. nia.
Qed.

(** ** displacementMapFilter: pixels that are not displaced *)

Section Remap.
Variables (map target : Mat) (componentX componentY scaleX scaleY : Z).
Variable output : Mat.

Hypothesis map_wf : wf map.
Hypothesis map_type : type map = CV_8UC3.
Hypothesis target_wf : wf target.
Hypothesis target_type : type target = CV_8UC4.
Hypothesis same_rows : rows target = rows map.
Hypothesis same_cols : cols target = cols map.
Hypothesis componentX_valid : 0 <= componentX <= 2.
Hypothesis componentY_valid : 0 <= componentY <= 2.
Hypothesis output_wf : wf output.

(** No pixel of the map displaces on either axis. *)
Hypothesis no_displacement : forall x y p cx cy,
  0 <= x < rows map -> 0 <= y < cols map ->
  at3 map x y = Some p ->
  getComponent p componentX = ret cx -> getComponent p componentY = ret cy ->
  displacement cx scaleX = 0 /\ displacement cy scaleY = 0.

Let o0 := create (rows target) (cols target) (type target) output.

Lemma remap_pixel x y o :
  same_header o0 o -> 0 <= x < rows target -> 0 <= y < cols target ->
  exists v o',
    at4 target x y = Some v
    /\ (let* px := lift (at3 map x y) in
        let* cx := getComponent px componentX in
        let dx := clamp (Int32.add x (displacement cx scaleX)) (rows o) in
        let* py := lift (at3 map x y) in
        let* cy := getComponent py componentY in
        let dy := clamp (Int32.add y (displacement cy scaleY)) (cols o) in
        let* v := lift (at4 target dx dy) in
        let* output := lift (set4 o x y v) in
        ret (Continue output)) = ret (Continue o')
    /\ set4 o x y v = Some o'.
Proof.
  intros Hh Hx Hy.
  destruct (create_spec (rows target) (cols target) (type target) output)
    as (Hr0 & Hc0 & Ht0 & Hf0);
    [apply target_wf|apply target_wf|rewrite target_type; reflexivity
    |exact output_wf|].
  fold o0 in Hr0, Hc0, Ht0, Hf0. rewrite target_type in Hf0.
  change (CV_ELEM_SIZE CV_8UC4) with 4 in Hf0.
  pose proof (fits_same_header 4 o0 o Hh Hf0) as Hf.
  pose proof Hh as (Hr & Hc & _).
  destruct (at3_Some map x y) as [p Hp];
    [apply wf_fits_8UC3; assumption|lia|lia|].
  destruct (getComponent_valid p componentX componentX_valid) as [cx Hcx].
  destruct (getComponent_valid p componentY componentY_valid) as [cy Hcy].
  destruct (no_displacement x y p cx cy) as [Hdx Hdy]; [lia|lia|assumption..|].
  destruct (at4_Some target x y) as [v Hv];
    [apply wf_fits_8UC4; assumption|lia|lia|].
  destruct (set4_pixels o x y v Hf) as (o' & Hset & _); [lia|lia|].
  exists v, o'. split; [exact Hv|]. split; [|exact Hset].
  rewrite Hp, bind_lift_Some, Hcx, bind_ret_l, bind_lift_Some, Hcy, bind_ret_l.
  cbv zeta.
  rewrite (source_coordinate_fixed x (rows o) cx scaleX Hdx)
    by (try apply target_wf; lia || (rewrite Hr, Hr0; apply target_wf)).
  rewrite (source_coordinate_fixed y (cols o) cy scaleY Hdy)
    by (try apply target_wf; lia || (rewrite Hc, Hc0; apply target_wf)).
  rewrite Hv, bind_lift_Some, Hset, bind_lift_Some. reflexivity.
Qed.

(** Rows below [x] hold the pixels of the target. *)
Let rows_done (x : Z) (o : Mat) : Prop :=
  same_header o0 o
  /\ forall x' y', 0 <= x' < x -> 0 <= y' < cols target ->
       at4 o x' y' = at4 target x' y'.

(** So do the pixels of row [x] left of [y]. *)
Let cols_done (x y : Z) (o : Mat) : Prop :=
  rows_done x o
  /\ forall y', 0 <= y' < y -> at4 o x y' = at4 target x y'.

Lemma remap_fixed :
  exists o,
    displacementMapFilter map target componentX componentY scaleX scaleY output
      = ([], Some o)
    /\ rows o = rows target /\ cols o = cols target /\ type o = type target
    /\ forall x y, 0 <= x < rows target -> 0 <= y < cols target ->
         at4 o x y = at4 target x y.
Proof.
  destruct (create_spec (rows target) (cols target) (type target) output)
    as (Hr0 & Hc0 & Ht0 & Hf0);
    [apply target_wf|apply target_wf|rewrite target_type; reflexivity
    |exact output_wf|].
  fold o0 in Hr0, Hc0, Ht0, Hf0. rewrite target_type in Hf0.
  change (CV_ELEM_SIZE CV_8UC4) with 4 in Hf0.
  unfold displacementMapFilter.
  replace ((componentX <? 0) || (componentX >? 2)
           || (componentY <? 0) || (componentY >? 2)) with false
    by (symmetry; repeat (apply orb_false_iff; split); lia).
  replace (negb (cols target =? cols map) || negb (rows target =? rows map)
           || negb (type target =? CV_8UC4)) with false
    by (symmetry; repeat (apply orb_false_iff; split);
        apply negb_false_iff; lia).
  fold o0.
  destruct (for_loop_inv rows_done 0 (rows o0)
    (fun x output =>
       let* output :=
         for_loop 0 (cols output) (fun y output =>
           let* px := lift (at3 map x y) in
           let* cx := getComponent px componentX in
           let dx := clamp (Int32.add x (displacement cx scaleX)) (rows output) in
           let* py := lift (at3 map x y) in
           let* cy := getComponent py componentY in
           let dy := clamp (Int32.add y (displacement cy scaleY)) (cols output) in
           let* v := lift (at4 target dx dy) in
           let* output := lift (set4 output x y v) in
           ret (Continue output)) output in
       ret (Continue output)) o0) as (o & Ho & Hh & Hpix).
  - rewrite Hr0. apply target_wf.
  - split; [apply same_header_refl|]. intros x' y' Hx'. lia.
  - intros x o Hx [Hh Hrows]. rewrite Hr0 in Hx.
    pose proof Hh as (Hr & Hc & _).
    destruct (for_loop_inv (cols_done x) 0 (cols o)
      (fun y output =>
         let* px := lift (at3 map x y) in
         let* cx := getComponent px componentX in
         let dx := clamp (Int32.add x (displacement cx scaleX)) (rows output) in
         let* py := lift (at3 map x y) in
         let* cy := getComponent py componentY in
         let dy := clamp (Int32.add y (displacement cy scaleY)) (cols output) in
         let* v := lift (at4 target dx dy) in
         let* output := lift (set4 output x y v) in
         ret (Continue output)) o) as (o' & Ho' & [Hh' Hrows'] & Hcols').
    + rewrite Hc, Hc0. apply target_wf.
    + split; [split; assumption|]. intros y' Hy'. lia.
    + intros y u Hy [[Hhu Hrowsu] Hcolsu]. rewrite Hc, Hc0 in Hy.
      pose proof Hhu as (Hru & Hcu & _).
      destruct (remap_pixel x y u Hhu Hx Hy) as (v & u' & Hv & Hbody & Hset).
      destruct (set4_pixels u x y v (fits_same_header 4 o0 u Hhu Hf0))
        as (u'' & Hset' & Hhu' & Hsame & Hother); [lia|lia|].
      rewrite Hset in Hset'. injection Hset' as <-.
      exists u'. split; [exact Hbody|].
      split; [split; [eauto using same_header_trans|]|].
      * intros x' y' Hx' Hy'. rewrite Hother by (try lia; intros Heq; inversion Heq; lia).
        apply Hrowsu; assumption.
      * intros y' Hy'. destruct (decide (y' = y)) as [ -> | Hne ].
        -- rewrite Hsame, Hv. reflexivity.
        -- rewrite Hother by (try lia; intros Heq; inversion Heq; lia). apply Hcolsu. lia.
    + exists o'. rewrite Ho', bind_ret_l. split; [reflexivity|].
      split; [exact Hh'|]. intros x' y' Hx' Hy'.
      destruct (decide (x' = x)) as [ -> | Hne ].
      * apply Hcols'. rewrite Hc, Hc0. lia.
      * apply Hrows'; lia.
  - exists o. split; [exact Ho|]. destruct Hh as (Hr & Hc & Ht & _).
    split; [congruence|]. split; [congruence|]. split; [congruence|].
    intros x y Hx Hy. apply Hpix; [rewrite Hr0|]; lia.
Qed.
End Remap.

Lemma at3_red m i j b g r :
  at3 m i j = Some (b, g, r) -> get m (i * step m + j * 3 + 2) = Some r.
Proof.
  unfold at3. intros H.
  destruct (get m (i * step m + j * 3)); [|discriminate].
  destruct (get m (i * step m + j * 3 + 1)); [|discriminate].
  destruct (get m (i * step m + j * 3 + 2)); [|discriminate].
  cbn in H. congruence.
Qed.

Ltac sample_wf :=
  constructor; vm_compute; repeat split; easy.

(** C2: with both scales 0, for every map of three bytes a pixel, every
    target of type CV_8UC4 of the same dimensions and every valid pair of
    components, [displacementMapFilter] prints nothing and leaves in
    [output] a matrix of the target's shape and type whose every pixel is
    the target's pixel at the same place, whatever the map holds. *)
Theorem zero_scale_identity (map target : Mat) (componentX componentY : Z)
    (output : Mat) :
  wf map -> type map = CV_8UC3 ->
  wf target -> type target = CV_8UC4 ->
  rows target = rows map -> cols target = cols map ->
  0 <= componentX <= 2 -> 0 <= componentY <= 2 ->
  wf output ->
  exists o,
    displacementMapFilter map target componentX componentY 0 0 output
      = ([], Some o)
    /\ rows o = rows target /\ cols o = cols target /\ type o = type target
    /\ forall x y, 0 <= x < rows target -> 0 <= y < cols target ->
         exists v, at4 target x y = Some v /\ at4 o x y = Some v.
Proof.
  intros Hmap Hmt Htarget Htt Hrows Hcols HcX HcY Hout.
  destruct (remap_fixed map target componentX componentY 0 0 output)
    as (o & Ho & Hr & Hc & Ht & Hpix); try assumption.
  { intros x y p cx cy _ _ _ _ _.
    split; apply displacement_zero_scale. }
  exists o. repeat (split; [assumption|]).
  intros x y Hx Hy.
  destruct (at4_Some target x y) as [v Hv];
    [apply wf_fits_8UC4; assumption|assumption..|].
  exists v. split; [exact Hv|]. rewrite Hpix by assumption. exact Hv.
Qed.

Lemma zero_scale_identity_witness :
  exists o,
    displacementMapFilter Sample.map_2x2 Sample.target_2x2 2 1 0 0 Sample.empty
      = ([], Some o)
    /\ rows o = 2 /\ cols o = 2 /\ type o = CV_8UC4
    /\ forall x y, 0 <= x < 2 -> 0 <= y < 2 ->
         exists v, at4 Sample.target_2x2 x y = Some v /\ at4 o x y = Some v.
Proof.
  apply (zero_scale_identity Sample.map_2x2 Sample.target_2x2 2 1 Sample.empty);
    try reflexivity; try lia; sample_wf.
Defined.

(** C8: a 4x4 map whose red component is 128 at every pixel, any 4x4
    target of type CV_8UC4, components 2 and 2, scales 20 and 20: the
    output is the target, pixel for pixel. *)
Theorem red_128_scale_20_identity (map target output : Mat) :
  wf map -> type map = CV_8UC3 -> rows map = 4 -> cols map = 4 ->
  (forall x y, 0 <= x < 4 -> 0 <= y < 4 ->
     get map (x * step map + y * 3 + 2) = Some x80) ->
  wf target -> type target = CV_8UC4 -> rows target = 4 -> cols target = 4 ->
  wf output ->
  exists o,
    displacementMapFilter map target 2 2 20 20 output = ([], Some o)
    /\ rows o = 4 /\ cols o = 4 /\ type o = CV_8UC4
    /\ forall x y, 0 <= x < 4 -> 0 <= y < 4 ->
         exists v, at4 target x y = Some v /\ at4 o x y = Some v.
Proof.
  intros Hmap Hmt Hmr Hmc Hred Htarget Htt Htr Htc Hout.
  destruct (remap_fixed map target 2 2 20 20 output)
    as (o & Ho & Hr & Hc & Ht & Hpix); try assumption; try lia.
  { intros x y [[b g] r] cx cy Hx Hy Hp Hcx Hcy.
    apply at3_red in Hp. rewrite Hred in Hp by lia.
    injection Hp as <-. cbn in Hcx, Hcy.
    injection Hcx as <-. injection Hcy as <-.
    split; reflexivity. }
  exists o. split; [exact Ho|].
  split; [congruence|]. split; [congruence|]. split; [congruence|].
  intros x y Hx Hy.
  destruct (at4_Some target x y) as [v Hv];
    [apply wf_fits_8UC4; assumption|lia..|].
  exists v. split; [exact Hv|]. rewrite Hpix by lia. exact Hv.
Qed.

(** * overlayImage *)

(** ** Early exit against the full scan *)

Lemma for_loop_noop {S} lo hi (body : Z -> S -> M (ctl S)) s :
  (forall j t, lo <= j < hi -> body j t = ret (Continue t)) ->
  for_loop lo hi body s = ret s.
Proof.
  intros Hbody. unfold for_loop. apply for_n_noop.
  intros j t Hj. apply Hbody. lia.
Qed.

(** A scan that starts at [a] and breaks at the first index from [b] on
    does what the scan of all of [0, hi) does when that one does nothing
    outside the window from [a] to [b]. *)
Lemma for_loop_window {S} (a b hi : Z) (bodyE bodyF : Z -> S -> M (ctl S)) s :
  0 <= a ->
  (forall j t, 0 <= j < a -> j < hi -> bodyF j t = ret (Continue t)) ->
  (forall j t, a <= j < b -> j < hi -> bodyE j t = bodyF j t) ->
  (forall t, Z.max a b < hi -> bodyE (Z.max a b) t = ret (Break t)) ->
  (forall j t, b <= j < hi -> a <= j -> bodyF j t = ret (Continue t)) ->
  for_loop a hi bodyE s = for_loop 0 hi bodyF s.
Proof.
  intros Ha Hbefore Hsame Hbreak Hafter.
  destruct (Z.le_gt_cases hi a) as [Hle|Hlt].
  - rewrite (for_loop_noop 0 hi bodyF) by (intros j t Hj; apply Hbefore; lia).
    unfold for_loop. replace (Z.to_nat (hi - a)) with O by lia. reflexivity.
  - unfold for_loop.
    replace (Z.to_nat (hi - 0)) with (Z.to_nat a + Z.to_nat (hi - a))%nat by lia.
    rewrite for_n_skip by (intros j t Hj; apply Hbefore; lia).
    rewrite Z2Nat.id, Z.add_0_l by lia.
    set (c := Z.min (Z.max a b) hi).
    replace (Z.to_nat (hi - a))
      with (Z.to_nat (c - a) + Z.to_nat (hi - c))%nat by lia.
    apply for_n_break_noop.
    + intros j t Hj. apply Hsame; lia.
    + intros t Hm. replace (a + Z.of_nat (Z.to_nat (c - a))) with (Z.max a b) by lia.
      apply Hbreak. lia.
    + intros j t Hj. apply Hafter; lia.
Qed.

Lemma sub32_exact a b :
  Int32.min_int <= a - b <= Int32.max_int -> Int32.sub a b = a - b.
Proof. intros H. apply wrap32_id. exact H. Qed.

Section ScanEquiv.
Variables (background foreground : Mat) (location : Point2i).

(** The dimensions are [int]s, and the offset of the foreground is an
    [int] whose negation is an [int] too. *)
Hypothesis bg_rows : rows background <= Int32.max_int.
Hypothesis bg_cols : cols background <= Int32.max_int.
Hypothesis fg_rows : 0 <= rows foreground <= Int32.max_int.
Hypothesis fg_cols : 0 <= cols foreground <= Int32.max_int.
Hypothesis loc_x : Int32.min_int < pt_x location <= Int32.max_int.
Hypothesis loc_y : Int32.min_int < pt_y location <= Int32.max_int.

Lemma cols_scan_equiv (y fY : Z) (o : Mat) :
  0 <= fY < rows foreground ->
  for_loop (Z.max (pt_x location) 0) (cols background) (fun x output =>
    let fX := Int32.sub x (pt_x location) in
    if fX >=? cols foreground then ret (Break output) else
    let* output := blend_pixel background foreground x y fX fY output in
    ret (Continue output)) o
  = for_loop 0 (cols background) (fun x output =>
      let fX := x - pt_x location in
      if (0 <=? fX) && (fX <? cols foreground)
         && (0 <=? fY) && (fY <? rows foreground)
      then
        let* output := blend_pixel background foreground x y fX fY output in
        ret (Continue output)
      else ret (Continue output)) o.
Proof.
  intros HfY. unfold Int32.min_int, Int32.max_int in *.
  apply for_loop_window with (b := pt_x location + cols foreground).
  - lia.
  - intros x t Hx Hhi. cbv zeta.
    rewrite (proj2 (Z.leb_gt 0 (x - pt_x location))) by lia. reflexivity.
  - intros x t Hx Hhi. cbv zeta.
    rewrite sub32_exact by (unfold Int32.min_int, Int32.max_int; lia).
    rewrite Z.geb_leb, (proj2 (Z.leb_gt (cols foreground) _)) by lia.
    rewrite (proj2 (Z.leb_le 0 (x - pt_x location))) by lia.
    rewrite (proj2 (Z.ltb_lt (x - pt_x location) _)) by lia.
    rewrite (proj2 (Z.leb_le 0 fY)), (proj2 (Z.ltb_lt fY _)) by lia.
    reflexivity.
  - intros t Hhi. cbv zeta.
    rewrite sub32_exact by (unfold Int32.min_int, Int32.max_int; lia).
    rewrite Z.geb_leb, (proj2 (Z.leb_le (cols foreground) _)) by lia.
    reflexivity.
  - intros x t Hx Hhi. cbv zeta.
    rewrite (proj2 (Z.ltb_ge (x - pt_x location) (cols foreground))) by lia.
    rewrite andb_false_r. reflexivity.
Qed.

(** Outside the rows of the foreground the full scan of a row does
    nothing. *)
Lemma cols_scan_outside (y fY : Z) (o : Mat) :
  fY < 0 \/ rows foreground <= fY ->
  for_loop 0 (cols background) (fun x output =>
      let fX := x - pt_x location in
      if (0 <=? fX) && (fX <? cols foreground)
         && (0 <=? fY) && (fY <? rows foreground)
      then
        let* output := blend_pixel background foreground x y fX fY output in
        ret (Continue output)
      else ret (Continue output)) o
  = ret o.
Proof.
  intros HfY. apply for_loop_noop. intros x t Hx. cbv zeta.
  destruct HfY as [Hlo|Hhi].
  - rewrite (proj2 (Z.leb_gt 0 fY)) by lia.
    rewrite andb_false_r. reflexivity.
  - rewrite (proj2 (Z.ltb_ge fY (rows foreground))) by lia.
    rewrite andb_false_r. reflexivity.
Qed.

Lemma overlay_scan_equiv (output : Mat) :
  overlayImage background foreground output location
  = overlayImage_full_scan background foreground output location.
Proof.
  unfold overlayImage, overlayImage_full_scan.
  destruct (copyTo background output) as [o|]; [|reflexivity].
  rewrite !bind_lift_Some. unfold Int32.min_int, Int32.max_int in *.
  apply for_loop_window with (b := pt_y location + rows foreground).
  - lia.
  - intros y t Hy Hhi. cbv zeta.
    rewrite cols_scan_outside by lia. rewrite bind_ret_l. reflexivity.
  - intros y t Hy Hhi. cbv zeta.
    rewrite sub32_exact by (unfold Int32.min_int, Int32.max_int; lia).
    rewrite Z.geb_leb, (proj2 (Z.leb_gt (rows foreground) _)) by lia.
    rewrite cols_scan_equiv by lia. reflexivity.
  - intros t Hhi. cbv zeta.
    rewrite sub32_exact by (unfold Int32.min_int, Int32.max_int; lia).
    rewrite Z.geb_leb, (proj2 (Z.leb_le (rows foreground) _)) by lia.
    reflexivity.
  - intros y t Hy Hhi. cbv zeta.
    rewrite cols_scan_outside by lia. rewrite bind_ret_l. reflexivity.
Qed.
End ScanEquiv.

(** C7: breaking out of a row at the foreground's column bound, and out of
    the scan at its row bound, gives the output of the scan of every
    background coordinate with a bounds check of the foreground coordinate
    at each pixel, for every background, foreground and location whose
    dimensions and offsets are [int]s (the offsets above the least
    [int]). *)
Theorem early_exit_is_full_scan (background foreground output : Mat)
    (location : Point2i) :
  rows background <= Int32.max_int -> cols background <= Int32.max_int ->
  0 <= rows foreground <= Int32.max_int ->
  0 <= cols foreground <= Int32.max_int ->
  Int32.min_int < pt_x location <= Int32.max_int ->
  Int32.min_int < pt_y location <= Int32.max_int ->
  overlayImage background foreground output location
  = overlayImage_full_scan background foreground output location.
Proof. intros. apply overlay_scan_equiv; assumption. Qed.

(** The offsets have to stay above the least [int]: there the subtraction
    [y - location.y] of the source overflows, the wrapped [fY] is negative,
    the row test does not break and the alpha byte is read from before the
    foreground. *)
Example offset_at_min_int :
  Int32.sub 0 Int32.min_int = Int32.min_int
  /\ overlayImage Sample.background_2x3 (Sample.foreground_2x2 x00)
       Sample.empty (mkPoint 0 Int32.min_int) = ([], None).
Proof. split; vm_compute; reflexivity. Qed.

(** C7 does not hold at every location.  At the offset (0, least [int]) over
    a 2x3 background, the early-exit scan of a 2x2 foreground reads outside
    the foreground and has no output, while the full scan, which checks the
    foreground coordinate at each pixel, reads nothing and gives the copy of
    the background. *)
Lemma early_exit_differs_at_min_int :
  overlayImage Sample.background_2x3 (Sample.foreground_2x2 x80) Sample.empty
    (mkPoint 0 Int32.min_int) = ([], None)
  /\ snd (overlayImage_full_scan Sample.background_2x3
            (Sample.foreground_2x2 x80) Sample.empty (mkPoint 0 Int32.min_int))
     <> None
  /\ overlayImage Sample.background_2x3 (Sample.foreground_2x2 x80)
       Sample.empty (mkPoint 0 Int32.min_int)
     <> overlayImage_full_scan Sample.background_2x3
          (Sample.foreground_2x2 x80) Sample.empty (mkPoint 0 Int32.min_int).
Proof.
  split; [vm_compute; reflexivity|].
  split; vm_compute; discriminate.
Qed.

(** C4 does not hold at every location.  The 2x2 foreground below has alpha
    0 at each of its four pixels; laid over a 2x3 background at the offset
    (0, least [int]), [overlayImage] has no output, so its output is not the
    background. *)
Lemma transparent_foreground_at_min_int :
  get (Sample.foreground_2x2 x00) 3 = Some x00
  /\ get (Sample.foreground_2x2 x00) 7 = Some x00
  /\ get (Sample.foreground_2x2 x00) 11 = Some x00
  /\ get (Sample.foreground_2x2 x00) 15 = Some x00
  /\ snd (overlayImage Sample.background_2x3 (Sample.foreground_2x2 x00)
            Sample.empty (mkPoint 0 Int32.min_int)) = None.
Proof. repeat split; vm_compute; reflexivity. Qed.

(** ** copyTo *)

Lemma CV_ELEM_SIZE_pos t : 0 < CV_ELEM_SIZE t.
Proof.
  unfold CV_ELEM_SIZE, CV_MAT_CN, CV_ELEM_SIZE1.
  assert (0 <= Z.shiftr (Z.land t 4088) 3).
  { apply Z.shiftr_nonneg. apply Z.land_nonneg. right. lia. }
  assert (0 < match CV_MAT_DEPTH t with
              | 0 | 1 => 1 | 2 | 3 | 7 => 2 | 4 | 5 => 4 | _ => 8 end).
  { destruct (CV_MAT_DEPTH t) as [|[[[]|[]|]|[[]|[]|]|]|]; lia. }
  nia.
Qed.

Lemma memcpy_spec n src s dst d :
  0 <= s -> s + Z.of_nat n <= Z.of_nat (length src) ->
  0 <= d -> d + Z.of_nat n <= Z.of_nat (length dst) ->
  exists dst', memcpy n src s dst d = Some dst'
    /\ length dst' = length dst
    /\ forall k, load dst' k =
         if decide (d <= k < d + Z.of_nat n) then load src (s + (k - d))
         else load dst k.
Proof.
  revert s dst d. induction n as [|n IH]; intros s dst d Hs Hsn Hd Hdn.
  - exists dst. split; [reflexivity|]. split; [reflexivity|].
    intros k. rewrite decide_False by lia. reflexivity.
  - destruct (load_Some src s) as [b Hb]; [lia|].
    pose proof (store_Some dst d b ltac:(lia)) as Hst.
    destruct (IH (s + 1) (<[Z.to_nat d := b]> dst) (d + 1))
      as (dst' & Hcpy & Hlen & Hload); try (rewrite ?length_insert; lia).
    exists dst'. cbn [memcpy]. rewrite Hb. cbn [mbind option_bind].
    rewrite Hst. cbn [mbind option_bind].
    split; [exact Hcpy|]. split; [rewrite Hlen; apply length_insert|].
    intros k. rewrite Hload, load_insert by lia.
    destruct (decide (k = d)) as [ -> | Hne ].
    + rewrite decide_False, decide_True by lia.
      rewrite Z.sub_diag, Z.add_0_r. symmetry. exact Hb.
    + repeat case_decide; try lia; [|reflexivity].
      f_equal. lia.
Qed.

Lemma copy_rows_spec n y src dst dstep :
  fits (elemSize src) src -> 0 <= y -> y + Z.of_nat n <= rows src ->
  cols src * elemSize src <= dstep -> 0 <= cols src ->
  (0 < y + Z.of_nat n ->
     (y + Z.of_nat n - 1) * dstep + cols src * elemSize src
       <= Z.of_nat (length dst)) ->
  exists dst', copy_rows n y src dst dstep = Some dst'
    /\ length dst' = length dst
    /\ (forall a, a < y * dstep -> load dst' a = load dst a)
    /\ (forall i j, y <= i < y + Z.of_nat n -> 0 <= j < cols src * elemSize src ->
          load dst' (i * dstep + j) = load (data src) (i * step src + j)).
Proof.
  intros Hfits. pose proof Hfits as (Hes & Hstep & Hdata).
  revert y dst. induction n as [|n IH]; intros y dst Hy Hyn Hw Hc Hlen.
  - exists dst. split; [reflexivity|]. split; [reflexivity|].
    split; [reflexivity|]. intros i j Hi. lia.
  - assert (0 <= cols src * elemSize src) as Hw0 by nia.
    assert (0 <= step src) by lia. assert (0 <= dstep) by lia.
    specialize (Hdata ltac:(lia)). specialize (Hlen ltac:(lia)).
    assert (y * step src <= (rows src - 1) * step src) by nia.
    assert (y * dstep <= (y + Z.of_nat (S n) - 1) * dstep) by nia.
    assert (0 <= y * step src) by nia. assert (0 <= y * dstep) by nia.
    destruct (memcpy_spec (Z.to_nat (cols src * elemSize src)) (data src)
                (y * step src) dst (y * dstep))
      as (dst1 & Hcpy & Hlen1 & Hload1); try lia.
    destruct (IH (y + 1) dst1) as (dst' & Hrows & Hlen' & Hlow & Hpix);
      try lia.
    exists dst'. cbn [copy_rows]. rewrite Hcpy. cbn [mbind option_bind].
    split; [exact Hrows|]. split; [congruence|]. split.
    + intros a Ha. rewrite Hlow by nia. rewrite Hload1.
      rewrite decide_False by lia. reflexivity.
    + intros i j Hi Hj. destruct (decide (i = y)) as [ -> | Hne ].
      * rewrite Hlow by nia. rewrite Hload1.
        rewrite decide_True by lia. f_equal. lia.
      * apply Hpix; lia.
Qed.

Lemma copyTo_spec src dst :
  wf src -> wf dst ->
  exists o, copyTo src dst = Some o
    /\ rows o = rows src /\ cols o = cols src /\ type o = type src
    /\ fits (elemSize src) o
    /\ forall i j, 0 <= i < rows src -> 0 <= j < cols src * elemSize src ->
         get o (i * step o + j) = get src (i * step src + j).
Proof.
  intros Hsrc Hdst. pose proof (CV_ELEM_SIZE_pos (type src)) as Hes.
  destruct (create_spec (rows src) (cols src) (type src) dst)
    as (Hr & Hc & Ht & Hfits); [apply Hsrc|apply Hsrc|exact Hes|exact Hdst|].
  unfold copyTo.
  set (c := create (rows src) (cols src) (type src) dst) in *.
  fold (elemSize src) in Hfits. destruct Hfits as (_ & Hstep & Hdata).
  rewrite Hr, Hc in *.
  destruct (copy_rows_spec (Z.to_nat (rows src)) 0 src (data c) (step c))
    as (d & Hcopy & Hlen & _ & Hpix);
    [apply wf_fits; [exact Hsrc|exact Hes]|lia| |exact Hstep|apply Hsrc| |].
  { rewrite Z2Nat.id by apply Hsrc. lia. }
  { rewrite Z2Nat.id by apply Hsrc. rewrite Z.add_0_l. exact Hdata. }
  rewrite Hcopy. cbn [mbind option_bind]. eexists. split; [reflexivity|].
  cbn [rows cols type step data].
  split; [reflexivity|]. split; [reflexivity|]. split; [exact Ht|]. split.
  - unfold fits. cbn [rows cols type step data]. rewrite ?Hlen.
    split; [exact Hes|]. split; assumption.
  - intros i j Hi Hj. unfold get. cbn [data]. apply Hpix; [|exact Hj].
    rewrite Z2Nat.id by apply Hsrc. lia.
Qed.

(** ** A transparent foreground *)

Lemma for_loop_break_first {S} lo hi (body : Z -> S -> M (ctl S)) s :
  (forall t, body lo t = ret (Break t)) -> for_loop lo hi body s = ret s.
Proof.
  intros Hbody. unfold for_loop.
  destruct (Z.to_nat (hi - lo)) as [|n]; [reflexivity|].
  cbn [for_n]. rewrite Hbody, bind_ret_l. reflexivity.
Qed.

Lemma opacity_of_alpha_0 :
  Double.ltb Double.zero
    (Double.div (Double.of_Z (uchar_to_Z x00)) (Double.of_Z 255)) = false.
Proof. vm_compute. reflexivity. Qed.

Lemma blend_pixel_transparent bg fg x y fX fY o :
  get fg (fY * step fg + Int32.mul fX (channels fg) + 3) = Some x00 ->
  blend_pixel bg fg x y fX fY o = ret o.
Proof.
  intros Halpha. unfold blend_pixel. rewrite Halpha, bind_lift_Some.
  apply for_loop_break_first. intros t.
  rewrite opacity_of_alpha_0. reflexivity.
Qed.

Lemma wf_8UC4_mul m fX :
  wf m -> type m = CV_8UC4 -> 0 <= fX < cols m ->
  Int32.mul fX (channels m) = fX * 4.
Proof.
  intros Hwf Ht HfX. unfold channels. rewrite Ht.
  change (CV_MAT_CN CV_8UC4) with 4.
  pose proof (wf_row_bytes m Hwf) as Hb. unfold elemSize in Hb.
  rewrite Ht in Hb. change (CV_ELEM_SIZE CV_8UC4) with 4 in Hb.
  apply wrap32_id. unfold Int32.in_range, Int32.min_int, Int32.max_int in *. lia.
Qed.

Section Transparent.
Variables (background foreground output : Mat) (location : Point2i).

Hypothesis background_wf : wf background.
Hypothesis foreground_wf : wf foreground.
Hypothesis foreground_type : type foreground = CV_8UC4.
Hypothesis output_wf : wf output.
Hypothesis alpha_0 : forall fY fX,
  0 <= fY < rows foreground -> 0 <= fX < cols foreground ->
  get foreground (fY * step foreground + fX * 4 + 3) = Some x00.

Lemma full_scan_transparent :
  exists o,
    overlayImage_full_scan background foreground output location = ([], Some o)
    /\ copyTo background output = Some o.
Proof.
  destruct (copyTo_spec background output background_wf output_wf)
    as (o & Hcopy & _).
  exists o. split; [|exact Hcopy].
  unfold overlayImage_full_scan. rewrite Hcopy, bind_lift_Some.
  apply for_loop_noop. intros y t Hy. cbv zeta.
  rewrite for_loop_noop; [rewrite bind_ret_l; reflexivity|].
  intros x u Hx. cbv zeta.
  destruct ((0 <=? x - pt_x location) && (x - pt_x location <? cols foreground)
            && (0 <=? y - pt_y location)
            && (y - pt_y location <? rows foreground)) eqn:Hin;
    [|reflexivity].
  apply andb_true_iff in Hin as [Hin H4]. apply andb_true_iff in Hin as [Hin H3].
  apply andb_true_iff in Hin as [H1 H2].
  rewrite blend_pixel_transparent; [rewrite bind_ret_l; reflexivity|].
  rewrite wf_8UC4_mul by (assumption || lia).
  apply alpha_0; lia.
Qed.
End Transparent.

(** C4: a foreground whose alpha is 0 at every pixel leaves the background
    as it is: for every background, every offset (an [int] above the least
    one on each axis) and every such foreground, [overlayImage] prints
    nothing and its output has the shape and type of the background and,
    row by row, the bytes of the background. *)
Theorem transparent_foreground_keeps_background
    (background foreground output : Mat) (location : Point2i) :
  wf background -> wf foreground -> type foreground = CV_8UC4 ->
  wf output ->
  (forall fY fX, 0 <= fY < rows foreground -> 0 <= fX < cols foreground ->
     get foreground (fY * step foreground + fX * 4 + 3) = Some x00) ->
  Int32.min_int < pt_x location <= Int32.max_int ->
  Int32.min_int < pt_y location <= Int32.max_int ->
  exists o,
    overlayImage background foreground output location = ([], Some o)
    /\ rows o = rows background /\ cols o = cols background
    /\ type o = type background
    /\ forall y j, 0 <= y < rows background ->
         0 <= j < cols background * elemSize background ->
         exists b, get background (y * step background + j) = Some b
                   /\ get o (y * step o + j) = Some b.
Proof.
  intros Hbg Hfg Hft Hout Halpha Hx Hy.
  rewrite overlay_scan_equiv by (assumption || apply Hbg || apply Hfg).
  destruct (full_scan_transparent background foreground output location)
    as (o & Hscan & Hcopy); try assumption.
  destruct (copyTo_spec background output Hbg Hout)
    as (o' & Hcopy' & Hr & Hc & Ht & _ & Hbytes).
  rewrite Hcopy in Hcopy'. injection Hcopy' as <-.
  exists o. repeat (split; [assumption|]).
  intros y j Hy' Hj. rewrite Hbytes by assumption.
  destruct (load_Some (data background) (y * step background + j)) as [b Hb].
  { pose proof (wf_fits background Hbg (CV_ELEM_SIZE_pos _)) as (Hes & Hstep & Hdata).
    specialize (Hdata ltac:(lia)).
    assert (y * step background <= (rows background - 1) * step background) by nia.
    assert (0 <= step background) by nia.
    assert (0 <= y * step background) by nia. lia. }
  exists b. split; exact Hb.
Qed.

(** ** An opaque foreground *)

Lemma opacity_of_alpha_255 :
  Double.div (Double.of_Z (uchar_to_Z xff)) (Double.of_Z 255) = Double.one.
Proof. vm_compute. reflexivity. Qed.

Lemma background_weight_0 (b : uchar) :
  Double.mul (Double.of_Z (uchar_to_Z b)) (Double.sub (Double.of_Z 1) Double.one)
  = Double.zero.
Proof. destruct b; vm_compute; reflexivity. Qed.

Lemma foreground_weight_1 (f : uchar) :
  uchar_of_Z (Double.trunc
    (Double.add Double.zero (Double.mul (Double.of_Z (uchar_to_Z f)) Double.one)))
  = f.
Proof. destruct f; vm_compute; reflexivity. Qed.

(** With opacity 1 the blend of any two bytes is the foreground byte. *)
Lemma blend_opaque (b f : uchar) :
  uchar_of_Z (Double.trunc
    (Double.add
       (Double.mul (Double.of_Z (uchar_to_Z b))
                   (Double.sub (Double.of_Z 1) Double.one))
       (Double.mul (Double.of_Z (uchar_to_Z f)) Double.one)))
  = f.
Proof. rewrite background_weight_0. apply foreground_weight_1. Qed.

Lemma mul_channels_8UC3 m x :
  type m = CV_8UC3 -> 0 <= x -> x * 3 <= Int32.max_int ->
  Int32.mul x (channels m) = x * 3 /\ Int32.mul (channels m) x = x * 3.
Proof.
  intros Ht Hx Hb. unfold channels. rewrite Ht.
  change (CV_MAT_CN CV_8UC3) with 3. unfold Int32.mul.
  rewrite !wrap32_id
    by (unfold Int32.in_range, Int32.min_int, Int32.max_int in *; lia).
  lia.
Qed.

Section Opaque.
Variables (background foreground o0 : Mat).

Hypothesis background_wf : wf background.
Hypothesis background_type : type background = CV_8UC3.
Hypothesis foreground_wf : wf foreground.
Hypothesis foreground_type : type foreground = CV_8UC4.
Hypothesis rows_within : rows foreground <= rows background.
Hypothesis cols_within : cols foreground <= cols background.
Hypothesis alpha_255 : forall fY fX,
  0 <= fY < rows foreground -> 0 <= fX < cols foreground ->
  get foreground (fY * step foreground + fX * 4 + 3) = Some xff.

(** [o0] is the copy of the background the scan starts from. *)
Hypothesis o0_rows : rows o0 = rows background.
Hypothesis o0_cols : cols o0 = cols background.
Hypothesis o0_type : type o0 = CV_8UC3.
Hypothesis o0_fits : fits 3 o0.

(** The bytes the scan has written when it is about to blend channel [c]
    of the pixel in row [y] and column [x]. *)
Let painted (y x c i j k : Z) : Prop :=
  (i < rows foreground /\ j < cols foreground)
  /\ (i < y \/ (i = y /\ (j < x \/ (j = x /\ k < c)))).

Let scanned (y x c : Z) (o : Mat) : Prop :=
  same_header o0 o
  /\ (forall i j k, 0 <= i < rows background -> 0 <= j < cols background ->
        0 <= k < 3 -> painted y x c i j k ->
        get o (i * step o0 + j * 3 + k)
        = get foreground (i * step foreground + j * 4 + k))
  /\ (forall i j k, 0 <= i < rows background -> 0 <= j < cols background ->
        0 <= k < 3 -> ~ painted y x c i j k ->
        get o (i * step o0 + j * 3 + k) = get o0 (i * step o0 + j * 3 + k)).

Lemma scanned_shift y x c y' x' c' o :
  (forall i j k, 0 <= i < rows background -> 0 <= j < cols background ->
     0 <= k < 3 -> painted y x c i j k <-> painted y' x' c' i j k) ->
  scanned y x c o -> scanned y' x' c' o.
Proof.
  intros Hiff (Hh & Hp & Hn). split; [exact Hh|]. split.
  - intros i j k Hi Hj Hk Hpt. apply Hp; try assumption.
    apply Hiff; assumption.
  - intros i j k Hi Hj Hk Hpt. apply Hn; try assumption.
    intros Hpt'. apply Hpt. apply Hiff; assumption.
Qed.

Lemma blend_channel_opaque x y c o :
  0 <= y < rows foreground -> 0 <= x < cols foreground -> 0 <= c < 3 ->
  scanned y x c o ->
  exists o',
    (let* foregroundPx :=
       lift (get foreground
               (y * step foreground + Int32.mul x (channels foreground) + c)) in
     let* backgroundPx :=
       lift (get background
               (y * step background + Int32.mul x (channels background) + c)) in
     let v :=
       Double.add
         (Double.mul (Double.of_Z (uchar_to_Z backgroundPx))
                     (Double.sub (Double.of_Z 1) Double.one))
         (Double.mul (Double.of_Z (uchar_to_Z foregroundPx)) Double.one) in
     let* output :=
       lift (set o (y * step o + Int32.mul (channels o) x + c)
               (uchar_of_Z (Double.trunc v))) in
     ret (Continue output)) = ret (Continue o')
    /\ scanned y x (c + 1) o'.
Proof.
  intros Hy Hx Hc (Hh & Hp & Hn).
  pose proof (wf_fits_8UC4 foreground foreground_wf foreground_type) as Hff.
  pose proof (wf_fits_8UC3 background background_wf background_type) as Hfb.
  pose proof (fits_same_header 3 o0 o Hh o0_fits) as Hfo.
  pose proof Hh as (Hr & Hc' & Ht & Hs & Hl).
  pose proof (wf_row_bytes background background_wf) as Hbytes.
  unfold elemSize in Hbytes. rewrite background_type in Hbytes.
  change (CV_ELEM_SIZE CV_8UC3) with 3 in Hbytes.
  rewrite (wf_8UC4_mul foreground x) by assumption.
  destruct (mul_channels_8UC3 background x) as [-> _]; [assumption|lia|lia|].
  destruct (mul_channels_8UC3 o x) as [_ ->]; [congruence|lia|lia|].
  destruct (get_Some 4 foreground y x c Hff) as [f Hf]; [lia..|].
  destruct (get_Some 3 background y x c Hfb) as [b Hb]; [lia..|].
  rewrite Hf, bind_lift_Some, Hb, bind_lift_Some. cbv zeta.
  rewrite blend_opaque.
  destruct (set_spec o (y * step o + x * 3 + c) f) as (o' & Hset & Hh' & Hget).
  { apply (addr_in_bounds 3 o y x c Hfo); lia. }
  rewrite Hset, bind_lift_Some. exists o'. split; [reflexivity|].
  assert (forall i j k, 0 <= i < rows background -> 0 <= j < cols background ->
            0 <= k < 3 -> (i, j, k) <> (y, x, c) ->
            get o' (i * step o0 + j * 3 + k) = get o (i * step o0 + j * 3 + k))
    as Hother.
  { intros i j k Hi Hj Hk Hne. rewrite Hget, decide_False; [reflexivity|].
    intros Heq. apply Hne. rewrite <- Hs in Heq.
    destruct (addr_inj 3 o i j k y x c Hfo) as (-> & -> & ->);
      try lia; reflexivity. }
  split; [eauto using same_header_trans|]. split.
  - intros i j k Hi Hj Hk Hpt.
    destruct (decide ((i, j, k) = (y, x, c))) as [Heq|Hne].
    + injection Heq as -> -> ->. rewrite Hget, Hs, decide_True by reflexivity.
      symmetry. exact Hf.
    + rewrite Hother by assumption. apply Hp; try assumption.
      unfold painted in *.
      assert (~ (i = y /\ j = x /\ k = c)) by (intros (-> & -> & ->); auto).
      lia.
  - intros i j k Hi Hj Hk Hpt.
    rewrite Hother; [apply Hn; try assumption|assumption..|].
    + unfold painted in *. lia.
    + intros [= -> -> ->]. apply Hpt. unfold painted. lia.
Qed.

Lemma blend_pixel_opaque x y o :
  0 <= y < rows foreground -> 0 <= x < cols foreground ->
  scanned y x 0 o ->
  exists o', blend_pixel background foreground x y x y o = ret o'
             /\ scanned y x 3 o'.
Proof.
  intros Hy Hx Hs. unfold blend_pixel.
  assert (get foreground
            (y * step foreground + Int32.mul x (channels foreground) + 3)
          = Some xff) as ->.
  { rewrite wf_8UC4_mul by assumption. apply alpha_255; assumption. }
  rewrite bind_lift_Some. cbv zeta. rewrite opacity_of_alpha_255.
  replace (channels o) with 3.
  2:{ destruct Hs as ((_ & _ & Ht & _) & _). unfold channels.
      rewrite Ht, o0_type. reflexivity. }
  apply (for_loop_inv (fun c t => scanned y x c t)); [lia|exact Hs|].
  intros c t Hc Ht. cbv beta.
  change (negb (Double.ltb Double.zero Double.one)) with false. cbv iota.
  apply blend_channel_opaque; assumption.
Qed.

Lemma row_scan_opaque y o :
  0 <= y < rows background -> scanned y 0 0 o ->
  exists o',
    for_loop 0 (cols background) (fun x output =>
      let fX := x - 0 in
      if (0 <=? fX) && (fX <? cols foreground)
         && (0 <=? y - 0) && (y - 0 <? rows foreground)
      then
        let* output :=
          blend_pixel background foreground x y fX (y - 0) output in
        ret (Continue output)
      else ret (Continue output)) o = ret o'
    /\ scanned (y + 1) 0 0 o'.
Proof.
  intros Hy Hs.
  destruct (for_loop_inv (fun x t => scanned y x 0 t) 0 (cols background)
    (fun x output =>
      let fX := x - 0 in
      if (0 <=? fX) && (fX <? cols foreground)
         && (0 <=? y - 0) && (y - 0 <? rows foreground)
      then
        let* output :=
          blend_pixel background foreground x y fX (y - 0) output in
        ret (Continue output)
      else ret (Continue output)) o) as (o' & Ho' & Hs').
  - apply background_wf.
  - exact Hs.
  - intros x t Hx Ht. cbv beta zeta. rewrite !Z.sub_0_r.
    destruct ((0 <=? x) && (x <? cols foreground)
              && (0 <=? y) && (y <? rows foreground)) eqn:Hin.
    + apply andb_true_iff in Hin as [Hin H4].
      apply andb_true_iff in Hin as [Hin H3].
      apply andb_true_iff in Hin as [H1 H2].
      destruct (blend_pixel_opaque x y t) as (t' & Hblend & Ht');
        [lia|lia|exact Ht|].
      exists t'. rewrite Hblend, bind_ret_l. split; [reflexivity|].
      revert Ht'. apply scanned_shift. intros i j k Hi Hj Hk.
      unfold painted. lia.
    + exists t. split; [reflexivity|].
      revert Ht. apply scanned_shift. intros i j k Hi Hj Hk.
      unfold painted.
      assert (~ (x < cols foreground /\ y < rows foreground)) as Hout.
      { intros [Hc Hr]. rewrite !andb_false_iff in Hin. lia. }
      lia.
  - exists o'. split; [exact Ho'|].
    revert Hs'. apply scanned_shift. intros i j k Hi Hj Hk.
    unfold painted. lia.
Qed.

Lemma scan_opaque :
  exists o,
    for_loop 0 (rows background) (fun y output =>
      let fY := y - 0 in
      let* output :=
        for_loop 0 (cols background) (fun x output =>
          let fX := x - 0 in
          if (0 <=? fX) && (fX <? cols foreground)
             && (0 <=? fY) && (fY <? rows foreground)
          then
            let* output :=
              blend_pixel background foreground x y fX fY output in
            ret (Continue output)
          else ret (Continue output)) output in
      ret (Continue output)) o0 = ret o
    /\ same_header o0 o
    /\ forall i j k, 0 <= i < rows background -> 0 <= j < cols background ->
         0 <= k < 3 ->
         get o (i * step o0 + j * 3 + k) =
           if decide (i < rows foreground /\ j < cols foreground)
           then get foreground (i * step foreground + j * 4 + k)
           else get o0 (i * step o0 + j * 3 + k).
Proof.
  destruct (for_loop_inv (fun y t => scanned y 0 0 t) 0 (rows background)
    (fun y output =>
      let fY := y - 0 in
      let* output :=
        for_loop 0 (cols background) (fun x output =>
          let fX := x - 0 in
          if (0 <=? fX) && (fX <? cols foreground)
             && (0 <=? fY) && (fY <? rows foreground)
          then
            let* output :=
              blend_pixel background foreground x y fX fY output in
            ret (Continue output)
          else ret (Continue output)) output in
      ret (Continue output)) o0) as (o & Ho & Hh & Hp & Hn).
  - apply background_wf.
  - split; [apply same_header_refl|]. split.
    + intros i j k Hi Hj Hk Hpt. unfold painted in Hpt. lia.
    + reflexivity.
  - intros y t Hy Ht. cbv beta zeta.
    destruct (row_scan_opaque y t Hy Ht) as (t' & Hrow & Ht').
    exists t'. split; [|exact Ht']. cbv beta zeta in Hrow.
    rewrite Hrow, bind_ret_l. reflexivity.
  - exists o. split; [exact Ho|]. split; [exact Hh|].
    intros i j k Hi Hj Hk. case_decide as Hcov.
    + apply Hp; try assumption. unfold painted. lia.
    + apply Hn; try assumption. unfold painted. lia.
Qed.
End Opaque.

(** C3: with the offset (0, 0), a foreground that fits in the background
    and whose alpha is 255 at every pixel, and a background of type
    CV_8UC3, the output of [overlayImage] has the colour bytes of the
    foreground at every coordinate of the foreground and the bytes of the
    background at every other coordinate. *)
Theorem opaque_foreground_replaces_overlap
    (background foreground output : Mat) :
  wf background -> type background = CV_8UC3 ->
  wf foreground -> type foreground = CV_8UC4 ->
  wf output ->
  rows foreground <= rows background -> cols foreground <= cols background ->
  (forall fY fX, 0 <= fY < rows foreground -> 0 <= fX < cols foreground ->
     get foreground (fY * step foreground + fX * 4 + 3) = Some xff) ->
  exists o,
    overlayImage background foreground output (mkPoint 0 0) = ([], Some o)
    /\ rows o = rows background /\ cols o = cols background
    /\ type o = CV_8UC3
    /\ forall y x c, 0 <= y < rows background -> 0 <= x < cols background ->
         0 <= c < 3 ->
         exists v, get o (y * step o + x * 3 + c) = Some v
           /\ if decide (y < rows foreground /\ x < cols foreground)
              then get foreground (y * step foreground + x * 4 + c) = Some v
              else get background (y * step background + x * 3 + c) = Some v.
Proof.
  intros Hbg Hbt Hfg Hft Hout Hrows Hcols Halpha.
  rewrite overlay_scan_equiv
    by (try apply Hbg; try apply Hfg;
        cbn; unfold Int32.min_int, Int32.max_int; lia).
  destruct (copyTo_spec background output Hbg Hout)
    as (o0 & Hcopy & Hr0 & Hc0 & Ht0 & Hf0 & Hbytes).
  unfold elemSize in Hf0, Hbytes. rewrite Hbt in Hf0, Hbytes, Ht0.
  change (CV_ELEM_SIZE CV_8UC3) with 3 in Hf0, Hbytes.
  destruct (scan_opaque background foreground o0)
    as (o & Hscan & (Hr & Hc & Ht & Hs & _) & Hpix); try assumption.
  unfold overlayImage_full_scan. rewrite Hcopy, bind_lift_Some.
  cbn [pt_x pt_y]. exists o. split; [exact Hscan|].
  split; [congruence|]. split; [congruence|]. split; [congruence|].
  intros y x c Hy Hx Hc3. rewrite Hs, Hpix by assumption.
  pose proof (wf_fits_8UC4 foreground Hfg Hft) as Hff.
  pose proof (wf_fits_8UC3 background Hbg Hbt) as Hfb.
  case_decide as Hcov.
  - destruct (get_Some 4 foreground y x c Hff) as [v Hv]; [lia..|].
    exists v. split; exact Hv.
  - destruct (get_Some 3 background y x c Hfb) as [v Hv]; [lia..|].
    exists v. split; [|exact Hv].
    rewrite <- Z.add_assoc, Hbytes by lia. rewrite Z.add_assoc. exact Hv.
Qed.

(** ** The theorems at sample images *)

Ltac by_evaluation := vm_compute; repeat split; easy.

Lemma opaque_foreground_replaces_overlap_witness :
  exists o,
    overlayImage Sample.background_2x3 (Sample.foreground_2x2 xff) Sample.empty
      (mkPoint 0 0) = ([], Some o)
    /\ rows o = 2 /\ cols o = 3 /\ type o = CV_8UC3
    /\ forall y x c, 0 <= y < 2 -> 0 <= x < 3 -> 0 <= c < 3 ->
         exists v, get o (y * step o + x * 3 + c) = Some v
           /\ if decide (y < 2 /\ x < 2)
              then get (Sample.foreground_2x2 xff) (y * 8 + x * 4 + c) = Some v
              else get Sample.background_2x3 (y * 12 + x * 3 + c) = Some v.
Proof.
  apply (opaque_foreground_replaces_overlap Sample.background_2x3
           (Sample.foreground_2x2 xff) Sample.empty);
    try reflexivity; try sample_wf; try by_evaluation.
  intros fY fX HY HX.
  change (rows (Sample.foreground_2x2 xff)) with 2 in HY.
  change (cols (Sample.foreground_2x2 xff)) with 2 in HX.
  assert (fY = 0 \/ fY = 1) as [ -> | -> ] by lia;
    assert (fX = 0 \/ fX = 1) as [ -> | -> ] by lia; reflexivity.
Defined.

Lemma transparent_foreground_keeps_background_witness :
  exists o,
    overlayImage Sample.background_2x3 (Sample.foreground_2x2 x00) Sample.empty
      (mkPoint 1 (-1)) = ([], Some o)
    /\ rows o = 2 /\ cols o = 3 /\ type o = CV_8UC3
    /\ forall y j, 0 <= y < 2 -> 0 <= j < 3 * 3 ->
         exists b, get Sample.background_2x3 (y * 12 + j) = Some b
                   /\ get o (y * step o + j) = Some b.
Proof.
  apply (transparent_foreground_keeps_background Sample.background_2x3
           (Sample.foreground_2x2 x00) Sample.empty (mkPoint 1 (-1)));
    try reflexivity; try sample_wf; try by_evaluation.
  intros fY fX HY HX.
  change (rows (Sample.foreground_2x2 x00)) with 2 in HY.
  change (cols (Sample.foreground_2x2 x00)) with 2 in HX.
  assert (fY = 0 \/ fY = 1) as [ -> | -> ] by lia;
    assert (fX = 0 \/ fX = 1) as [ -> | -> ] by lia; reflexivity.
Defined.

Lemma early_exit_is_full_scan_witness :
  overlayImage Sample.background_2x3 (Sample.foreground_2x2 x80) Sample.empty
    (mkPoint 2 (-1))
  = overlayImage_full_scan Sample.background_2x3 (Sample.foreground_2x2 x80)
      Sample.empty (mkPoint 2 (-1)).
Proof. apply early_exit_is_full_scan; by_evaluation. Defined.

Lemma red_128_scale_20_identity_witness :
  exists o,
    displacementMapFilter Sample.map_4x4 Sample.target_4x4 2 2 20 20 Sample.empty
      = ([], Some o)
    /\ rows o = 4 /\ cols o = 4 /\ type o = CV_8UC4
    /\ forall x y, 0 <= x < 4 -> 0 <= y < 4 ->
         exists v, at4 Sample.target_4x4 x y = Some v /\ at4 o x y = Some v.
Proof.
  apply (red_128_scale_20_identity Sample.map_4x4 Sample.target_4x4 Sample.empty);
    try reflexivity; try sample_wf.
  intros x y Hx Hy.
  assert (x = 0 \/ x = 1 \/ x = 2 \/ x = 3) as [ -> | [ -> | [ -> | -> ] ] ] by lia;
    assert (y = 0 \/ y = 1 \/ y = 2 \/ y = 3) as [ -> | [ -> | [ -> | -> ] ] ] by lia;
    reflexivity.
Defined.

(** * Further properties *)

(** ** The displacement formula *)

Lemma displacement_exact (c : uchar) (s : Z) :
  Z.abs s < 2 ^ 24 -> displacement c s = ((uchar_to_Z c - 128) * s) ÷ 256.
Proof.
  intros Hs. pose proof (uchar_to_Z_range c) as Hc.
  unfold displacement, Int32.div, Int32.mul, Int32.sub.
  rewrite (wrap32_id (uchar_to_Z c - 128))
    by (unfold Int32.in_range, Int32.min_int, Int32.max_int; lia).
  assert (Z.abs ((uchar_to_Z c - 128) * s) <= 128 * Z.abs s) as Hprod.
  { rewrite Z.abs_mul. apply Z.mul_le_mono_nonneg_r; lia. }
  rewrite (wrap32_id (_ * s))
    by (unfold Int32.in_range, Int32.min_int, Int32.max_int; lia).
  apply wrap32_id.
  assert (Z.abs (((uchar_to_Z c - 128) * s) ÷ 256)
          <= Z.abs ((uchar_to_Z c - 128) * s)) as Hq.
  { rewrite <- Z.quot_abs by lia. change (Z.abs 256) with 256.
    rewrite Z.quot_div_nonneg by lia.
    apply Z.div_le_upper_bound; lia. }
  unfold Int32.in_range, Int32.min_int, Int32.max_int. lia.
Qed.

(** X1: a pixel is displaced by at most half the scale: for every component
    and every scale of magnitude below 2^24 (where the [int] product cannot
    overflow), twice the magnitude of the displacement is at most the
    magnitude of the scale. *)
Theorem displacement_at_most_half_scale (c : uchar) (s : Z) :
  Z.abs s < 2 ^ 24 -> 2 * Z.abs (displacement c s) <= Z.abs s.
Proof.
  intros Hs. pose proof (uchar_to_Z_range c) as Hc.
  rewrite displacement_exact by exact Hs.
  rewrite <- Z.quot_abs by lia. change (Z.abs 256) with 256.
  assert (Z.abs ((uchar_to_Z c - 128) * s) <= 128 * Z.abs s) as Hprod.
  { rewrite Z.abs_mul. apply Z.mul_le_mono_nonneg_r; lia. }
  rewrite Z.quot_div_nonneg by lia.
  pose proof (Z.div_le_mono _ _ 256 ltac:(lia) Hprod) as Hdiv.
  assert (128 * Z.abs s / 256 = Z.abs s / 2) as Hhalf.
  { change 256 with (128 * 2). apply Z.div_mul_cancel_l; lia. }
  pose proof (Z.mul_div_le (Z.abs s) 2 ltac:(lia)). lia.
Qed.

Lemma displacement_at_most_half_scale_witness :
  2 * Z.abs (displacement xff 20) <= Z.abs 20
  /\ 2 * Z.abs (displacement x00 (-20)) <= Z.abs (-20).
Proof.
  split; apply displacement_at_most_half_scale; vm_compute; reflexivity.
Defined.

(** X2: a negated scale negates the displacement, the division truncating
    toward zero: [displacement c (- s) = - displacement c s] for every
    component and every scale of magnitude below 2^24. *)
Theorem displacement_negated_scale (c : uchar) (s : Z) :
  Z.abs s < 2 ^ 24 -> displacement c (- s) = - displacement c s.
Proof.
  intros Hs.
  rewrite !displacement_exact by (rewrite ?Z.abs_opp; exact Hs).
  rewrite Z.mul_opp_r. apply Z.quot_opp_l. lia.
Qed.

Lemma displacement_negated_scale_witness :
  displacement xff (- 20) = - displacement xff 20.
Proof. apply (displacement_negated_scale xff 20). vm_compute. reflexivity. Defined.

(** ** displacementMapFilter: every output pixel is pulled from the target *)

Lemma getComponent_component_of (p : Vec3b) (c : Z) :
  0 <= c <= 2 -> getComponent p c = ret (component_of p c).
Proof.
  intros Hc. destruct (getComponent_valid p c Hc) as [v Hv].
  unfold component_of. rewrite Hv. reflexivity.
Qed.

Lemma clamp_range d dim : 0 <= dim -> 0 <= clamp d dim <= dim.
Proof.
  intros Hdim. unfold clamp.
  destruct (Z.ltb_spec d 0); destruct (Z.geb_spec 0 dim);
    destruct (Z.geb_spec d dim); lia.
Qed.

Lemma clamp_below d dim : d < dim -> 0 < dim -> 0 <= clamp d dim < dim.
Proof.
  intros Hd Hdim. unfold clamp.
  destruct (Z.ltb_spec d 0); destruct (Z.geb_spec 0 dim);
    destruct (Z.geb_spec d dim); lia.
Qed.

Lemma clamp_ceiling d dim : 0 <= dim <= d -> clamp d dim = dim.
Proof.
  intros Hd. unfold clamp.
  destruct (Z.ltb_spec d 0); destruct (Z.geb_spec 0 dim);
    destruct (Z.geb_spec d dim); lia.
Qed.

Section RemapGeneral.
Variables (map target : Mat) (componentX componentY scaleX scaleY : Z).
Variable output : Mat.

Hypothesis map_wf : wf map.
Hypothesis map_type : type map = CV_8UC3.
Hypothesis target_wf : wf target.
Hypothesis target_type : type target = CV_8UC4.
Hypothesis same_rows : rows target = rows map.
Hypothesis same_cols : cols target = cols map.
Hypothesis componentX_valid : 0 <= componentX <= 2.
Hypothesis componentY_valid : 0 <= componentY <= 2.
Hypothesis output_wf : wf output.

(** Every read of the target is inside its bytes. *)
Hypothesis reads_defined : forall x y,
  0 <= x < rows target -> 0 <= y < cols target ->
  is_Some (remapped map target componentX componentY scaleX scaleY x y).

Let o0 := create (rows target) (cols target) (type target) output.

Lemma remap_pixel_general x y o :
  same_header o0 o -> 0 <= x < rows target -> 0 <= y < cols target ->
  exists v o',
    remapped map target componentX componentY scaleX scaleY x y = Some v
    /\ (let* px := lift (at3 map x y) in
        let* cx := getComponent px componentX in
        let dx := clamp (Int32.add x (displacement cx scaleX)) (rows o) in
        let* py := lift (at3 map x y) in
        let* cy := getComponent py componentY in
        let dy := clamp (Int32.add y (displacement cy scaleY)) (cols o) in
        let* v := lift (at4 target dx dy) in
        let* output := lift (set4 o x y v) in
        ret (Continue output)) = ret (Continue o')
    /\ set4 o x y v = Some o'.
Proof.
  intros Hh Hx Hy.
  destruct (create_spec (rows target) (cols target) (type target) output)
    as (Hr0 & Hc0 & Ht0 & Hf0);
    [apply target_wf|apply target_wf|rewrite target_type; reflexivity
    |exact output_wf|].
  fold o0 in Hr0, Hc0, Ht0, Hf0. rewrite target_type in Hf0.
  change (CV_ELEM_SIZE CV_8UC4) with 4 in Hf0.
  pose proof (fits_same_header 4 o0 o Hh Hf0) as Hf.
  pose proof Hh as (Hr & Hc & _).
  destruct (reads_defined x y Hx Hy) as [v Hv].
  destruct (at3_Some map x y) as [p Hp];
    [apply wf_fits_8UC3; assumption|lia|lia|].
  destruct (set4_pixels o x y v Hf) as (o' & Hset & _); [lia|lia|].
  exists v, o'. split; [exact Hv|]. split; [|exact Hset].
  unfold remapped in Hv. rewrite Hp in Hv. cbn [mbind option_bind] in Hv.
  unfold source_index in Hv.
  rewrite Hp, bind_lift_Some.
  rewrite (getComponent_component_of p componentX componentX_valid), bind_ret_l.
  rewrite bind_lift_Some.
  rewrite (getComponent_component_of p componentY componentY_valid), bind_ret_l.
  cbv zeta. rewrite Hr, Hr0, Hc, Hc0, Hv, bind_lift_Some, Hset, bind_lift_Some.
  reflexivity.
Qed.

Let rows_done (x : Z) (o : Mat) : Prop :=
  same_header o0 o
  /\ forall x' y', 0 <= x' < x -> 0 <= y' < cols target ->
       at4 o x' y' = remapped map target componentX componentY scaleX scaleY x' y'.

Let cols_done (x y : Z) (o : Mat) : Prop :=
  rows_done x o
  /\ forall y', 0 <= y' < y ->
       at4 o x y' = remapped map target componentX componentY scaleX scaleY x y'.

Lemma remap_general :
  exists o,
    displacementMapFilter map target componentX componentY scaleX scaleY output
      = ([], Some o)
    /\ rows o = rows target /\ cols o = cols target /\ type o = type target
    /\ forall x y, 0 <= x < rows target -> 0 <= y < cols target ->
         at4 o x y = remapped map target componentX componentY scaleX scaleY x y.
Proof.
  destruct (create_spec (rows target) (cols target) (type target) output)
    as (Hr0 & Hc0 & Ht0 & Hf0);
    [apply target_wf|apply target_wf|rewrite target_type; reflexivity
    |exact output_wf|].
  fold o0 in Hr0, Hc0, Ht0, Hf0. rewrite target_type in Hf0.
  change (CV_ELEM_SIZE CV_8UC4) with 4 in Hf0.
  unfold displacementMapFilter.
  replace ((componentX <? 0) || (componentX >? 2)
           || (componentY <? 0) || (componentY >? 2)) with false
    by (symmetry; repeat (apply orb_false_iff; split); lia).
  replace (negb (cols target =? cols map) || negb (rows target =? rows map)
           || negb (type target =? CV_8UC4)) with false
    by (symmetry; repeat (apply orb_false_iff; split);
        apply negb_false_iff; lia).
  fold o0.
  destruct (for_loop_inv rows_done 0 (rows o0)
    (fun x output =>
       let* output :=
         for_loop 0 (cols output) (fun y output =>
           let* px := lift (at3 map x y) in
           let* cx := getComponent px componentX in
           let dx := clamp (Int32.add x (displacement cx scaleX)) (rows output) in
           let* py := lift (at3 map x y) in
           let* cy := getComponent py componentY in
           let dy := clamp (Int32.add y (displacement cy scaleY)) (cols output) in
           let* v := lift (at4 target dx dy) in
           let* output := lift (set4 output x y v) in
           ret (Continue output)) output in
       ret (Continue output)) o0) as (o & Ho & Hh & Hpix).
  - rewrite Hr0. apply target_wf.
  - split; [apply same_header_refl|]. intros x' y' Hx'. lia.
  - intros x o Hx [Hh Hrows]. rewrite Hr0 in Hx.
    pose proof Hh as (Hr & Hc & _).
    destruct (for_loop_inv (cols_done x) 0 (cols o)
      (fun y output =>
         let* px := lift (at3 map x y) in
         let* cx := getComponent px componentX in
         let dx := clamp (Int32.add x (displacement cx scaleX)) (rows output) in
         let* py := lift (at3 map x y) in
         let* cy := getComponent py componentY in
         let dy := clamp (Int32.add y (displacement cy scaleY)) (cols output) in
         let* v := lift (at4 target dx dy) in
         let* output := lift (set4 output x y v) in
         ret (Continue output)) o) as (o' & Ho' & [Hh' Hrows'] & Hcols').
    + rewrite Hc, Hc0. apply target_wf.
    + split; [split; assumption|]. intros y' Hy'. lia.
    + intros y u Hy [[Hhu Hrowsu] Hcolsu]. rewrite Hc, Hc0 in Hy.
      pose proof Hhu as (Hru & Hcu & _).
      destruct (remap_pixel_general x y u Hhu Hx Hy)
        as (v & u' & Hv & Hbody & Hset).
      destruct (set4_pixels u x y v (fits_same_header 4 o0 u Hhu Hf0))
        as (u'' & Hset' & Hhu' & Hsame & Hother); [lia|lia|].
      rewrite Hset in Hset'. injection Hset' as <-.
      exists u'. split; [exact Hbody|].
      split; [split; [eauto using same_header_trans|]|].
      * intros x' y' Hx' Hy'.
        rewrite Hother by (try lia; intros Heq; inversion Heq; lia).
        apply Hrowsu; assumption.
      * intros y' Hy'. destruct (decide (y' = y)) as [ -> | Hne ].
        -- rewrite Hsame, Hv. reflexivity.
        -- rewrite Hother by (try lia; intros Heq; inversion Heq; lia).
           apply Hcolsu. lia.
    + exists o'. rewrite Ho', bind_ret_l. split; [reflexivity|].
      split; [exact Hh'|]. intros x' y' Hx' Hy'.
      destruct (decide (x' = x)) as [ -> | Hne ].
      * apply Hcols'. rewrite Hc, Hc0. lia.
      * apply Hrows'; lia.
  - exists o. split; [exact Ho|]. destruct Hh as (Hr & Hc & Ht & _).
    split; [congruence|]. split; [congruence|]. split; [congruence|].
    intros x y Hx Hy. apply Hpix; [rewrite Hr0|]; lia.
Qed.
End RemapGeneral.

(** X3: [displacementMapFilter] pulls every output pixel from the target.
    When the target pixel at each computed source coordinate exists, the
    call prints nothing and its output has the target's shape and type and,
    at every [(x, y)], the target pixel at the clamped displaced
    coordinate [remapped]. *)
Theorem displacementMapFilter_pulls_from_target (map target : Mat)
    (componentX componentY scaleX scaleY : Z) (output : Mat) :
  wf map -> type map = CV_8UC3 ->
  wf target -> type target = CV_8UC4 ->
  rows target = rows map -> cols target = cols map ->
  0 <= componentX <= 2 -> 0 <= componentY <= 2 ->
  wf output ->
  (forall x y, 0 <= x < rows target -> 0 <= y < cols target ->
     is_Some (remapped map target componentX componentY scaleX scaleY x y)) ->
  exists o,
    displacementMapFilter map target componentX componentY scaleX scaleY output
      = ([], Some o)
    /\ rows o = rows target /\ cols o = cols target /\ type o = type target
    /\ forall x y, 0 <= x < rows target -> 0 <= y < cols target ->
         at4 o x y = remapped map target componentX componentY scaleX scaleY x y.
Proof. intros. apply remap_general; assumption. Qed.

Ltac four_pixels x y Hx Hy :=
  assert (x = 0 \/ x = 1) as [ -> | -> ] by (cbn in Hx; lia);
  assert (y = 0 \/ y = 1) as [ -> | -> ] by (cbn in Hy; lia).

Lemma displacementMapFilter_pulls_from_target_witness :
  exists o,
    displacementMapFilter Sample2.swap_map_2x2 Sample.target_2x2 2 1 20 20
      Sample.empty = ([], Some o)
    /\ rows o = 2 /\ cols o = 2 /\ type o = CV_8UC4
    /\ forall x y, 0 <= x < 2 -> 0 <= y < 2 ->
         at4 o x y = remapped Sample2.swap_map_2x2 Sample.target_2x2 2 1 20 20 x y.
Proof.
  apply (displacementMapFilter_pulls_from_target Sample2.swap_map_2x2
           Sample.target_2x2 2 1 20 20 Sample.empty);
    [sample_wf|reflexivity|sample_wf|reflexivity|reflexivity|reflexivity
    |lia|lia|sample_wf|].
  intros x y Hx Hy. four_pixels x y Hx Hy; eexists; vm_compute; reflexivity.
Defined.

(** X4: the call is safe when no displaced coordinate reaches the
    dimension.  If at every pixel the displaced row is below [rows] and the
    displaced column below [cols], every source coordinate is a valid index
    and every output pixel is the target pixel there. *)
Theorem displacementMapFilter_in_bounds (map target : Mat)
    (componentX componentY scaleX scaleY : Z) (output : Mat) :
  wf map -> type map = CV_8UC3 ->
  wf target -> type target = CV_8UC4 ->
  rows target = rows map -> cols target = cols map ->
  0 <= componentX <= 2 -> 0 <= componentY <= 2 ->
  wf output ->
  (forall x y p, 0 <= x < rows target -> 0 <= y < cols target ->
     at3 map x y = Some p ->
     Int32.add x (displacement (component_of p componentX) scaleX) < rows target
     /\ Int32.add y (displacement (component_of p componentY) scaleY) < cols target) ->
  exists o,
    displacementMapFilter map target componentX componentY scaleX scaleY output
      = ([], Some o)
    /\ forall x y, 0 <= x < rows target -> 0 <= y < cols target ->
         exists p v,
           at3 map x y = Some p
           /\ 0 <= source_index p componentX scaleX x (rows target) < rows target
           /\ 0 <= source_index p componentY scaleY y (cols target) < cols target
           /\ at4 target (source_index p componentX scaleX x (rows target))
                         (source_index p componentY scaleY y (cols target)) = Some v
           /\ at4 o x y = Some v.
Proof.
  intros Hmap Hmt Htarget Htt Hrows Hcols HcX HcY Hout Hin.
  assert (forall x y, 0 <= x < rows target -> 0 <= y < cols target ->
    exists p v,
      at3 map x y = Some p
      /\ 0 <= source_index p componentX scaleX x (rows target) < rows target
      /\ 0 <= source_index p componentY scaleY y (cols target) < cols target
      /\ at4 target (source_index p componentX scaleX x (rows target))
                    (source_index p componentY scaleY y (cols target)) = Some v)
    as Hsrc.
  { intros x y Hx Hy.
    destruct (at3_Some map x y) as [p Hp];
      [apply wf_fits_8UC3; assumption|lia|lia|].
    destruct (Hin x y p Hx Hy Hp) as [Hdx Hdy].
    pose proof (clamp_below _ _ Hdx ltac:(lia)) as Hsx.
    pose proof (clamp_below _ _ Hdy ltac:(lia)) as Hsy.
    destruct (at4_Some target _ _ (wf_fits_8UC4 target Htarget Htt) Hsx Hsy)
      as [v Hv].
    exists p, v. repeat (split; [assumption|]). exact Hv. }
  destruct (remap_general map target componentX componentY scaleX scaleY output)
    as (o & Ho & _ & _ & _ & Hpix); try assumption.
  { intros x y Hx Hy. destruct (Hsrc x y Hx Hy) as (p & v & Hp & _ & _ & Hv).
    exists v. unfold remapped. rewrite Hp. exact Hv. }
  exists o. split; [exact Ho|]. intros x y Hx Hy.
  destruct (Hsrc x y Hx Hy) as (p & v & Hp & Hsx & Hsy & Hv).
  exists p, v. repeat (split; [assumption|]).
  rewrite Hpix by assumption. unfold remapped. rewrite Hp. exact Hv.
Qed.

Lemma displacementMapFilter_in_bounds_witness :
  exists o,
    displacementMapFilter Sample2.swap_map_2x2 Sample.target_2x2 2 1 20 20
      Sample.empty = ([], Some o)
    /\ forall x y, 0 <= x < 2 -> 0 <= y < 2 ->
         exists p v,
           at3 Sample2.swap_map_2x2 x y = Some p
           /\ 0 <= source_index p 2 20 x 2 < 2
           /\ 0 <= source_index p 1 20 y 2 < 2
           /\ at4 Sample.target_2x2 (source_index p 2 20 x 2)
                                    (source_index p 1 20 y 2) = Some v
           /\ at4 o x y = Some v.
Proof.
  apply (displacementMapFilter_in_bounds Sample2.swap_map_2x2
           Sample.target_2x2 2 1 20 20 Sample.empty);
    [sample_wf|reflexivity|sample_wf|reflexivity|reflexivity|reflexivity
    |lia|lia|sample_wf|].
  intros x y p Hx Hy. four_pixels x y Hx Hy; intros [= <-]; vm_compute; easy.
Defined.

(** ** displacementMapFilter: reads past the last row *)

Lemma snd_bind_Some {A B} (m : M A) (f : A -> M B) (r : B) :
  snd (bind m f) = Some r -> exists a, snd m = Some a /\ snd (f a) = Some r.
Proof.
  destruct m as [l [a|]]; cbn [bind]; [|discriminate].
  intros H. exists a. split; [reflexivity|].
  destruct (f a) as [l' r']. exact H.
Qed.

Lemma snd_bind_None_l {A B} (m : M A) (f : A -> M B) :
  snd m = None -> snd (bind m f) = None.
Proof. destruct m as [l [a|]]; [discriminate|reflexivity]. Qed.

Lemma snd_bind_None_r {A B} (m : M A) (f : A -> M B) :
  (forall a, snd m = Some a -> snd (f a) = None) -> snd (bind m f) = None.
Proof.
  destruct m as [l [a|]]; cbn [bind]; [|reflexivity].
  intros H. specialize (H a eq_refl). destruct (f a) as [l' r']. exact H.
Qed.

(** A loop whose body never breaks has no result once one of its
    iterations has none. *)
Lemma for_n_undefined {S} (P : S -> Prop) n i j
    (body : Z -> S -> M (ctl S)) s :
  i <= j < i + Z.of_nat n -> P s ->
  (forall k t r, P t -> snd (body k t) = Some r ->
     exists t', r = Continue t' /\ P t') ->
  (forall t, P t -> snd (body j t) = None) ->
  snd (for_n n i body s) = None.
Proof.
  revert i s. induction n as [|n IH]; intros i s Hj Hs Hcont Hfail; [lia|].
  cbn [for_n]. destruct (decide (i = j)) as [ -> | Hne ].
  - apply snd_bind_None_l. apply Hfail. exact Hs.
  - apply snd_bind_None_r. intros r Hr.
    destruct (Hcont i s r Hs Hr) as (t' & -> & Ht').
    apply IH; try assumption. lia.
Qed.

Lemma set_header m i b m' :
  set m i b = Some m' -> rows m' = rows m /\ cols m' = cols m.
Proof.
  unfold set. destruct (store (data m) i b); [|discriminate].
  intros [= <-]. split; reflexivity.
Qed.

Lemma set4_header m i j v m' :
  set4 m i j v = Some m' -> rows m' = rows m /\ cols m' = cols m.
Proof.
  destruct v as [[[b0 b1] b2] b3]. unfold set4.
  destruct (set m (i * step m + j * 4) b0) as [m0|] eqn:E0; [|discriminate].
  cbn [mbind option_bind].
  destruct (set m0 (i * step m + j * 4 + 1) b1) as [m1|] eqn:E1; [|discriminate].
  cbn [mbind option_bind].
  destruct (set m1 (i * step m + j * 4 + 2) b2) as [m2|] eqn:E2; [|discriminate].
  cbn [mbind option_bind]. intros E3.
  apply set_header in E0, E1, E2, E3. intuition congruence.
Qed.

Lemma at4_past_last_row m i j :
  0 <= step m -> Z.of_nat (length (data m)) <= i * step m -> 0 <= j ->
  at4 m i j = None.
Proof.
  intros Hstep Hlen Hj. unfold at4.
  assert (get m (i * step m + j * 4) = None) as ->; [|reflexivity].
  unfold get, load. case_decide; [|reflexivity].
  apply lookup_ge_None_2. lia.
Qed.

Lemma for_n_keeps {S} (P : S -> Prop) n i (body : Z -> S -> M (ctl S)) s s' :
  P s ->
  (forall k t r, P t -> snd (body k t) = Some r ->
     exists t', r = Continue t' /\ P t') ->
  snd (for_n n i body s) = Some s' -> P s'.
Proof.
  revert i s. induction n as [|n IH]; intros i s Hs Hcont Hres.
  - cbn in Hres. congruence.
  - cbn [for_n] in Hres. apply snd_bind_Some in Hres as (r & Hr & Hres).
    destruct (Hcont i s r Hs Hr) as (t' & -> & Ht').
    eapply IH; eassumption.
Qed.

Lemma create_shape r c t m :
  rows (create r c t m) = r /\ cols (create r c t m) = c.
Proof.
  unfold create.
  destruct ((rows m =? r) && (cols m =? c) && (type m =? t)
            && negb (Nat.eqb (length (data m)) 0)) eqn:Hsame;
    [|split; reflexivity].
  apply andb_true_iff in Hsame as [Hsame _].
  apply andb_true_iff in Hsame as [Hsame _].
  apply andb_true_iff in Hsame as [Hr Hc]. lia.
Qed.

Section Overshoot.
Variables (map target : Mat) (componentX componentY scaleX scaleY : Z).

Hypothesis componentX_valid : 0 <= componentX <= 2.
Hypothesis componentY_valid : 0 <= componentY <= 2.

Let same_shape (o : Mat) : Prop :=
  rows o = rows target /\ cols o = cols target.

(** An iteration of the inner loop that has a result continues with a
    matrix of the same shape. *)
Lemma remap_body_continues x y o r :
  same_shape o ->
  snd (let* px := lift (at3 map x y) in
       let* cx := getComponent px componentX in
       let dx := clamp (Int32.add x (displacement cx scaleX)) (rows o) in
       let* py := lift (at3 map x y) in
       let* cy := getComponent py componentY in
       let dy := clamp (Int32.add y (displacement cy scaleY)) (cols o) in
       let* v := lift (at4 target dx dy) in
       let* output := lift (set4 o x y v) in
       ret (Continue output)) = Some r ->
  exists o', r = Continue o' /\ same_shape o'.
Proof.
  intros [Hr Hc] H.
  apply snd_bind_Some in H as (px & _ & H).
  apply snd_bind_Some in H as (cx & _ & H). cbv zeta in H.
  apply snd_bind_Some in H as (py & _ & H).
  apply snd_bind_Some in H as (cy & _ & H).
  apply snd_bind_Some in H as (v & _ & H).
  apply snd_bind_Some in H as (o' & Hset & H).
  cbn in Hset, H. injection H as <-.
  apply set4_header in Hset as [Hr' Hc'].
  exists o'. split; [reflexivity|]. split; congruence.
Qed.

Lemma remap_row_continues x o r :
  same_shape o ->
  snd (let* output :=
         for_loop 0 (cols o) (fun y output =>
           let* px := lift (at3 map x y) in
           let* cx := getComponent px componentX in
           let dx := clamp (Int32.add x (displacement cx scaleX)) (rows output) in
           let* py := lift (at3 map x y) in
           let* cy := getComponent py componentY in
           let dy := clamp (Int32.add y (displacement cy scaleY)) (cols output) in
           let* v := lift (at4 target dx dy) in
           let* output := lift (set4 output x y v) in
           ret (Continue output)) o in
       ret (Continue output)) = Some r ->
  exists o', r = Continue o' /\ same_shape o'.
Proof.
  intros Ho H. apply snd_bind_Some in H as (o' & Hloop & H).
  cbn in H. injection H as <-. exists o'. split; [reflexivity|].
  unfold for_loop in Hloop. revert Hloop. apply for_n_keeps; [exact Ho|].
  intros y t r Ht. apply remap_body_continues. exact Ht.
Qed.

Variables (x y : Z) (p : Vec3b).
Hypothesis x_inside : 0 <= x < rows target.
Hypothesis y_inside : 0 <= y < cols target.
Hypothesis map_pixel : at3 map x y = Some p.
Hypothesis same_rows : rows target = rows map.
Hypothesis same_cols : cols target = cols map.
Hypothesis target_type : type target = CV_8UC4.
Hypothesis target_step : 0 <= step target.
Hypothesis target_ends : Z.of_nat (length (data target)) <= rows target * step target.
Hypothesis overshoot :
  rows target <= Int32.add x (displacement (component_of p componentX) scaleX).

Lemma remap_overshoot (output : Mat) :
  snd (displacementMapFilter map target componentX componentY scaleX scaleY
         output) = None.
Proof.
  unfold displacementMapFilter.
  replace ((componentX <? 0) || (componentX >? 2)
           || (componentY <? 0) || (componentY >? 2)) with false
    by (symmetry; repeat (apply orb_false_iff; split); lia).
  replace (negb (cols target =? cols map) || negb (rows target =? rows map)
           || negb (type target =? CV_8UC4)) with false
    by (symmetry; repeat (apply orb_false_iff; split);
        apply negb_false_iff; lia).
  destruct (create_shape (rows target) (cols target) (type target) output)
    as [Hr0 Hc0].
  set (o0 := create (rows target) (cols target) (type target) output) in *.
  unfold for_loop at 1.
  apply (for_n_undefined same_shape) with (j := x).
  - rewrite Hr0. lia.
  - split; assumption.
  - intros k t r Ht. apply remap_row_continues. exact Ht.
  - intros t [Hr Hc]. apply snd_bind_None_l. unfold for_loop.
    apply (for_n_undefined same_shape) with (j := y).
    + rewrite Hc. lia.
    + split; assumption.
    + intros k u r Hu. apply remap_body_continues. exact Hu.
    + intros u [Hru Hcu]. rewrite map_pixel, bind_lift_Some.
      rewrite (getComponent_component_of p componentX componentX_valid), bind_ret_l.
      rewrite bind_lift_Some.
      rewrite (getComponent_component_of p componentY componentY_valid), bind_ret_l.
      cbv zeta. rewrite Hru, Hcu.
      rewrite (clamp_ceiling _ (rows target)) by lia.
      rewrite at4_past_last_row; [reflexivity|exact target_step|exact target_ends|].
      apply clamp_range. lia.
Qed.
End Overshoot.

(** X5: a row displaced to or past the last row makes the call read outside
    the target.  For a target that owns no bytes past its last row, if the
    displaced row of some pixel reaches [rows], the clamp leaves it at
    [rows] and [displacementMapFilter] has no defined result, whatever the
    other pixels hold. *)
Theorem displacementMapFilter_row_overshoot (map target : Mat)
    (componentX componentY scaleX scaleY : Z) (output : Mat)
    (x y : Z) (p : Vec3b) :
  0 <= componentX <= 2 -> 0 <= componentY <= 2 ->
  rows target = rows map -> cols target = cols map ->
  type target = CV_8UC4 ->
  0 <= step target ->
  Z.of_nat (length (data target)) <= rows target * step target ->
  0 <= x < rows target -> 0 <= y < cols target ->
  at3 map x y = Some p ->
  rows target <= Int32.add x (displacement (component_of p componentX) scaleX) ->
  snd (displacementMapFilter map target componentX componentY scaleX scaleY
         output) = None.
Proof. intros. eapply remap_overshoot; eassumption. Qed.

Lemma displacementMapFilter_row_overshoot_witness :
  snd (displacementMapFilter Sample.map_2x2 Sample.target_2x2 2 2 20 20
         Sample.empty) = None.
Proof.
  apply (displacementMapFilter_row_overshoot Sample.map_2x2 Sample.target_2x2
           2 2 20 20 Sample.empty 1 1 (xa0, xb0, xc0));
    vm_compute; repeat split; easy.
Defined.

(** ** displacementMapFilter: columns past the last column *)

Lemma at4_next_row m i :
  step m = cols m * 4 -> at4 m i (cols m) = at4 m (i + 1) 0.
Proof.
  intros Hstep. unfold at4.
  replace ((i + 1) * step m + 0 * 4) with (i * step m + cols m * 4) by lia.
  reflexivity.
Qed.

(** X6: a column displaced to or past the last column shows the first pixel
    of the next row.  With a target whose rows follow one another without
    padding, whenever the call is defined, an output pixel whose displaced
    column reaches [cols] is the target pixel in column 0 of the row after
    its source row. *)
Theorem displacementMapFilter_column_overshoot (map target : Mat)
    (componentX componentY scaleX scaleY : Z) (output : Mat)
    (x y : Z) (p : Vec3b) :
  wf map -> type map = CV_8UC3 ->
  wf target -> type target = CV_8UC4 ->
  rows target = rows map -> cols target = cols map ->
  0 <= componentX <= 2 -> 0 <= componentY <= 2 ->
  wf output ->
  (forall x y, 0 <= x < rows target -> 0 <= y < cols target ->
     is_Some (remapped map target componentX componentY scaleX scaleY x y)) ->
  step target = cols target * 4 ->
  0 <= x < rows target -> 0 <= y < cols target ->
  at3 map x y = Some p ->
  cols target <= Int32.add y (displacement (component_of p componentY) scaleY) ->
  exists o,
    displacementMapFilter map target componentX componentY scaleX scaleY output
      = ([], Some o)
    /\ at4 o x y
       = at4 target (source_index p componentX scaleX x (rows target) + 1) 0.
Proof.
  intros Hmap Hmt Htarget Htt Hrows Hcols HcX HcY Hout Hdef Hstep Hx Hy Hp Hover.
  destruct (remap_general map target componentX componentY scaleX scaleY output)
    as (o & Ho & _ & _ & _ & Hpix); try assumption.
  exists o. split; [exact Ho|].
  rewrite Hpix by assumption. unfold remapped. rewrite Hp.
  cbn [mbind option_bind].
  unfold source_index at 2. rewrite clamp_ceiling by lia.
  apply at4_next_row. exact Hstep.
Qed.

Lemma displacementMapFilter_column_overshoot_witness :
  exists o,
    displacementMapFilter Sample2.push_right_map_2x2 Sample.target_2x2 2 1 20 20
      Sample.empty = ([], Some o)
    /\ at4 o 0 0 = at4 Sample.target_2x2 (source_index (x00, x9a, x80) 2 20 0 2 + 1) 0.
Proof.
  apply (displacementMapFilter_column_overshoot Sample2.push_right_map_2x2
           Sample.target_2x2 2 1 20 20 Sample.empty 0 0 (x00, x9a, x80));
    [sample_wf|reflexivity|sample_wf|reflexivity|reflexivity|reflexivity
    |lia|lia|sample_wf| |reflexivity|by_evaluation|by_evaluation|reflexivity
    |by_evaluation].
  intros x y Hx Hy. four_pixels x y Hx Hy; eexists; vm_compute; reflexivity.
Defined.

(** * overlayImage: further properties *)

Lemma copyTo_bytes background output o :
  wf background -> wf output -> copyTo background output = Some o ->
  rows o = rows background /\ cols o = cols background
  /\ type o = type background
  /\ forall y j, 0 <= y < rows background ->
       0 <= j < cols background * elemSize background ->
       exists b, get background (y * step background + j) = Some b
                 /\ get o (y * step o + j) = Some b.
Proof.
  intros Hbg Hout Hcopy.
  destruct (copyTo_spec background output Hbg Hout)
    as (o' & Hcopy' & Hr & Hc & Ht & _ & Hbytes).
  rewrite Hcopy in Hcopy'. injection Hcopy' as <-.
  repeat (split; [assumption|]).
  intros y j Hy Hj. rewrite Hbytes by assumption.
  destruct (load_Some (data background) (y * step background + j)) as [b Hb].
  { pose proof (wf_fits background Hbg (CV_ELEM_SIZE_pos _)) as (Hes & Hstep & Hdata).
    specialize (Hdata ltac:(lia)).
    assert (y * step background <= (rows background - 1) * step background) by nia.
    assert (0 <= step background) by nia.
    assert (0 <= y * step background) by nia. lia. }
  exists b. split; exact Hb.
Qed.

Lemma overlay_apart (background foreground output : Mat)
    (location : Point2i) :
  rows background <= Int32.max_int -> cols background <= Int32.max_int ->
  0 <= rows foreground <= Int32.max_int ->
  0 <= cols foreground <= Int32.max_int ->
  Int32.min_int < pt_x location <= Int32.max_int ->
  Int32.min_int < pt_y location <= Int32.max_int ->
  cols background <= pt_x location \/ rows background <= pt_y location
  \/ pt_x location + cols foreground <= 0
  \/ pt_y location + rows foreground <= 0 ->
  overlayImage background foreground output location
  = lift (copyTo background output).
Proof.
  intros Hbr Hbc Hfr Hfc Hlx Hly Hapart.
  rewrite overlay_scan_equiv by assumption.
  unfold overlayImage_full_scan.
  destruct (copyTo background output) as [o|]; [|reflexivity].
  rewrite bind_lift_Some.
  apply for_loop_noop. intros y t Hy. cbv zeta.
  rewrite for_loop_noop; [rewrite bind_ret_l; reflexivity|].
  intros x u Hx. cbv zeta.
  destruct ((0 <=? x - pt_x location) && (x - pt_x location <? cols foreground)
            && (0 <=? y - pt_y location)
            && (y - pt_y location <? rows foreground)) eqn:Hin;
    [|reflexivity].
  apply andb_true_iff in Hin as [Hin H4]. apply andb_true_iff in Hin as [Hin H3].
  apply andb_true_iff in Hin as [H1 H2]. lia.
Qed.

(** X7: a foreground that lies wholly outside the background, or has no
    rows or no columns under it, is never read.  For every background that
    is not empty, every foreground whose dimensions are [int]s, even one
    without bytes, and every offset whose coordinates are [int]s above the
    least [int], the output is the copy of the background.  (At the least
    [int] the subtraction [y - location.y] overflows, as
    [offset_at_min_int] shows.) *)
Theorem overlayImage_no_overlap (background foreground output : Mat)
    (location : Point2i) :
  wf background -> 0 < rows background -> 0 < cols background ->
  wf output ->
  0 <= rows foreground <= Int32.max_int ->
  0 <= cols foreground <= Int32.max_int ->
  Int32.min_int < pt_x location <= Int32.max_int ->
  Int32.min_int < pt_y location <= Int32.max_int ->
  cols background <= pt_x location \/ rows background <= pt_y location
  \/ pt_x location + cols foreground <= 0
  \/ pt_y location + rows foreground <= 0 ->
  exists o,
    overlayImage background foreground output location = ([], Some o)
    /\ rows o = rows background /\ cols o = cols background
    /\ type o = type background
    /\ forall y j, 0 <= y < rows background ->
         0 <= j < cols background * elemSize background ->
         exists b, get background (y * step background + j) = Some b
                   /\ get o (y * step o + j) = Some b.
Proof.
  intros Hbg _ _ Hout Hfr Hfc Hlx Hly Hapart.
  rewrite overlay_apart by (assumption || apply Hbg).
  destruct (copyTo_spec background output Hbg Hout) as (o & Hcopy & _).
  exists o. split; [rewrite Hcopy; reflexivity|].
  exact (copyTo_bytes background output o Hbg Hout Hcopy).
Qed.

Lemma overlayImage_no_overlap_witness :
  exists o,
    overlayImage Sample.background_2x3 Sample.empty Sample.empty (mkPoint 0 0)
      = ([], Some o)
    /\ rows o = 2 /\ cols o = 3 /\ type o = CV_8UC3
    /\ forall y j, 0 <= y < 2 -> 0 <= j < 3 * 3 ->
         exists b, get Sample.background_2x3 (y * 12 + j) = Some b
                   /\ get o (y * step o + j) = Some b.
Proof.
  apply (overlayImage_no_overlap Sample.background_2x3 Sample.empty Sample.empty
           (mkPoint 0 0));
    [sample_wf|reflexivity|reflexivity|sample_wf|by_evaluation|by_evaluation
    |by_evaluation|by_evaluation|].
  right. right. left. reflexivity.
Defined.

(** ** Every output byte is the blend of its background and foreground byte *)

Section Blend.
Variables (background foreground o0 : Mat) (location : Point2i).

Hypothesis background_wf : wf background.
Hypothesis background_type : type background = CV_8UC3.
Hypothesis foreground_wf : wf foreground.
Hypothesis foreground_type : type foreground = CV_8UC4.

(** [o0] is the copy of the background the scan starts from. *)
Hypothesis o0_rows : rows o0 = rows background.
Hypothesis o0_cols : cols o0 = cols background.
Hypothesis o0_type : type o0 = CV_8UC3.
Hypothesis o0_fits : fits 3 o0.
Hypothesis o0_bytes : forall i j k,
  0 <= i < rows background -> 0 <= j < cols background -> 0 <= k < 3 ->
  get o0 (i * step o0 + j * 3 + k)
  = get background (i * step background + j * 3 + k).

Let painted (y x c i j k : Z) : Prop :=
  covered foreground location j i
  /\ (i < y \/ (i = y /\ (j < x \/ (j = x /\ k < c)))).

Let blended (o : Mat) (i j k : Z) : Prop :=
  exists a b f,
    get foreground ((i - pt_y location) * step foreground + (j - pt_x location) * 4 + 3) = Some a
    /\ get background (i * step background + j * 3 + k) = Some b
    /\ get foreground ((i - pt_y location) * step foreground + (j - pt_x location) * 4 + k) = Some f
    /\ get o (i * step o0 + j * 3 + k) = Some (blend a b f).

Let scanned (y x c : Z) (o : Mat) : Prop :=
  same_header o0 o
  /\ (forall i j k, 0 <= i < rows background -> 0 <= j < cols background ->
        0 <= k < 3 -> painted y x c i j k -> blended o i j k)
  /\ (forall i j k, 0 <= i < rows background -> 0 <= j < cols background ->
        0 <= k < 3 -> ~ painted y x c i j k ->
        get o (i * step o0 + j * 3 + k) = get o0 (i * step o0 + j * 3 + k)).

Lemma scanned_shift_general y x c y' x' c' o :
  (forall i j k, 0 <= i < rows background -> 0 <= j < cols background ->
     0 <= k < 3 -> painted y x c i j k <-> painted y' x' c' i j k) ->
  scanned y x c o -> scanned y' x' c' o.
Proof.
  intros Hiff (Hh & Hp & Hn). split; [exact Hh|]. split.
  - intros i j k Hi Hj Hk Hpt. apply Hp; try assumption.
    apply Hiff; assumption.
  - intros i j k Hi Hj Hk Hpt. apply Hn; try assumption.
    intros Hpt'. apply Hpt. apply Hiff; assumption.
Qed.

Lemma blend_channel_general x y c o a :
  0 <= y < rows background -> 0 <= x < cols background ->
  covered foreground location x y -> 0 <= c < 3 ->
  get foreground ((y - pt_y location) * step foreground + (x - pt_x location) * 4 + 3) = Some a ->
  Double.ltb Double.zero (opacity a) = true ->
  scanned y x c o ->
  exists o',
    (let* foregroundPx :=
       lift (get foreground
               ((y - pt_y location) * step foreground
                + Int32.mul (x - pt_x location) (channels foreground) + c)) in
     let* backgroundPx :=
       lift (get background
               (y * step background + Int32.mul x (channels background) + c)) in
     let v :=
       Double.add
         (Double.mul (Double.of_Z (uchar_to_Z backgroundPx))
                     (Double.sub (Double.of_Z 1) (opacity a)))
         (Double.mul (Double.of_Z (uchar_to_Z foregroundPx)) (opacity a)) in
     let* output :=
       lift (set o (y * step o + Int32.mul (channels o) x + c)
               (uchar_of_Z (Double.trunc v))) in
     ret (Continue output)) = ret (Continue o')
    /\ scanned y x (c + 1) o'.
Proof.
  intros Hy Hx [Hcx Hcy] Hc Ha Hlt (Hh & Hp & Hn).
  pose proof (wf_fits_8UC4 foreground foreground_wf foreground_type) as Hff.
  pose proof (wf_fits_8UC3 background background_wf background_type) as Hfb.
  pose proof (fits_same_header 3 o0 o Hh o0_fits) as Hfo.
  pose proof Hh as (Hr & Hc' & Ht & Hs & Hl).
  pose proof (wf_row_bytes background background_wf) as Hbytes.
  unfold elemSize in Hbytes. rewrite background_type in Hbytes.
  change (CV_ELEM_SIZE CV_8UC3) with 3 in Hbytes.
  rewrite (wf_8UC4_mul foreground (x - pt_x location)) by assumption.
  destruct (mul_channels_8UC3 background x) as [-> _]; [assumption|lia|lia|].
  destruct (mul_channels_8UC3 o x) as [_ ->]; [congruence|lia|lia|].
  destruct (get_Some 4 foreground (y - pt_y location) (x - pt_x location) c Hff) as [f Hf]; [lia..|].
  destruct (get_Some 3 background y x c Hfb) as [b Hb]; [lia..|].
  rewrite Hf, bind_lift_Some, Hb, bind_lift_Some. cbv zeta.
  assert (uchar_of_Z (Double.trunc
            (Double.add
               (Double.mul (Double.of_Z (uchar_to_Z b))
                           (Double.sub (Double.of_Z 1) (opacity a)))
               (Double.mul (Double.of_Z (uchar_to_Z f)) (opacity a))))
          = blend a b f) as ->.
  { unfold blend. rewrite Hlt. reflexivity. }
  destruct (set_spec o (y * step o + x * 3 + c) (blend a b f))
    as (o' & Hset & Hh' & Hget).
  { apply (addr_in_bounds 3 o y x c Hfo); lia. }
  rewrite Hset, bind_lift_Some. exists o'. split; [reflexivity|].
  assert (forall i j k, 0 <= i < rows background -> 0 <= j < cols background ->
            0 <= k < 3 -> (i, j, k) <> (y, x, c) ->
            get o' (i * step o0 + j * 3 + k) = get o (i * step o0 + j * 3 + k))
    as Hother.
  { intros i j k Hi Hj Hk Hne. rewrite Hget, decide_False; [reflexivity|].
    intros Heq. apply Hne. rewrite <- Hs in Heq.
    destruct (addr_inj 3 o i j k y x c Hfo) as (-> & -> & ->);
      try lia; reflexivity. }
  split; [eauto using same_header_trans|]. split.
  - intros i j k Hi Hj Hk Hpt.
    destruct (decide ((i, j, k) = (y, x, c))) as [Heq|Hne].
    + injection Heq as -> -> ->. exists a, b, f.
      repeat (split; [assumption|]).
      rewrite Hget, Hs, decide_True by reflexivity. reflexivity.
    + destruct (Hp i j k Hi Hj Hk) as (a' & b' & f' & Ha' & Hb' & Hf' & Ho').
      { unfold painted, covered in *.
        assert (~ (i = y /\ j = x /\ k = c)) by (intros (-> & -> & ->); auto).
        lia. }
      exists a', b', f'. repeat (split; [assumption|]).
      rewrite Hother by assumption. exact Ho'.
  - intros i j k Hi Hj Hk Hpt.
    rewrite Hother; [apply Hn; try assumption|assumption..|].
    + unfold painted, covered in *. lia.
    + intros [= -> -> ->]. apply Hpt. unfold painted, covered. lia.
Qed.

Lemma blend_pixel_general x y o :
  0 <= y < rows background -> 0 <= x < cols background ->
  covered foreground location x y ->
  scanned y x 0 o ->
  exists o', blend_pixel background foreground x y (x - pt_x location) (y - pt_y location) o = ret o'
             /\ scanned y x 3 o'.
Proof.
  intros Hy Hx Hcov Hs. pose proof Hcov as [Hcx Hcy].
  pose proof (wf_fits_8UC4 foreground foreground_wf foreground_type) as Hff.
  pose proof (wf_fits_8UC3 background background_wf background_type) as Hfb.
  destruct (get_Some 4 foreground (y - pt_y location) (x - pt_x location) 3 Hff) as [a Ha]; [lia..|].
  unfold blend_pixel.
  assert (get foreground
            ((y - pt_y location) * step foreground
             + Int32.mul (x - pt_x location) (channels foreground) + 3) = Some a) as ->.
  { rewrite wf_8UC4_mul by assumption. exact Ha. }
  rewrite bind_lift_Some. cbv zeta. fold (opacity a).
  destruct (Double.ltb Double.zero (opacity a)) eqn:Hlt.
  - replace (channels o) with 3.
    2:{ destruct Hs as ((_ & _ & Ht & _) & _). unfold channels.
        rewrite Ht, o0_type. reflexivity. }
    apply (for_loop_inv (fun c t => scanned y x c t)); [lia|exact Hs|].
    intros c t Hc Ht. cbv beta. cbn [negb].
    apply blend_channel_general; assumption.
  - exists o. split.
    + apply for_loop_break_first. intros t. reflexivity.
    + destruct Hs as (Hh & Hp & Hn). split; [exact Hh|]. split.
      * intros i j k Hi Hj Hk Hpt.
        destruct (decide (i = y /\ j = x)) as [[-> ->]|Hne].
        -- destruct (get_Some 4 foreground (y - pt_y location) (x - pt_x location) k Hff)
             as [f Hf]; [lia..|].
           destruct (get_Some 3 background y x k Hfb) as [b Hb]; [lia..|].
           exists a, b, f. repeat (split; [assumption|]).
           rewrite Hn by (try assumption; unfold painted, covered in *; lia).
           rewrite o0_bytes by assumption. rewrite Hb.
           unfold blend. rewrite Hlt. reflexivity.
        -- apply Hp; try assumption. unfold painted, covered in *. lia.
      * intros i j k Hi Hj Hk Hpt. apply Hn; try assumption.
        unfold painted, covered in *. lia.
Qed.

Lemma row_scan_general y o :
  0 <= y < rows background -> scanned y 0 0 o ->
  exists o',
    for_loop 0 (cols background) (fun x output =>
      let fX := x - pt_x location in
      if (0 <=? fX) && (fX <? cols foreground)
         && (0 <=? y - pt_y location) && (y - pt_y location <? rows foreground)
      then
        let* output :=
          blend_pixel background foreground x y fX (y - pt_y location) output in
        ret (Continue output)
      else ret (Continue output)) o = ret o'
    /\ scanned (y + 1) 0 0 o'.
Proof.
  intros Hy Hs.
  destruct (for_loop_inv (fun x t => scanned y x 0 t) 0 (cols background)
    (fun x output =>
      let fX := x - pt_x location in
      if (0 <=? fX) && (fX <? cols foreground)
         && (0 <=? y - pt_y location) && (y - pt_y location <? rows foreground)
      then
        let* output :=
          blend_pixel background foreground x y fX (y - pt_y location) output in
        ret (Continue output)
      else ret (Continue output)) o) as (o' & Ho' & Hs').
  - apply background_wf.
  - exact Hs.
  - intros x t Hx Ht. cbv beta zeta.
    destruct ((0 <=? x - pt_x location) && (x - pt_x location <? cols foreground)
              && (0 <=? y - pt_y location)
              && (y - pt_y location <? rows foreground)) eqn:Hin.
    + apply andb_true_iff in Hin as [Hin H4].
      apply andb_true_iff in Hin as [Hin H3].
      apply andb_true_iff in Hin as [H1 H2].
      destruct (blend_pixel_general x y t) as (t' & Hblend & Ht');
        [lia|lia|unfold covered; lia|exact Ht|].
      exists t'. rewrite Hblend, bind_ret_l. split; [reflexivity|].
      revert Ht'. apply scanned_shift_general. intros i j k Hi Hj Hk.
      unfold painted, covered. lia.
    + exists t. split; [reflexivity|].
      revert Ht. apply scanned_shift_general. intros i j k Hi Hj Hk.
      unfold painted, covered.
      assert (~ (0 <= x - pt_x location < cols foreground
                 /\ 0 <= y - pt_y location < rows foreground)) as Hout.
      { intros [Hc Hr]. rewrite !andb_false_iff in Hin. lia. }
      lia.
  - exists o'. split; [exact Ho'|].
    revert Hs'. apply scanned_shift_general. intros i j k Hi Hj Hk.
    unfold painted, covered. lia.
Qed.

Lemma scan_general :
  exists o,
    for_loop 0 (rows background) (fun y output =>
      let fY := y - pt_y location in
      let* output :=
        for_loop 0 (cols background) (fun x output =>
          let fX := x - pt_x location in
          if (0 <=? fX) && (fX <? cols foreground)
             && (0 <=? fY) && (fY <? rows foreground)
          then
            let* output :=
              blend_pixel background foreground x y fX fY output in
            ret (Continue output)
          else ret (Continue output)) output in
      ret (Continue output)) o0 = ret o
    /\ same_header o0 o
    /\ forall y x c, 0 <= y < rows background -> 0 <= x < cols background ->
         0 <= c < 3 ->
         exists b,
           get background (y * step background + x * 3 + c) = Some b
           /\ if decide (covered foreground location x y)
              then exists a f,
                get foreground ((y - pt_y location) * step foreground
                                + (x - pt_x location) * 4 + 3) = Some a
                /\ get foreground ((y - pt_y location) * step foreground
                                   + (x - pt_x location) * 4 + c) = Some f
                /\ get o (y * step o0 + x * 3 + c) = Some (blend a b f)
              else get o (y * step o0 + x * 3 + c) = Some b.
Proof.
  destruct (for_loop_inv (fun y t => scanned y 0 0 t) 0 (rows background)
    (fun y output =>
      let fY := y - pt_y location in
      let* output :=
        for_loop 0 (cols background) (fun x output =>
          let fX := x - pt_x location in
          if (0 <=? fX) && (fX <? cols foreground)
             && (0 <=? fY) && (fY <? rows foreground)
          then
            let* output :=
              blend_pixel background foreground x y fX fY output in
            ret (Continue output)
          else ret (Continue output)) output in
      ret (Continue output)) o0) as (o & Ho & Hh & Hp & Hn).
  - apply background_wf.
  - split; [apply same_header_refl|]. split.
    + intros i j k Hi Hj Hk Hpt. unfold painted in Hpt. lia.
    + reflexivity.
  - intros y t Hy Ht. cbv beta zeta.
    destruct (row_scan_general y t Hy Ht) as (t' & Hrow & Ht').
    exists t'. split; [|exact Ht']. cbv beta zeta in Hrow.
    rewrite Hrow, bind_ret_l. reflexivity.
  - exists o. split; [exact Ho|]. split; [exact Hh|].
    intros y x c Hy Hx Hc.
    pose proof (wf_fits_8UC3 background background_wf background_type) as Hfb.
    destruct (get_Some 3 background y x c Hfb) as [b Hb]; [lia..|].
    exists b. split; [exact Hb|]. case_decide as Hcov.
    + destruct (Hp y x c Hy Hx Hc) as (a & b' & f & Ha & Hb' & Hf & Ho').
      { unfold painted. split; [exact Hcov|]. lia. }
      rewrite Hb in Hb'. injection Hb' as <-.
      exists a, f. repeat (split; [assumption|]). exact Ho'.
    + rewrite Hn by (try assumption; unfold painted; tauto).
      rewrite o0_bytes by assumption. exact Hb.
Qed.
End Blend.

Lemma overlay_blend_bytes (background foreground output : Mat)
    (location : Point2i) :
  wf background -> type background = CV_8UC3 ->
  wf foreground -> type foreground = CV_8UC4 ->
  wf output ->
  Int32.min_int < pt_x location <= Int32.max_int ->
  Int32.min_int < pt_y location <= Int32.max_int ->
  exists o,
    overlayImage background foreground output location = ([], Some o)
    /\ rows o = rows background /\ cols o = cols background
    /\ type o = CV_8UC3
    /\ forall y x c, 0 <= y < rows background -> 0 <= x < cols background ->
         0 <= c < 3 ->
         exists b,
           get background (y * step background + x * 3 + c) = Some b
           /\ if decide (covered foreground location x y)
              then exists a f,
                get foreground ((y - pt_y location) * step foreground
                                + (x - pt_x location) * 4 + 3) = Some a
                /\ get foreground ((y - pt_y location) * step foreground
                                   + (x - pt_x location) * 4 + c) = Some f
                /\ get o (y * step o + x * 3 + c) = Some (blend a b f)
              else get o (y * step o + x * 3 + c) = Some b.
Proof.
  intros Hbg Hbt Hfg Hft Hout Hlx Hly.
  rewrite overlay_scan_equiv by (assumption || apply Hbg || apply Hfg).
  destruct (copyTo_spec background output Hbg Hout)
    as (o0 & Hcopy & Hr0 & Hc0 & Ht0 & Hf0 & Hbytes).
  unfold elemSize in Hf0, Hbytes. rewrite Hbt in Hf0, Hbytes, Ht0.
  change (CV_ELEM_SIZE CV_8UC3) with 3 in Hf0, Hbytes.
  destruct (scan_general background foreground o0 location)
    as (o & Hscan & (Hr & Hc & Ht & Hs & _) & Hpix); try assumption.
  { intros i j k Hi Hj Hk. rewrite <- Z.add_assoc, Hbytes by lia.
    rewrite Z.add_assoc. reflexivity. }
  unfold overlayImage_full_scan. rewrite Hcopy, bind_lift_Some.
  exists o. split; [exact Hscan|].
  split; [congruence|]. split; [congruence|]. split; [congruence|].
  intros y x c Hy Hx Hc3. rewrite Hs. apply Hpix; assumption.
Qed.

(** X8: [overlayImage] blends byte by byte.  For a background of type
    CV_8UC3, a foreground of type CV_8UC4 and any offset (an [int] above
    the least one on each axis), the output has the background's shape and
    type; a colour byte under a foreground pixel is [blend] of that pixel's
    alpha, the background byte and the foreground byte, and every other
    byte is the background byte.  The alpha bytes are never written. *)
Theorem overlayImage_blends (background foreground output : Mat)
    (location : Point2i) :
  wf background -> type background = CV_8UC3 ->
  wf foreground -> type foreground = CV_8UC4 ->
  wf output ->
  Int32.min_int < pt_x location <= Int32.max_int ->
  Int32.min_int < pt_y location <= Int32.max_int ->
  exists o,
    overlayImage background foreground output location = ([], Some o)
    /\ rows o = rows background /\ cols o = cols background
    /\ type o = CV_8UC3
    /\ forall y x c, 0 <= y < rows background -> 0 <= x < cols background ->
         0 <= c < 3 ->
         exists b,
           get background (y * step background + x * 3 + c) = Some b
           /\ if decide (covered foreground location x y)
              then exists a f,
                get foreground ((y - pt_y location) * step foreground
                                + (x - pt_x location) * 4 + 3) = Some a
                /\ get foreground ((y - pt_y location) * step foreground
                                   + (x - pt_x location) * 4 + c) = Some f
                /\ get o (y * step o + x * 3 + c) = Some (blend a b f)
              else get o (y * step o + x * 3 + c) = Some b.
Proof. intros. apply overlay_blend_bytes; assumption. Qed.

Lemma overlayImage_blends_witness :
  exists o,
    overlayImage Sample.background_2x3 (Sample.foreground_2x2 x80) Sample.empty
      (mkPoint 2 (-1)) = ([], Some o)
    /\ rows o = 2 /\ cols o = 3 /\ type o = CV_8UC3
    /\ forall y x c, 0 <= y < 2 -> 0 <= x < 3 -> 0 <= c < 3 ->
         exists b,
           get Sample.background_2x3 (y * 12 + x * 3 + c) = Some b
           /\ if decide (covered (Sample.foreground_2x2 x80) (mkPoint 2 (-1)) x y)
              then exists a f,
                get (Sample.foreground_2x2 x80)
                    ((y - -1) * 8 + (x - 2) * 4 + 3) = Some a
                /\ get (Sample.foreground_2x2 x80)
                       ((y - -1) * 8 + (x - 2) * 4 + c) = Some f
                /\ get o (y * step o + x * 3 + c) = Some (blend a b f)
              else get o (y * step o + x * 3 + c) = Some b.
Proof.
  apply (overlayImage_blends Sample.background_2x3 (Sample.foreground_2x2 x80)
           Sample.empty (mkPoint 2 (-1)));
    [sample_wf|reflexivity|sample_wf|reflexivity|sample_wf
    |by_evaluation|by_evaluation].
Defined.

(** * main *)

(** ** The crop *)

Lemma crop_inside (map : Mat) (off tw th : Z) :
  wf map -> 0 <= off -> 0 < tw -> off + tw <= cols map ->
  0 < th <= rows map ->
  exists c,
    crop map (mkRect off 0 tw th) = Some c
    /\ wf c /\ rows c = th /\ cols c = tw /\ type c = type map
    /\ step c = step map
    /\ forall i j, 0 <= i < th -> 0 <= j < tw * elemSize map ->
         get c (i * step map + j)
         = get map (i * step map + (off * elemSize map + j)).
Proof.
  intros Hwf Hoff Htw Hfit Hth.
  pose proof (CV_ELEM_SIZE_pos (type map)) as Hes. fold (elemSize map) in Hes.
  destruct Hwf as [Hrows Hcols Hbytes Hstep Hdata].
  specialize (Hdata ltac:(lia)).
  assert (off * elemSize map + tw * elemSize map <= cols map * elemSize map)
    as Hrow by nia.
  assert (0 <= off * elemSize map) as Hoff' by nia.
  assert (0 <= step map) as Hstep0 by nia.
  assert ((th - 1) * step map <= (rows map - 1) * step map) as Hlast by nia.
  assert (0 <= (th - 1) * step map) as Hlast0 by nia.
  unfold crop. cbn [r_x r_y r_width r_height].
  replace ((0 <=? off) && (0 <=? tw) && (off + tw <=? cols map) && (0 <=? 0)
           && (0 <=? th) && (0 + th <=? rows map)) with true
    by (symmetry; repeat (apply andb_true_iff; split); lia).
  replace ((th <=? 0) || (tw <=? 0)) with false
    by (symmetry; apply orb_false_iff; split; lia).
  eexists. split; [reflexivity|]. rewrite Z.mul_0_l, Z.add_0_l.
  split; [|repeat (split; [reflexivity|])].
  - constructor; cbn [rows cols type step data]; unfold elemSize;
      cbn [type]; fold (elemSize map); try lia.
    intros _. rewrite length_drop. lia.
  - intros i j Hi Hj. unfold get, load. cbn [data].
    assert (0 <= i * step map) by nia.
    rewrite !decide_True by lia. rewrite lookup_drop. f_equal. lia.
Qed.

(** ** The checks and the loop of main *)

Lemma movie_exit w map target fuel n off shown code shown' :
  snd (movie w map target fuel n off shown) = Some (Exit code shown') ->
  code = 0 /\ shown' <> [].
Proof.
  revert n off shown. induction fuel as [|fuel IH]; intros n off shown H.
  - cbn in H. discriminate.
  - cbn [movie] in H. apply snd_bind_Some in H as (frame & _ & H).
    cbv zeta in H.
    destruct (to_char (waitKey w n) =? 27).
    { cbn in H. injection H as <- <-. split; [reflexivity|].
      intros E. apply app_eq_nil in E as [_ E]. discriminate. }
    destruct (Int32.sub (cols map) (cols target) <=? Int32.add off 3).
    { cbn in H. injection H as <- <-. split; [reflexivity|].
      intros E. apply app_eq_nil in E as [_ E]. discriminate. }
    eapply IH. exact H.
Qed.

(** X11: the exit code of [main].  When the map or the target is empty, the
    target has not four channels, or the target is wider or higher than the
    map, [main] returns -1 and shows no frame.  Otherwise, whenever it
    returns, it returns 0 and has shown at least one frame. *)
Theorem main_exit_code (w : World) :
  let map := imread_map w in
  let target := imread_target w in
  let bad :=
    is_empty map = true \/ is_empty target = true
    \/ channels target <> 4
    \/ cols target > cols map \/ rows target > rows map in
  (bad -> exists log, main w = (log, Some (Exit (-1) [])))
  /\ (~ bad -> forall log code shown,
        main w = (log, Some (Exit code shown)) -> code = 0 /\ shown <> []).
Proof.
  cbv zeta. unfold main.
  destruct (is_empty (imread_map w)) eqn:Hm.
  { split; [intros _; eexists; reflexivity|]. intros Hbad. exfalso. auto. }
  destruct (is_empty (imread_target w)) eqn:Ht.
  { split; [intros _; eexists; reflexivity|]. intros Hbad. exfalso. auto. }
  destruct (Z.eqb_spec (channels (imread_target w)) 4) as [Hch|Hch]; cbn [negb].
  2:{ split; [intros _; eexists; reflexivity|]. intros Hbad. exfalso. auto. }
  destruct ((cols (imread_target w) >? cols (imread_map w))
            || (rows (imread_target w) >? rows (imread_map w))) eqn:Hsize.
  { split; [intros _; eexists; reflexivity|]. intros Hbad. exfalso.
    apply Hbad. apply orb_true_iff in Hsize as [Hs|Hs]; lia. }
  apply orb_false_iff in Hsize as [Hs1 Hs2]. split.
  - intros [Hbad|[Hbad|[Hbad|[Hbad|Hbad]]]];
      first [discriminate|contradiction|lia].
  - intros _ log code shown H.
    assert (snd (movie w (imread_map w) (imread_target w)
                   (Z.to_nat (cols (imread_map w)) + 2) 0 0 [])
            = Some (Exit code shown)) as Hmovie.
    { apply (f_equal snd) in H. cbn [snd] in H.
      apply snd_bind_Some in H as (_ & _ & H).
      apply snd_bind_Some in H as (_ & _ & H). exact H. }
    eapply movie_exit. exact Hmovie.
Qed.

Lemma main_exit_code_witness :
  (exists log,
     main (mkWorld Sample.map_2x2 Sample.target_4x4 (fun _ => -1))
     = (log, Some (Exit (-1) [])))
  /\ (forall log code shown,
        main (mkWorld Sample.map_4x4 Sample.target_4x4 (fun _ => -1))
        = (log, Some (Exit code shown)) -> code = 0 /\ shown <> []).
Proof.
  split.
  - apply (proj1 (main_exit_code
                    (mkWorld Sample.map_2x2 Sample.target_4x4 (fun _ => -1)))).
    right. right. right. left. vm_compute. reflexivity.
  - apply (proj2 (main_exit_code
                    (mkWorld Sample.map_4x4 Sample.target_4x4 (fun _ => -1)))).
    vm_compute. intuition discriminate.
Defined.

Lemma frames_due_last (map target : Mat) :
  0 <= cols map - cols target ->
  cols map - cols target <= 3 * frames_due map target.
Proof.
  intros HD. unfold frames_due.
  pose proof (Z.div_mod (cols map - cols target + 2) 3 ltac:(lia)).
  pose proof (Z.mod_pos_bound (cols map - cols target + 2) 3 ltac:(lia)).
  lia.
Qed.

Lemma frames_due_before (map target : Mat) (k : Z) :
  1 <= k < frames_due map target -> 3 * k < cols map - cols target.
Proof.
  unfold frames_due. intros Hk.
  pose proof (Z.div_mod (cols map - cols target + 2) 3 ltac:(lia)).
  pose proof (Z.mod_pos_bound (cols map - cols target + 2) 3 ltac:(lia)).
  lia.
Qed.

Lemma frames_due_upper (map target : Mat) :
  3 * frames_due map target <= Z.max 3 (cols map - cols target + 2).
Proof.
  unfold frames_due.
  pose proof (Z.div_mod (cols map - cols target + 2) 3 ltac:(lia)).
  pose proof (Z.mod_pos_bound (cols map - cols target + 2) 3 ltac:(lia)).
  lia.
Qed.

Section Movie.
Variables (w : World) (map target : Mat) (j : nat).

Hypothesis widths : 0 <= cols target <= cols map.
Hypothesis map_width : cols map + 2 <= Int32.max_int.
Hypothesis j_due : Z.of_nat j < frames_due map target.
Hypothesis no_key_before : forall k, (k < j)%nat -> to_char (waitKey w k) <> 27.
Hypothesis stops_at_j :
  to_char (waitKey w j) = 27 \/ Z.of_nat j = frames_due map target - 1.
Hypothesis frames_defined : forall k, (k <= j)%nat ->
  snd (render_frame map target (3 * Z.of_nat k)) <> None.

Lemma movie_run (m n fuel : nat) (shown : list Mat) :
  (n + m = j)%nat -> (m < fuel)%nat ->
  exists log frames,
    movie w map target fuel n (3 * Z.of_nat n) shown
      = (log, Some (Exit 0 (shown ++ frames)))
    /\ length frames = S m
    /\ forall i, (i <= m)%nat ->
         snd (render_frame map target (3 * Z.of_nat (n + i))) = frames !! i.
Proof.
  revert n fuel shown. induction m as [|m IH]; intros n fuel shown Hn Hfuel.
  - destruct fuel as [|fuel]; [lia|]. cbn [movie].
    pose proof (frames_defined n ltac:(lia)) as Hdef.
    destruct (render_frame map target (3 * Z.of_nat n)) as [l [frame|]] eqn:E;
      [|contradiction].
    cbn [bind]. cbv zeta.
    assert (exists log,
      (if to_char (waitKey w n) =? 27 then ret (Exit 0 (shown ++ [frame]))
       else if Int32.sub (cols map) (cols target)
               <=? Int32.add (3 * Z.of_nat n) 3
            then ret (Exit 0 (shown ++ [frame]))
            else movie w map target fuel (S n)
                   (Int32.add (3 * Z.of_nat n) 3) (shown ++ [frame]))
      = (log, Some (Exit 0 (shown ++ [frame])))) as [log ->].
    { destruct (Z.eqb_spec (to_char (waitKey w n)) 27) as [Hk|Hk];
        [eexists; reflexivity|].
      replace n with j in * by lia.
      destruct stops_at_j as [Hs|Hs]; [contradiction|].
      pose proof (frames_due_last map target ltac:(lia)) as Hlast.
      pose proof (frames_due_upper map target) as Hupper.
      unfold Int32.max_int in *.
      rewrite sub32_exact
        by (unfold Int32.min_int, Int32.max_int; lia).
      unfold Int32.add.
      rewrite wrap32_id
        by (unfold Int32.in_range, Int32.min_int, Int32.max_int; lia).
      rewrite (proj2 (Z.leb_le _ _)) by lia. eexists. reflexivity. }
    exists (l ++ log), [frame]. split; [reflexivity|]. split; [reflexivity|].
    intros i Hi. replace i with O by lia. rewrite Nat.add_0_r, E. reflexivity.
  - destruct fuel as [|fuel]; [lia|]. cbn [movie].
    pose proof (frames_defined n ltac:(lia)) as Hdef.
    destruct (render_frame map target (3 * Z.of_nat n)) as [l [frame|]] eqn:E;
      [|contradiction].
    cbn [bind]. cbv zeta.
    destruct (IH (S n) fuel (shown ++ [frame]) ltac:(lia) ltac:(lia))
      as (log & frames & Hrun & Hlen & Hframes).
    assert ((if to_char (waitKey w n) =? 27 then ret (Exit 0 (shown ++ [frame]))
       else if Int32.sub (cols map) (cols target)
               <=? Int32.add (3 * Z.of_nat n) 3
            then ret (Exit 0 (shown ++ [frame]))
            else movie w map target fuel (S n)
                   (Int32.add (3 * Z.of_nat n) 3) (shown ++ [frame]))
      = (log, Some (Exit 0 ((shown ++ [frame]) ++ frames)))) as ->.
    { rewrite (proj2 (Z.eqb_neq _ _)) by (apply no_key_before; lia).
      pose proof (frames_due_before map target (Z.of_nat (S n)) ltac:(lia))
        as Hbefore.
      unfold Int32.max_int in *.
      rewrite sub32_exact
        by (unfold Int32.min_int, Int32.max_int; lia).
      unfold Int32.add.
      rewrite wrap32_id
        by (unfold Int32.in_range, Int32.min_int, Int32.max_int; lia).
      rewrite (proj2 (Z.leb_gt _ _)) by lia.
      replace (3 * Z.of_nat n + 3) with (3 * Z.of_nat (S n)) by lia.
      exact Hrun. }
    exists (l ++ log), (frame :: frames).
    split; [rewrite <- app_assoc; reflexivity|].
    split; [cbn; lia|].
    intros [|i] Hi.
    + rewrite Nat.add_0_r, E. reflexivity.
    + replace (n + S i)%nat with (S n + i)%nat by lia.
      apply Hframes. lia.
Qed.
End Movie.

(** X12: the frames [main] shows.  With images that pass its checks, if no
    key before frame [j] is ESC, and frame [j] is either answered by ESC or
    is the last frame due, and the first [j + 1] frames can be rendered,
    then [main] returns 0 after showing exactly [j + 1] frames, the frame
    number [k] being the one rendered at offset [3 * k]. *)
Theorem main_shows_frames (w : World) (j : nat) :
  let map := imread_map w in
  let target := imread_target w in
  is_empty map = false -> is_empty target = false ->
  channels target = 4 ->
  0 <= cols target <= cols map -> rows target <= rows map ->
  cols map + 2 <= Int32.max_int ->
  Z.of_nat j < frames_due map target ->
  (forall k, (k < j)%nat -> to_char (waitKey w k) <> 27) ->
  to_char (waitKey w j) = 27 \/ Z.of_nat j = frames_due map target - 1 ->
  (forall k, (k <= j)%nat ->
     snd (render_frame map target (3 * Z.of_nat k)) <> None) ->
  exists log frames,
    main w = (log, Some (Exit 0 frames))
    /\ length frames = S j
    /\ forall k, (k <= j)%nat ->
         snd (render_frame map target (3 * Z.of_nat k)) = frames !! k.
Proof.
  cbv zeta. intros Hm Ht Hch Hw Hh Hmax Hj Hkeys Hstop Hdef.
  assert (Z.of_nat j <= cols (imread_map w)) as Hjw.
  { destruct j as [|j]; [lia|].
    pose proof (frames_due_before (imread_map w) (imread_target w)
                  (Z.of_nat (S j)) ltac:(lia)). lia. }
  destruct (movie_run w (imread_map w) (imread_target w) j Hw Hmax Hj Hkeys
              Hstop Hdef j O (Z.to_nat (cols (imread_map w)) + 2) [])
    as (log & frames & Hrun & Hlen & Hframes); [lia|lia|].
  unfold main. rewrite Hm, Ht, Hch. cbn [Z.eqb negb Pos.eqb].
  replace ((cols (imread_target w) >? cols (imread_map w))
           || (rows (imread_target w) >? rows (imread_map w))) with false
    by (symmetry; apply orb_false_iff; split; lia).
  change (3 * Z.of_nat 0) with 0 in Hrun. rewrite Hrun.
  eexists _, frames. split; [reflexivity|]. split; [exact Hlen|].
  intros k Hk. apply (Hframes k Hk).
Qed.

Lemma main_shows_frames_witness :
  exists log frames,
    main (mkWorld Sample2.map_2x6 Sample.target_2x2 Sample2.esc_at_second)
      = (log, Some (Exit 0 frames))
    /\ length frames = 2%nat
    /\ forall k, (k <= 1)%nat ->
         snd (render_frame Sample2.map_2x6 Sample.target_2x2 (3 * Z.of_nat k))
         = frames !! k.
Proof.
  apply (main_shows_frames
           (mkWorld Sample2.map_2x6 Sample.target_2x2 Sample2.esc_at_second) 1);
    [reflexivity|reflexivity|reflexivity|by_evaluation|by_evaluation
    |by_evaluation|by_evaluation| |left; reflexivity|].
  - intros k Hk. replace k with O by lia. vm_compute. discriminate.
  - intros k Hk. assert (k = 0 \/ k = 1)%nat as [ -> | -> ] by lia;
      vm_compute; discriminate.
Defined.

(** ** The loop ends by itself *)

(** Either no key up to frame [n] is ESC, or there is a first one. *)
Lemma first_esc (w : World) (n : nat) :
  (forall k, (k <= n)%nat -> to_char (waitKey w k) <> 27)
  \/ exists j, (j <= n)%nat /\ to_char (waitKey w j) = 27
       /\ forall k, (k < j)%nat -> to_char (waitKey w k) <> 27.
Proof.
  induction n as [|n IH].
  - destruct (Z.eq_dec (to_char (waitKey w O)) 27) as [He|Hne].
    + right. exists O. split; [lia|]. split; [exact He|]. intros k Hk. lia.
    + left. intros k Hk. replace k with O by lia. exact Hne.
  - destruct IH as [Hno|(j & Hj & He & Hbefore)].
    + destruct (Z.eq_dec (to_char (waitKey w (S n))) 27) as [He|Hne].
      * right. exists (S n). split; [lia|]. split; [exact He|].
        intros k Hk. apply Hno. lia.
      * left. intros k Hk. destruct (Nat.eq_dec k (S n)) as [ -> | Hk'];
          [exact Hne|apply Hno; lia].
    + right. exists j. split; [lia|]. split; assumption.
Qed.

(** Whatever the keys, the loop stops at the first ESC or at the last frame
    due, whichever comes first, provided the frames up to there can be
    rendered. *)
Lemma main_returns (w : World) :
  let map := imread_map w in
  let target := imread_target w in
  is_empty map = false -> is_empty target = false ->
  channels target = 4 ->
  0 <= cols target <= cols map -> rows target <= rows map ->
  cols map + 2 <= Int32.max_int ->
  (forall k : nat, k = O \/ 3 * Z.of_nat k < cols map - cols target ->
     snd (render_frame map target (3 * Z.of_nat k)) <> None) ->
  exists log frames,
    main w = (log, Some (Exit 0 frames))
    /\ 1 <= Z.of_nat (length frames) <= frames_due map target
    /\ forall k, (k < length frames)%nat ->
         (k = O \/ 3 * Z.of_nat k < cols map - cols target)
         /\ snd (render_frame map target (3 * Z.of_nat k)) = frames !! k.
Proof.
  cbv zeta. intros Hm Ht Hch Hw Hh Hmax Hdef.
  set (map := imread_map w) in *. set (target := imread_target w) in *.
  assert (1 <= frames_due map target) as Hdue by (unfold frames_due; lia).
  assert (forall k : nat, Z.of_nat k < frames_due map target ->
            k = O \/ 3 * Z.of_nat k < cols map - cols target) as Hreach.
  { intros [|k] Hk; [left; reflexivity|right].
    apply frames_due_before. lia. }
  assert (exists j : nat,
            Z.of_nat j < frames_due map target
            /\ (forall k, (k < j)%nat -> to_char (waitKey w k) <> 27)
            /\ (to_char (waitKey w j) = 27
                \/ Z.of_nat j = frames_due map target - 1))
    as (j & Hj & Hkeys & Hstop).
  { destruct (first_esc w (Z.to_nat (frames_due map target - 1)))
      as [Hno|(j & Hj & He & Hbefore)].
    - exists (Z.to_nat (frames_due map target - 1)).
      split; [lia|]. split; [|right; lia].
      intros k Hk. apply Hno. lia.
    - exists j. split; [lia|]. split; [exact Hbefore|left; exact He]. }
  assert (Z.of_nat j <= cols map) as Hjw.
  { destruct (Hreach j Hj) as [ -> | Hlt]; lia. }
  destruct (movie_run w map target j Hw Hmax Hj Hkeys Hstop)
    with (m := j) (n := O) (fuel := (Z.to_nat (cols map) + 2)%nat)
         (shown := @nil Mat)
    as (log & frames & Hrun & Hlen & Hframes).
  - intros k Hk. apply Hdef. apply Hreach. lia.
  - reflexivity.
  - lia.
  - unfold main. fold map target. rewrite Hm, Ht, Hch.
    cbn [Z.eqb negb Pos.eqb].
    replace ((cols target >? cols map) || (rows target >? rows map)) with false
      by (symmetry; apply orb_false_iff; split; lia).
    change (3 * Z.of_nat 0) with 0 in Hrun. rewrite Hrun.
    eexists _, frames. split; [reflexivity|]. split; [lia|].
    intros k Hk. split; [apply Hreach; lia|]. apply (Hframes k). lia.
Qed.

(** X10: the loop of [main] ends by itself.  With images that pass the
    checks of [main] (the width of the map plus two being an [int]) and
    whatever the keys, if the frame at offset 0 and at each offset [3 * k]
    below the difference of the widths can be rendered, [main] returns 0
    after showing at least one frame and at most the frames that are due:
    the test on [offset_x] stops the loop where no key does. *)
Theorem main_loop_terminates (w : World) :
  let map := imread_map w in
  let target := imread_target w in
  is_empty map = false -> is_empty target = false ->
  channels target = 4 ->
  0 <= cols target <= cols map -> rows target <= rows map ->
  cols map + 2 <= Int32.max_int ->
  (forall k : nat, k = O \/ 3 * Z.of_nat k < cols map - cols target ->
     snd (render_frame map target (3 * Z.of_nat k)) <> None) ->
  exists log frames,
    main w = (log, Some (Exit 0 frames))
    /\ 1 <= Z.of_nat (length frames) <= frames_due map target.
Proof.
  cbv zeta. intros Hm Ht Hch Hw Hh Hmax Hdef.
  destruct (main_returns w Hm Ht Hch Hw Hh Hmax Hdef)
    as (log & frames & Hmain & Hlen & _).
  exists log, frames. split; assumption.
Qed.

Lemma main_loop_terminates_witness :
  exists log frames,
    main (mkWorld Sample2.map_2x6 Sample.target_2x2 Sample2.esc_at_second)
      = (log, Some (Exit 0 frames))
    /\ 1 <= Z.of_nat (length frames)
       <= frames_due Sample2.map_2x6 Sample.target_2x2.
Proof.
  apply (main_loop_terminates
           (mkWorld Sample2.map_2x6 Sample.target_2x2 Sample2.esc_at_second));
    [reflexivity|reflexivity|reflexivity|by_evaluation|by_evaluation
    |by_evaluation|].
  intros k Hk. cbn in Hk.
  assert (k = 0 \/ k = 1)%nat as [ -> | -> ] by lia; vm_compute; discriminate.
Defined.

(** ** The crops of main *)

Lemma not_empty_dims (m : Mat) :
  wf m -> is_empty m = false -> 0 < rows m /\ 0 < cols m.
Proof.
  intros Hwf He. unfold is_empty in He.
  apply orb_false_iff in He as [_ He]. apply Z.eqb_neq in He.
  pose proof (wf_rows m Hwf). pose proof (wf_cols m Hwf). nia.
Qed.

(** X9: [main] never crops outside the map.  With well-formed images that
    pass the checks of [main] (the width of the map plus two being an
    [int]), suppose a frame can only fail at its crop: whenever the
    rectangle [(offset, 0, target width, target height)] is inside the map,
    the filter and the compositor are defined on the crop.  Then, whatever
    the keys, [main] returns 0, and each frame [k] it shows is rendered
    from the crop at offset [3 * k], which is inside the map and has the
    target's dimensions and the map's type. *)
Theorem main_crops_inside_map (w : World) :
  let map := imread_map w in
  let target := imread_target w in
  wf map -> wf target ->
  is_empty map = false -> is_empty target = false ->
  channels target = 4 ->
  cols target <= cols map -> rows target <= rows map ->
  cols map + 2 <= Int32.max_int ->
  (forall off,
     crop map (mkRect off 0 (cols target) (rows target)) <> None ->
     snd (render_frame map target off) <> None) ->
  exists log frames,
    main w = (log, Some (Exit 0 frames))
    /\ forall k, (k < length frames)%nat ->
         exists c,
           crop map (mkRect (3 * Z.of_nat k) 0 (cols target) (rows target))
             = Some c
           /\ rows c = rows target /\ cols c = cols target
           /\ type c = type map
           /\ snd (render_frame map target (3 * Z.of_nat k)) = frames !! k.
Proof.
  cbv zeta. intros Hmap Htarget Hm Ht Hch Hw Hh Hmax Hdef.
  destruct (not_empty_dims _ Htarget Ht) as [Hrows Hcols].
  assert (forall k : nat,
            k = O \/ 3 * Z.of_nat k
                     < cols (imread_map w) - cols (imread_target w) ->
            exists c,
              crop (imread_map w)
                (mkRect (3 * Z.of_nat k) 0 (cols (imread_target w))
                   (rows (imread_target w))) = Some c
              /\ rows c = rows (imread_target w)
              /\ cols c = cols (imread_target w)
              /\ type c = type (imread_map w)) as Hcrop.
  { intros k Hk.
    destruct (crop_inside (imread_map w) (3 * Z.of_nat k)
                (cols (imread_target w)) (rows (imread_target w)))
      as (c & Hc & _ & Hr & Hcl & Hty & _); try assumption; try lia.
    exists c. repeat (split; [assumption|]). exact Hty. }
  destruct (main_returns w Hm Ht Hch ltac:(lia) Hh Hmax)
    as (log & frames & Hmain & _ & Hframes).
  { intros k Hk. apply Hdef.
    destruct (Hcrop k Hk) as (c & Hc & _). rewrite Hc. discriminate. }
  exists log, frames. split; [exact Hmain|].
  intros k Hk. destruct (Hframes k Hk) as [Hreach Hframe].
  destruct (Hcrop k Hreach) as (c & Hc & Hr & Hcl & Hty).
  exists c. repeat (split; [assumption|]). exact Hframe.
Qed.

Lemma main_crops_inside_map_witness :
  exists log frames,
    main (mkWorld Sample2.map_2x6 Sample.target_2x2 (fun _ => -1))
      = (log, Some (Exit 0 frames))
    /\ forall k, (k < length frames)%nat ->
         exists c,
           crop Sample2.map_2x6 (mkRect (3 * Z.of_nat k) 0 2 2) = Some c
           /\ rows c = 2 /\ cols c = 2 /\ type c = CV_8UC3
           /\ snd (render_frame Sample2.map_2x6 Sample.target_2x2
                     (3 * Z.of_nat k)) = frames !! k.
Proof.
  apply (main_crops_inside_map
           (mkWorld Sample2.map_2x6 Sample.target_2x2 (fun _ => -1)));
    [sample_wf|sample_wf|reflexivity|reflexivity|reflexivity|by_evaluation
    |by_evaluation|by_evaluation|].
  intros off Hcrop.
  assert (0 <= off <= 4) as Hoff.
  { unfold crop in Hcrop. cbn in Hcrop.
    destruct (Z.leb_spec 0 off); [|contradiction].
    destruct (Z.leb_spec (off + 2) 6); [lia|contradiction]. }
  assert (off = 0 \/ off = 1 \/ off = 2 \/ off = 3 \/ off = 4)
    as [ -> | [ -> | [ -> | [ -> | -> ] ] ] ] by lia;
    vm_compute; discriminate.
Defined.

(** ** A target the filter refuses *)

Lemma Mat_new_wf : wf Mat_new.
Proof. sample_wf. Qed.

Lemma filter_refuses_type (map target : Mat)
    (componentX componentY scaleX scaleY : Z) (output : Mat) :
  0 <= componentX <= 2 -> 0 <= componentY <= 2 ->
  type target <> CV_8UC4 ->
  displacementMapFilter map target componentX componentY scaleX scaleY output
  = ([msg_format], Some output).
Proof.
  intros HcX HcY Htype. unfold displacementMapFilter.
  replace ((componentX <? 0) || (componentX >? 2)
           || (componentY <? 0) || (componentY >? 2)) with false
    by (symmetry; repeat (apply orb_false_iff; split); lia).
  replace (negb (cols target =? cols map) || negb (rows target =? rows map)
           || negb (type target =? CV_8UC4)) with true
    by (symmetry; apply orb_true_iff; right; apply negb_true_iff; lia).
  reflexivity.
Qed.

(** The frame of a refused target is defined: it is the copy of the crop. *)
Lemma render_frame_refused_defined (map target : Mat) (off : Z) :
  wf map ->
  0 <= off -> 0 < cols target -> off + cols target <= cols map ->
  0 < rows target <= rows map ->
  type target <> CV_8UC4 ->
  snd (render_frame map target off) <> None.
Proof.
  intros Hmap Hoff Htw Hfit Hth Htype.
  destruct (crop_inside map off (cols target) (rows target))
    as (c & Hc & Hwfc & Hr & Hcl & Ht & Hs & Hbytes); try assumption.
  unfold render_frame. cbv zeta. rewrite Hc, bind_lift_Some.
  rewrite filter_refuses_type by (assumption || lia). cbn [bind].
  rewrite overlay_apart;
    try (cbn; unfold Int32.min_int, Int32.max_int; lia); try apply Hwfc.
  destruct (copyTo_spec c Mat_new Hwfc Mat_new_wf) as (o & Hcopy & _).
  rewrite Hcopy. discriminate.
Qed.

(** X13: a target that is not of type CV_8UC4 is refused by the filter at
    every frame (one with four channels of sixteen bits passes the channel
    check of [main]): the frame rendered at an offset inside the map prints
    the format error and is the crop of the map itself, byte for byte. *)
Theorem render_frame_refused_target (map target : Mat) (off : Z) :
  wf map ->
  0 <= off -> 0 < cols target -> off + cols target <= cols map ->
  0 < rows target <= rows map ->
  type target <> CV_8UC4 ->
  exists frame,
    render_frame map target off = ([msg_format], Some frame)
    /\ rows frame = rows target /\ cols frame = cols target
    /\ type frame = type map
    /\ forall y j, 0 <= y < rows target ->
         0 <= j < cols target * elemSize map ->
         exists b,
           get map (y * step map + (off * elemSize map + j)) = Some b
           /\ get frame (y * step frame + j) = Some b.
Proof.
  intros Hmap Hoff Htw Hfit Hth Htype.
  destruct (crop_inside map off (cols target) (rows target))
    as (c & Hc & Hwfc & Hr & Hcl & Ht & Hs & Hbytes); try assumption.
  unfold render_frame. cbv zeta. rewrite Hc, bind_lift_Some.
  rewrite filter_refuses_type by (assumption || lia). cbn [bind].
  rewrite overlay_apart;
    try (cbn; unfold Int32.min_int, Int32.max_int; lia); try apply Hwfc.
  destruct (copyTo_spec c Mat_new Hwfc Mat_new_wf) as (o & Hcopy & _).
  destruct (copyTo_bytes c Mat_new o Hwfc Mat_new_wf Hcopy)
    as (Hro & Hco & Hto & Hob).
  rewrite Hcopy. exists o. split; [reflexivity|].
  split; [congruence|]. split; [congruence|]. split; [congruence|].
  intros y j Hy Hj.
  destruct (Hob y j) as (b & Hb & Hb'); [lia| |].
  { unfold elemSize. rewrite Ht. fold (elemSize map). lia. }
  exists b. split; [|exact Hb'].
  rewrite Hs, Hbytes in Hb by lia. exact Hb.
Qed.

Lemma render_frame_refused_target_witness :
  exists frame,
    render_frame Sample2.map_2x6 Sample2.target16_2x2 3
      = ([msg_format], Some frame)
    /\ rows frame = 2 /\ cols frame = 2 /\ type frame = CV_8UC3
    /\ forall y j, 0 <= y < 2 -> 0 <= j < 2 * 3 ->
         exists b,
           get Sample2.map_2x6 (y * 18 + (3 * 3 + j)) = Some b
           /\ get frame (y * step frame + j) = Some b.
Proof.
  apply (render_frame_refused_target Sample2.map_2x6 Sample2.target16_2x2 3);
    [sample_wf|lia|by_evaluation|by_evaluation|by_evaluation|by_evaluation].
Defined.

(** ** The filter followed by the compositor *)

Lemma set_same_header m i b m' : set m i b = Some m' -> same_header m m'.
Proof.
  unfold set, store. case_decide; [|discriminate]. cbn.
  intros [= <-]. repeat split. cbn. apply length_insert.
Qed.

Lemma set4_same_header m i j v m' :
  set4 m i j v = Some m' -> same_header m m'.
Proof.
  destruct v as [[[b0 b1] b2] b3]. unfold set4.
  destruct (set m (i * step m + j * 4) b0) as [m0|] eqn:E0; [|discriminate].
  cbn [mbind option_bind].
  destruct (set m0 (i * step m + j * 4 + 1) b1) as [m1|] eqn:E1; [|discriminate].
  cbn [mbind option_bind].
  destruct (set m1 (i * step m + j * 4 + 2) b2) as [m2|] eqn:E2; [|discriminate].
  cbn [mbind option_bind]. intros E3.
  apply set_same_header in E0, E1, E2, E3.
  eauto using same_header_trans.
Qed.

Lemma at4_channels m i j v k :
  at4 m i j = Some v -> 0 <= k < 4 ->
  get m (i * step m + j * 4 + k) = Some (channel4 v k).
Proof.
  unfold at4. intros H Hk.
  destruct (get m (i * step m + j * 4)) as [b0|] eqn:E0; [|discriminate].
  destruct (get m (i * step m + j * 4 + 1)) as [b1|] eqn:E1; [|discriminate].
  destruct (get m (i * step m + j * 4 + 2)) as [b2|] eqn:E2; [|discriminate].
  destruct (get m (i * step m + j * 4 + 3)) as [b3|] eqn:E3; [|discriminate].
  cbn in H. injection H as <-.
  assert (k = 0 \/ k = 1 \/ k = 2 \/ k = 3) as [ -> | [ -> | [ -> | -> ] ] ]
    by lia; cbn [channel4]; rewrite ?Z.add_0_r; assumption.
Qed.

(** The matrix the filter leaves in [output] is one OpenCV could have
    handed out. *)
Lemma remap_output_wf (map target : Mat)
    (componentX componentY scaleX scaleY : Z) (output o : Mat) :
  wf target -> type target = CV_8UC4 -> wf output ->
  0 <= componentX <= 2 -> 0 <= componentY <= 2 ->
  rows target = rows map -> cols target = cols map ->
  snd (displacementMapFilter map target componentX componentY scaleX scaleY
         output) = Some o ->
  wf o /\ type o = CV_8UC4 /\ rows o = rows target /\ cols o = cols target.
Proof.
  intros Htarget Htt Hout HcX HcY Hrows Hcols.
  destruct (create_spec (rows target) (cols target) (type target) output)
    as (Hr0 & Hc0 & Ht0 & Hf0);
    [apply Htarget|apply Htarget|rewrite Htt; reflexivity|exact Hout|].
  set (o0 := create (rows target) (cols target) (type target) output) in *.
  replace (CV_ELEM_SIZE (type target)) with 4 in Hf0
    by (rewrite Htt; reflexivity).
  unfold displacementMapFilter.
  replace ((componentX <? 0) || (componentX >? 2)
           || (componentY <? 0) || (componentY >? 2)) with false
    by (symmetry; repeat (apply orb_false_iff; split); lia).
  replace (negb (cols target =? cols map) || negb (rows target =? rows map)
           || negb (type target =? CV_8UC4)) with false
    by (symmetry; repeat (apply orb_false_iff; split);
        apply negb_false_iff; lia).
  fold o0. intros Hres. unfold for_loop in Hres at 1.
  assert (same_header o0 o) as Hh.
  { revert Hres. apply for_n_keeps; [apply same_header_refl|].
    intros x t r Ht Hr. apply snd_bind_Some in Hr as (t' & Hloop & Hr).
    cbn in Hr. injection Hr as <-. exists t'. split; [reflexivity|].
    unfold for_loop in Hloop. revert Hloop. apply for_n_keeps; [exact Ht|].
    intros y u r Hu H.
    apply snd_bind_Some in H as (px & _ & H).
    apply snd_bind_Some in H as (cx & _ & H). cbv zeta in H.
    apply snd_bind_Some in H as (py & _ & H).
    apply snd_bind_Some in H as (cy & _ & H).
    apply snd_bind_Some in H as (v & _ & H).
    apply snd_bind_Some in H as (u' & Hset & H).
    cbn in Hset, H. injection H as <-.
    exists u'. split; [reflexivity|].
    eauto using same_header_trans, set4_same_header. }
  pose proof (fits_same_header 4 o0 o Hh Hf0) as (_ & Hstep & Hdata).
  destruct Hh as (Hr & Hc & Ht & _).
  pose proof (wf_row_bytes target Htarget) as Hbytes.
  unfold elemSize in Hbytes. rewrite Htt in Hbytes.
  change (CV_ELEM_SIZE CV_8UC4) with 4 in Hbytes.
  assert (type o = CV_8UC4) as Hto by congruence.
  split; [|split; [exact Hto|split; congruence]].
  constructor; unfold elemSize; rewrite ?Hto;
    change (CV_ELEM_SIZE CV_8UC4) with 4; rewrite ?Hr, ?Hc, ?Hr0, ?Hc0;
    try apply Htarget; try assumption.
  - rewrite Hc, Hc0 in Hstep. exact Hstep.
  - rewrite Hr, Hc, Hr0, Hc0 in Hdata. exact Hdata.
Qed.

(** X14: one frame of the movie, byte by byte.  For a crop of type CV_8UC3
    and a target of type CV_8UC4 of the same dimensions, when every read the
    filter makes is inside the target, the filter and then the compositor
    (at offset (0, 0), on new matrices) give a frame of type CV_8UC3 whose
    byte at row [i], column [j], channel [c] is [blend] of the alpha, the
    crop's byte and channel [c] of the target pixel displaced to
    [(i, j)]. *)
Theorem remap_then_overlay (cropped target : Mat)
    (componentX componentY scaleX scaleY : Z) :
  wf cropped -> type cropped = CV_8UC3 ->
  wf target -> type target = CV_8UC4 ->
  rows target = rows cropped -> cols target = cols cropped ->
  0 <= componentX <= 2 -> 0 <= componentY <= 2 ->
  (forall i j, 0 <= i < rows target -> 0 <= j < cols target ->
     is_Some (remapped cropped target componentX componentY scaleX scaleY i j)) ->
  exists output frame,
    displacementMapFilter cropped target componentX componentY scaleX scaleY
      Mat_new = ([], Some output)
    /\ overlayImage cropped output Mat_new (mkPoint 0 0) = ([], Some frame)
    /\ rows frame = rows target /\ cols frame = cols target
    /\ type frame = CV_8UC3
    /\ forall i j c, 0 <= i < rows target -> 0 <= j < cols target ->
         0 <= c < 3 ->
         exists b v,
           get cropped (i * step cropped + j * 3 + c) = Some b
           /\ remapped cropped target componentX componentY scaleX scaleY i j
              = Some v
           /\ get frame (i * step frame + j * 3 + c)
              = Some (blend (channel4 v 3) b (channel4 v c)).
Proof.
  intros Hcrop Hct Htarget Htt Hrows Hcols HcX HcY Hdef.
  destruct (remap_general cropped target componentX componentY scaleX scaleY
              Mat_new Hcrop Hct Htarget Htt Hrows Hcols HcX HcY Mat_new_wf Hdef)
    as (o & Ho & _ & _ & _ & Hpix).
  destruct (remap_output_wf cropped target componentX componentY scaleX scaleY
              Mat_new o Htarget Htt Mat_new_wf HcX HcY Hrows Hcols)
    as (Hwfo & Hto & Hro & Hco); [rewrite Ho; reflexivity|].
  destruct (overlay_blend_bytes cropped o Mat_new (mkPoint 0 0)
              Hcrop Hct Hwfo Hto Mat_new_wf)
    as (frame & Hframe & Hrf & Hcf & Htf & Hbytes);
    [cbn; unfold Int32.min_int, Int32.max_int; lia..|].
  exists o, frame. split; [exact Ho|]. split; [exact Hframe|].
  split; [congruence|]. split; [congruence|]. split; [exact Htf|].
  intros i j c Hi Hj Hc.
  destruct (Hbytes i j c) as (b & Hb & Hblend); [lia..|].
  destruct (Hdef i j Hi Hj) as [v Hv].
  exists b, v. split; [exact Hb|]. split; [exact Hv|].
  rewrite <- Hpix in Hv by assumption.
  destruct (decide (covered o (mkPoint 0 0) j i)) as [Hcov|Hcov].
  - destruct Hblend as (a & f & Ha & Hf & Hout).
    cbn [pt_x pt_y] in Ha, Hf. rewrite !Z.sub_0_r in Ha, Hf.
    rewrite (at4_channels o i j v 3 Hv) in Ha by lia.
    rewrite (at4_channels o i j v c Hv) in Hf by lia.
    injection Ha as <-. injection Hf as <-. exact Hout.
  - exfalso. apply Hcov. unfold covered. cbn [pt_x pt_y]. lia.
Qed.

Lemma remap_then_overlay_witness :
  exists output frame,
    displacementMapFilter Sample2.swap_map_2x2 Sample.target_2x2 2 1 20 20
      Mat_new = ([], Some output)
    /\ overlayImage Sample2.swap_map_2x2 output Mat_new (mkPoint 0 0)
       = ([], Some frame)
    /\ rows frame = 2 /\ cols frame = 2 /\ type frame = CV_8UC3
    /\ forall i j c, 0 <= i < 2 -> 0 <= j < 2 -> 0 <= c < 3 ->
         exists b v,
           get Sample2.swap_map_2x2 (i * 6 + j * 3 + c) = Some b
           /\ remapped Sample2.swap_map_2x2 Sample.target_2x2 2 1 20 20 i j
              = Some v
           /\ get frame (i * step frame + j * 3 + c)
              = Some (blend (channel4 v 3) b (channel4 v c)).
Proof.
  apply (remap_then_overlay Sample2.swap_map_2x2 Sample.target_2x2 2 1 20 20);
    [sample_wf|reflexivity|sample_wf|reflexivity|reflexivity|reflexivity
    |lia|lia|].
  intros x y Hx Hy. four_pixels x y Hx Hy; eexists; vm_compute; reflexivity.
Defined.

(** ** The movie on a map that displaces nothing, and on one that displaces
    past the last row *)

Lemma at3_crop (map c : Mat) (off i j : Z) :
  type map = CV_8UC3 -> step c = step map -> 0 <= j -> 0 <= i ->
  (forall i' j', 0 <= i' < rows c -> 0 <= j' < cols c * elemSize map ->
     get c (i' * step map + j')
     = get map (i' * step map + (off * elemSize map + j'))) ->
  0 <= i < rows c -> 0 <= j < cols c ->
  at3 c i j = at3 map i (off + j).
Proof.
  intros Ht Hs Hj Hi Hbytes Hi' Hj'. unfold at3. rewrite Hs.
  unfold elemSize in Hbytes. rewrite Ht in Hbytes.
  change (CV_ELEM_SIZE CV_8UC3) with 3 in Hbytes.
  rewrite (Hbytes i (j * 3)) by lia.
  rewrite <- !Z.add_assoc.
  rewrite (Hbytes i (j * 3 + 1)), (Hbytes i (j * 3 + 2)) by lia.
  replace (off * 3 + j * 3) with ((off + j) * 3) by lia.
  replace (off * 3 + (j * 3 + 1)) with ((off + j) * 3 + 1) by lia.
  replace (off * 3 + (j * 3 + 2)) with ((off + j) * 3 + 2) by lia.
  reflexivity.
Qed.

Lemma getComponent_red (b g r cx : uchar) :
  getComponent (b, g, r) 2 = ret cx -> cx = r.
Proof. cbn. intros [= <-]. reflexivity. Qed.

Section Frame.
Variables (map target : Mat) (off : Z).

Hypothesis map_wf : wf map.
Hypothesis map_type : type map = CV_8UC3.
Hypothesis target_wf : wf target.
Hypothesis target_type : type target = CV_8UC4.
Hypothesis off_inside : 0 <= off.
Hypothesis target_cols : 0 < cols target.
Hypothesis crop_fits : off + cols target <= cols map.
Hypothesis target_rows : 0 < rows target <= rows map.

(** The red component of the map is in the dead zone of scale 20 under the
    whole crop. *)
Hypothesis red_in_dead_zone : forall i j p,
  0 <= i < rows target -> off <= j < off + cols target ->
  at3 map i j = Some p -> 116 <= uchar_to_Z (component_of p 2) <= 140.

Lemma render_frame_in_dead_zone :
  exists frame,
    render_frame map target off = ([], Some frame)
    /\ rows frame = rows target /\ cols frame = cols target
    /\ type frame = CV_8UC3
    /\ forall i j c, 0 <= i < rows target -> 0 <= j < cols target ->
         0 <= c < 3 ->
         exists b a f,
           get map (i * step map + (off + j) * 3 + c) = Some b
           /\ get target (i * step target + j * 4 + 3) = Some a
           /\ get target (i * step target + j * 4 + c) = Some f
           /\ get frame (i * step frame + j * 3 + c) = Some (blend a b f).
Proof.
  destruct (crop_inside map off (cols target) (rows target))
    as (c & Hc & Hwfc & Hrc & Hcc & Htc & Hsc & Hbytes); try assumption.
  rewrite map_type in Htc.
  assert (forall i j, 0 <= i < rows target -> 0 <= j < cols target ->
            at3 c i j = at3 map i (off + j)) as Hat3.
  { intros i j Hi Hj. apply at3_crop; try assumption; try lia.
    rewrite Hrc, Hcc. exact Hbytes. }
  destruct (remap_fixed c target 2 2 20 20 Mat_new)
    as (o & Ho & Hro & Hco & Hto & Hpix);
    try assumption; try lia; try apply Mat_new_wf.
  { intros i j p cx cy Hi Hj Hp Hcx Hcy.
    rewrite Hat3 in Hp by lia.
    pose proof (red_in_dead_zone i (off + j) p ltac:(lia) ltac:(lia) Hp) as Hred.
    destruct p as [[b g] r].
    apply getComponent_red in Hcx, Hcy. subst cx cy.
    change (component_of (b, g, r) 2) with r in Hred.
    split; apply displacement_small; lia. }
  destruct (remap_output_wf c target 2 2 20 20 Mat_new o)
    as (Hwfo & Hto' & _ & _);
    try assumption; try lia; try apply Mat_new_wf; [rewrite Ho; reflexivity|].
  destruct (overlay_blend_bytes c o Mat_new (mkPoint 0 0)
              Hwfc Htc Hwfo Hto' Mat_new_wf)
    as (frame & Hframe & Hrf & Hcf & Htf & Hblend);
    [cbn; unfold Int32.min_int, Int32.max_int; lia..|].
  exists frame. split.
  { unfold render_frame. cbv zeta. rewrite Hc, bind_lift_Some, Ho.
    cbn [bind]. rewrite Hframe. reflexivity. }
  split; [congruence|]. split; [congruence|]. split; [exact Htf|].
  intros i j ch Hi Hj Hch.
  destruct (Hblend i j ch) as (b & Hb & Hbl); [lia..|].
  destruct (decide (covered o (mkPoint 0 0) j i)) as [Hcov|Hcov].
  2:{ exfalso. apply Hcov. unfold covered. cbn [pt_x pt_y]. lia. }
  destruct Hbl as (a & f & Ha & Hf & Hout).
  cbn [pt_x pt_y] in Ha, Hf. rewrite !Z.sub_0_r in Ha, Hf.
  destruct (at4_Some target i j (wf_fits_8UC4 target target_wf target_type))
    as [v Hv]; [lia..|].
  pose proof Hv as Hvo. rewrite <- Hpix in Hvo by lia.
  rewrite (at4_channels o i j v 3 Hvo) in Ha by lia.
  rewrite (at4_channels o i j v ch Hvo) in Hf by lia.
  injection Ha as <-. injection Hf as <-.
  exists b, (channel4 v 3), (channel4 v ch).
  split.
  { rewrite Hsc in Hb. rewrite <- Z.add_assoc in Hb.
    unfold elemSize in Hbytes. rewrite map_type in Hbytes.
    change (CV_ELEM_SIZE CV_8UC3) with 3 in Hbytes.
    rewrite Hbytes in Hb by lia. rewrite <- Hb. f_equal. lia. }
  split; [apply at4_channels; [exact Hv|lia]|].
  split; [apply at4_channels; [exact Hv|lia]|]. exact Hout.
Qed.
End Frame.


Ltac red_is_128 i j :=
  let Hi := fresh in let Hj := fresh in
  intros i j ? Hi Hj; cbn in Hi, Hj;
  assert (i = 0 \/ i = 1) as [ -> | -> ] by lia;
  assert (j = 0 \/ j = 1 \/ j = 2 \/ j = 3 \/ j = 4 \/ j = 5)
    as [ -> | [ -> | [ -> | [ -> | [ -> | -> ] ] ] ] ] by lia;
  intros [= <-]; vm_compute; split; discriminate.


(** X16: the whole movie on a map that displaces nothing.  With
    well-formed images that pass the checks of [main] (a target of any type
    with four channels, the width of the map plus two being an [int]), a
    map of type CV_8UC3 whose red component lies between 116 and 140 in the
    rows under the target, and no ESC, [main] returns 0 after showing all
    the frames that are due.  A target of type CV_8UC4 is laid over each
    crop without displacement; a target of another type is refused by the
    filter and each frame is the crop itself. *)
Theorem main_without_displacement (w : World) :
  let map := imread_map w in
  let target := imread_target w in
  wf map -> type map = CV_8UC3 -> wf target ->
  is_empty map = false -> is_empty target = false ->
  channels target = 4 ->
  cols target <= cols map -> rows target <= rows map ->
  cols map + 2 <= Int32.max_int ->
  (forall i j p, 0 <= i < rows target -> 0 <= j < cols map ->
     at3 map i j = Some p -> 116 <= uchar_to_Z (component_of p 2) <= 140) ->
  (forall k, to_char (waitKey w k) <> 27) ->
  exists log frames,
    main w = (log, Some (Exit 0 frames))
    /\ Z.of_nat (length frames) = frames_due map target.
Proof.
  cbv zeta. intros Hmap Hmt Htarget Hme Hte Hch Hcols' Hrows' Hmax Hred Hkeys.
  set (map := imread_map w) in *. set (target := imread_target w) in *.
  destruct (not_empty_dims target Htarget Hte) as [Hrows0 Hcols0].
  assert (0 < cols target <= cols map) as Hcols by lia.
  assert (0 < rows target <= rows map) as Hrows by lia.
  assert (1 <= frames_due map target) as Hdue by (unfold frames_due; lia).
  set (j := Z.to_nat (frames_due map target - 1)).
  assert (Z.of_nat j = frames_due map target - 1) as Hj by lia.
  destruct (movie_run w map target j ltac:(lia) Hmax ltac:(lia)
              ltac:(intros; apply Hkeys) ltac:(right; exact Hj))
    with (m := j) (n := O) (fuel := (Z.to_nat (cols map) + 2)%nat)
         (shown := @nil Mat)
    as (log & frames & Hrun & Hlen & _).
  - intros k Hk.
    assert (k = O \/ 3 * Z.of_nat k < cols map - cols target) as Hreach.
    { destruct k as [|k]; [left; reflexivity|right].
      apply frames_due_before. lia. }
    destruct (Z.eq_dec (type target) CV_8UC4) as [Htt|Htt].
    + destruct (render_frame_in_dead_zone map target (3 * Z.of_nat k))
        as (frame & Hframe & _); try assumption; try lia.
      * intros i c p Hi Hc. apply Hred; lia.
      * rewrite Hframe. discriminate.
    + apply render_frame_refused_defined; try assumption; lia.
  - reflexivity.
  - pose proof (frames_due_upper map target). lia.
  - unfold main. fold map target. rewrite Hme, Hte, Hch.
    cbn [Z.eqb negb Pos.eqb].
    replace ((cols target >? cols map) || (rows target >? rows map)) with false
      by (symmetry; apply orb_false_iff; split; lia).
    change (3 * Z.of_nat 0) with 0 in Hrun. rewrite Hrun.
    eexists _, frames. split; [reflexivity|]. lia.
Qed.

Lemma main_without_displacement_witness :
  exists log frames,
    main (mkWorld Sample2.map_2x6 Sample.target_2x2 (fun _ => -1))
      = (log, Some (Exit 0 frames))
    /\ Z.of_nat (length frames) = frames_due Sample2.map_2x6 Sample.target_2x2.
Proof.
  apply (main_without_displacement
           (mkWorld Sample2.map_2x6 Sample.target_2x2 (fun _ => -1)));
    [sample_wf|reflexivity|sample_wf|reflexivity|reflexivity|reflexivity
    |by_evaluation|by_evaluation|by_evaluation| |].
  - red_is_128 i j.
  - intros k. vm_compute. discriminate.
Defined.

Lemma render_frame_overshoot (map target : Mat) (off x y : Z) (p : Vec3b) :
  wf map -> type map = CV_8UC3 -> type target = CV_8UC4 ->
  0 <= off -> 0 < cols target -> off + cols target <= cols map ->
  0 < rows target <= rows map ->
  0 <= step target ->
  Z.of_nat (length (data target)) <= rows target * step target ->
  0 <= x < rows target -> 0 <= y < cols target ->
  at3 map x (off + y) = Some p ->
  rows target <= Int32.add x (displacement (component_of p 2) 20) ->
  snd (render_frame map target off) = None.
Proof.
  intros Hmap Hmt Htt Hoff Htw Hfit Hth Hstep Hends Hx Hy Hp Hover.
  destruct (crop_inside map off (cols target) (rows target))
    as (c & Hc & Hwfc & Hrc & Hcc & Htc & Hsc & Hbytes); try assumption.
  unfold render_frame. cbv zeta. rewrite Hc, bind_lift_Some.
  apply snd_bind_None_l.
  apply (remap_overshoot c target 2 2 20 20 ltac:(lia) ltac:(lia) x y p);
    try assumption; try lia.
  rewrite <- Hp. apply at3_crop; try assumption; try lia.
  rewrite Hrc, Hcc. exact Hbytes.
Qed.

Lemma movie_undefined (w : World) (map target : Mat) (k : nat) :
  0 <= cols target <= cols map -> cols map + 2 <= Int32.max_int ->
  k = O \/ 3 * Z.of_nat k < cols map - cols target ->
  (forall i, (i < k)%nat -> to_char (waitKey w i) <> 27) ->
  snd (render_frame map target (3 * Z.of_nat k)) = None ->
  forall m n fuel shown, (n + m = k)%nat -> (m < fuel)%nat ->
    snd (movie w map target fuel n (3 * Z.of_nat n) shown) = None.
Proof.
  intros Hw Hmax Hreach Hkeys Hnone.
  induction m as [|m IH]; intros n fuel shown Hn Hfuel.
  - destruct fuel as [|fuel]; [lia|]. cbn [movie].
    apply snd_bind_None_l. replace n with k by lia. exact Hnone.
  - destruct fuel as [|fuel]; [lia|]. cbn [movie].
    apply snd_bind_None_r. intros frame _. cbv zeta.
    rewrite (proj2 (Z.eqb_neq _ _)) by (apply Hkeys; lia).
    unfold Int32.max_int in *.
    rewrite sub32_exact by (unfold Int32.min_int, Int32.max_int; lia).
    unfold Int32.add.
    rewrite wrap32_id
      by (unfold Int32.in_range, Int32.min_int, Int32.max_int; lia).
    rewrite (proj2 (Z.leb_gt _ _)) by lia.
    replace (3 * Z.of_nat n + 3) with (3 * Z.of_nat (S n)) by lia.
    apply IH; lia.
Qed.

(** X17: [main] reads outside the target as soon as a frame it reaches
    displaces a row to or past the last row.  With a well-formed map of
    type CV_8UC3 and a target of type CV_8UC4 (the type the filter
    accepts) that pass the checks of [main], the width of the map plus two
    being an [int] and the target owning no bytes past its last row, if
    frame [k] is reached without ESC and some map pixel under its crop has
    a red component that displaces its row to [rows] or further under
    scale 20, [main] has no defined result.  (A target of another type is
    refused by the filter and is never read.) *)
Theorem main_reads_outside_target (w : World) (k : nat) (x y : Z) (p : Vec3b) :
  let map := imread_map w in
  let target := imread_target w in
  wf map -> type map = CV_8UC3 -> type target = CV_8UC4 ->
  is_empty map = false -> is_empty target = false ->
  0 < cols target <= cols map -> 0 < rows target <= rows map ->
  cols map + 2 <= Int32.max_int ->
  0 <= step target ->
  Z.of_nat (length (data target)) <= rows target * step target ->
  k = O \/ 3 * Z.of_nat k < cols map - cols target ->
  (forall i, (i < k)%nat -> to_char (waitKey w i) <> 27) ->
  0 <= x < rows target -> 0 <= y < cols target ->
  at3 map x (3 * Z.of_nat k + y) = Some p ->
  rows target <= Int32.add x (displacement (component_of p 2) 20) ->
  snd (main w) = None.
Proof.
  cbv zeta.
  intros Hmap Hmt Htt Hme Hte Hcols Hrows Hmax Hstep Hends Hreach Hkeys
    Hx Hy Hp Hover.
  unfold main. rewrite Hme, Hte.
  replace (channels (imread_target w)) with 4
    by (unfold channels; rewrite Htt; reflexivity).
  cbn [Z.eqb negb Pos.eqb].
  replace ((cols (imread_target w) >? cols (imread_map w))
           || (rows (imread_target w) >? rows (imread_map w))) with false
    by (symmetry; apply orb_false_iff; split; lia).
  apply snd_bind_None_r. intros _ _. apply snd_bind_None_r. intros _ _.
  change 0 with (3 * Z.of_nat 0) at 1.
  apply (movie_undefined w (imread_map w) (imread_target w) k) with (m := k);
    try assumption; try lia.
  eapply render_frame_overshoot; try eassumption; lia.
Qed.

Lemma main_reads_outside_target_witness :
  snd (main (mkWorld Sample.map_2x2 Sample.target_2x2 (fun _ => -1))) = None.
Proof.
  apply (main_reads_outside_target
           (mkWorld Sample.map_2x2 Sample.target_2x2 (fun _ => -1))
           O 1 1 (xa0, xb0, xc0));
    [sample_wf|reflexivity|reflexivity|reflexivity|reflexivity
    |by_evaluation|by_evaluation|by_evaluation|by_evaluation|by_evaluation
    |left; reflexivity|intros i Hi; lia|by_evaluation|by_evaluation
    |reflexivity|by_evaluation].
Defined.
